(** * The image-detection ingestion pipeline of [scripts/yolo_object_detection.py]

    A shallow embedding of [ImageDetectionProcessor]: the content hasher
    ([get_image_hash]), the dedup gate ([is_image_processed]), the message
    correlator ([get_message_id_for_image]), the per-image step
    ([process_image]), the transactional writer ([save_detections]) and the
    orchestrator ([find_images], [process_all_images]).

    Modelling conventions.
    - A [pathlib.Path] is the list of its components ([Path.parts]); the
      corpus root [IMAGES_DIR] is relative, so [str(path)] joins the parts
      with a slash.  Strings are ASCII strings.
    - Python floats are carried as the rationals they denote: the pipeline
      never computes with them, it only passes them through.
    - The processor object is a state record: the committed rows of
      [raw.image_detections], the number of database round trips made so
      far, a trace holding every [logger] line and every call of the
      detector, newest first, and the transaction of the one connection
      [self.db_conn]: the rows inserted and not yet committed, and whether
      the transaction has failed.
    - The connection is the one [psycopg2.connect] returns and is never put
      in autocommit mode: once a statement has raised, every later
      statement raises until [rollback()] has gone through.  Inserted rows
      reach the table at [commit()] and are dropped by [rollback()].
    - Everything outside the processor is a [World]: the file contents
      (keyed by the path string handed to [open]), the directory listing,
      the rows of [raw.telegram_messages], the detector, and an oracle
      telling at which database round trip a new failure strikes.
    - A Python exception is a [Raise] result; [try]/[except Exception] is
      [try_except].  Effects made before a raise stay in the state. *)

From Stdlib Require Import List String Ascii Bool Arith ZArith QArith Lia.
From Stdlib Require Import Init.Byte.
From Stdlib Require Import Sorting.Permutation Sorting.Sorted.
Import ListNotations.
Local Open Scope string_scope.
Local Open Scope list_scope.

(** ** Paths and strings *)

Definition Path : Type := list string.

(** [image_path.name]: the final component, empty for an empty path. *)
Definition name (p : Path) : string := last p "".

(** [str(image_path)] for a relative path. *)
Definition str (p : Path) : string := String.concat "/" p.

Fixpoint rfind_from (c : ascii) (s : string) (i : nat) (found : option nat)
  : option nat :=
  match s with
  | EmptyString => found
  | String a s' =>
      rfind_from c s' (S i) (if Ascii.eqb a c then Some i else found)
  end.

(** [s.rfind(c)]; [None] stands for Python's [-1]. *)
Definition rfind (c : ascii) (s : string) : option nat := rfind_from c s 0 None.

(** [name.rfind('.')] when [0 < i < len(name) - 1], as [suffix] and [stem]
    of pathlib test it. *)
Definition split_point (nm : string) : option nat :=
  match rfind "."%char nm with
  | Some i =>
      if (0 <? i)%nat && (i <? String.length nm - 1)%nat then Some i else None
  | None => None
  end.

(** [image_path.suffix] *)
Definition suffix (p : Path) : string :=
  match split_point (name p) with
  | Some i => substring i (String.length (name p) - i) (name p)
  | None => ""
  end.

(** [image_path.stem] *)
Definition stem (p : Path) : string :=
  match split_point (name p) with
  | Some i => substring 0 i (name p)
  | None => name p
  end.

Definition lower_char (c : ascii) : ascii :=
  let n := nat_of_ascii c in
  if (65 <=? n)%nat && (n <=? 90)%nat then ascii_of_nat (n + 32) else c.

(** [s.lower()] on ASCII. *)
Fixpoint lower (s : string) : string :=
  match s with
  | EmptyString => EmptyString
  | String c s' => String (lower_char c) (lower s')
  end.

Definition mem_string (x : string) (l : list string) : bool :=
  existsb (String.eqb x) l.

Definition is_digit (c : ascii) : bool :=
  let n := nat_of_ascii c in (48 <=? n)%nat && (n <=? 57)%nat.

(** The pattern [\d+] anchored at the head of [s]: the longest non-empty
    run of digits there (the quantifier is greedy). *)
Fixpoint match_digits_at (s : string) : option string :=
  match s with
  | EmptyString => None
  | String c s' =>
      if is_digit c then
        Some (String c (match match_digits_at s' with
                        | Some r => r
                        | None => EmptyString
                        end))
      else None
  end.

(** [re.search(r'(\d+)', s)]: every start offset is tried from left to
    right and the first match is returned; the result is [group(1)]. *)
Fixpoint re_search_digits (s : string) : option string :=
  match s with
  | EmptyString => None
  | String _ s' =>
      match match_digits_at s with
      | Some m => Some m
      | None => re_search_digits s'
      end
  end.

Fixpoint int_from (s : string) (acc : Z) : Z :=
  match s with
  | EmptyString => acc
  | String c s' => int_from s' (10 * acc + (Z.of_nat (nat_of_ascii c) - 48))
  end.

(** [int(digits)] for a string of decimal digits. *)
Definition int (s : string) : Z := int_from s 0.

(** ** Configuration constants *)

Definition IMAGE_EXTENSIONS : list string :=
  [".jpg"; ".jpeg"; ".png"; ".bmp"; ".gif"; ".tiff"; ".webp"].

Definition CONFIDENCE_THRESHOLD : Q := 3 # 10.

(** The channel list written in [get_message_id_for_image]. *)
Definition known_channels : list string :=
  ["CheMed123"; "lobelia4cosmetics"; "tikvahpharma"].

(** ** Data *)

(** One row of [raw.image_detections], as built in [process_image]. *)
Record DetectionRecord : Type := mkDetection {
  image_path : string;
  image_hash : string;
  message_id : option Z;
  channel_name : option string;
  detected_object_class : string;
  confidence_score : Q;
  bbox_x1 : Q;
  bbox_y1 : Q;
  bbox_x2 : Q;
  bbox_y2 : Q
}.

(** One box of a detector result: [box.cls[0]], [box.conf[0]], [box.xyxy[0]]. *)
Record Box : Type := mkBox {
  cls : Z;
  conf : Q;
  xyxy : Q * Q * Q * Q
}.

(** One element of the detector's result list: [result.boxes] (possibly
    [None]) and the dictionary [result.names]. *)
Record YoloResult : Type := mkResult {
  boxes : option (list Box);
  names : Z -> option string
}.

Inductive Exn : Type :=
| OSError          (* the file system refused *)
| DatabaseError    (* a psycopg2 round trip raised *)
| ModelError       (* the detector raised *)
| KeyError.        (* a class id absent from [result.names] *)

Inductive Event : Type :=
| ErrHash (path : string) (e : Exn)
| ErrCheck (e : Exn)
| ErrMessageId (path : string) (e : Exn)
| InfoSkipping (nm : string)
| InfoFound (n : nat) (nm : string)
| ErrProcessImage (path : string) (e : Exn)
| InfoSaved (n : nat)
| ErrSave (e : Exn)
| ErrProcessing (path : string) (e : Exn)
| WarnDirNotFound
| InfoFoundImages (n : nat)
| InfoNoImages
| InfoComplete (processed_count n_images total_detections : nat)
| Inference (path : string) (threshold : Q).

(** What [IMAGES_DIR] looks like to [find_images]: absent, raising while it
    is walked, or a listing of the entries [rglob] yields, each with its
    [is_file()] answer. *)
Inductive DirState : Type :=
| Missing
| Unreadable
| Listing (entries : list (Path * bool)).

Record World : Type := mkWorld {
  read_file : string -> option (list byte);
  images_dir : DirState;
  telegram_messages : list (Z * string);
  yolo_model : string -> Q -> option (list YoloResult);
  db_fault : nat -> bool
}.

Record State : Type := mkState {
  image_detections : list DetectionRecord;
  db_calls : nat;
  trace : list Event;
  pending : list DetectionRecord;
  aborted : bool
}.

(** ** Exceptions and state *)

Inductive Result (A : Type) : Type :=
| Ok (a : A)
| Raise (e : Exn).
Arguments Ok {A} a.
Arguments Raise {A} e.

Definition M (A : Type) : Type := State -> Result A * State.

Definition ret {A : Type} (a : A) : M A := fun s => (Ok a, s).

Definition bind {A B : Type} (m : M A) (k : A -> M B) : M B :=
  fun s =>
    match m s with
    | (Ok a, s') => k a s'
    | (Raise e, s') => (Raise e, s')
    end.

Definition raise {A : Type} (e : Exn) : M A := fun s => (Raise e, s).

Definition try_except {A : Type} (body : M A) (handler : Exn -> M A) : M A :=
  fun s =>
    match body s with
    | (Ok a, s') => (Ok a, s')
    | (Raise e, s') => handler e s'
    end.

Declare Scope proc_scope.
Delimit Scope proc_scope with proc.
Notation "x <- m ;; k" := (bind m (fun x => k))
  (at level 100, m at next level, right associativity) : proc_scope.
Notation "m ;; k" := (bind m (fun _ => k))
  (at level 100, right associativity) : proc_scope.
Local Open Scope proc_scope.

Definition logged (ev : Event) (s : State) : State :=
  mkState (image_detections s) (db_calls s) (ev :: trace s) (pending s)
          (aborted s).

Definition ticked (s : State) : State :=
  mkState (image_detections s) (S (db_calls s)) (trace s) (pending s)
          (aborted s).

(** The transaction has failed: what it inserted stays uncommitted. *)
Definition failed (s : State) : State :=
  mkState (image_detections s) (db_calls s) (trace s) (pending s) true.

(** A row joins the open transaction. *)
Definition inserted (d : DetectionRecord) (s : State) : State :=
  mkState (image_detections s) (db_calls s) (trace s) (pending s ++ [d])
          (aborted s).

(** The transaction ends by a commit: its rows reach the table. *)
Definition committed (s : State) : State :=
  mkState (image_detections s ++ pending s) (db_calls s) (trace s) [] false.

(** The transaction ends by a rollback: its rows are dropped. *)
Definition rolled_back (s : State) : State :=
  mkState (image_detections s) (db_calls s) (trace s) [] false.

(** An idle connection: no failed transaction, no insert pending. *)
Definition idle (s : State) : Prop := aborted s = false /\ pending s = [].

(** The connection as it is between two saves: no insert is pending,
    unless the transaction has failed and waits for a rollback. *)
Definition between_saves (s : State) : Prop :=
  aborted s = false -> pending s = [].

Definition logger (ev : Event) : M unit := fun s => (Ok tt, logged ev s).

(** The rows a [SELECT] on [raw.image_detections] reads: the committed
    ones.  The pipeline reads only outside [save_detections], where no
    insert is pending unless the transaction has failed, and then the
    statement raises before anything is read. *)
Definition rows : M (list DetectionRecord) :=
  fun s => (Ok (image_detections s), s).

Definition insert_row (d : DetectionRecord) : M unit :=
  fun s => (Ok tt, inserted d s).

(** ** A small corpus to run the pipeline on *)

Definition hex_digit (n : nat) : ascii :=
  nth n (list_ascii_of_string "0123456789abcdef") "0"%char.

Definition hex_of_byte (b : byte) (rest : string) : string :=
  let n := Byte.to_nat b in
  String (hex_digit (n / 16)) (String (hex_digit (n mod 16)) rest).

Fixpoint pad_hex (n : nat) (data : list byte) : string :=
  match n with
  | O => EmptyString
  | S n' =>
      match data with
      | [] => String "0" (String "0" (pad_hex n' []))
      | b :: rest => hex_of_byte b (pad_hex n' rest)
      end
  end.

(** A stand-in digest with the shape of an MD5 hex digest: the first 16
    bytes in hexadecimal, padded with zeros. *)
Definition example_digest (data : list byte) : string := pad_hex 16 data.

Definition images_root : Path := ["data"; "raw"; "telegram_images"].

Definition img_1001 : Path := images_root ++ ["tikvahpharma"; "1001.jpg"].
Definition img_copy : Path := images_root ++ ["tikvahpharma"; "copy_7.png"].
Definition img_photo : Path := images_root ++ ["other"; "photo.jpg"].
Definition img_gone : Path := images_root ++ ["other"; "gone.JPG"].
Definition img_broken : Path := images_root ++ ["CheMed123"; "broken_3.png"].

Definition bytes_1001 : list byte := [x89; x50; x4e; x47]%byte.
Definition bytes_photo : list byte := [xff; xd8; xff]%byte.
Definition bytes_broken : list byte := [x00]%byte.

(** [img_copy] has the bytes of [img_1001]; [img_gone] cannot be read. *)
Definition example_files (path : string) : option (list byte) :=
  if String.eqb path (str img_1001) then Some bytes_1001
  else if String.eqb path (str img_copy) then Some bytes_1001
  else if String.eqb path (str img_photo) then Some bytes_photo
  else if String.eqb path (str img_broken) then Some bytes_broken
  else None.

Definition example_entries : list (Path * bool) :=
  [ (img_1001, true);
    (images_root ++ ["tikvahpharma"], false);
    (img_copy, true);
    (img_photo, true);
    (img_gone, true);
    (img_broken, true);
    (images_root ++ ["other"; "notes.txt"], true) ].

Definition example_messages : list (Z * string) :=
  [(1001%Z, "tikvahpharma"); (3%Z, "lobelia4cosmetics")].

Definition example_names (c : Z) : option string :=
  if Z.eqb c 0 then Some "person"
  else if Z.eqb c 39 then Some "bottle"
  else None.

(** What the example detector sees before thresholding: a bottle and a
    faint person in [img_1001] and its copy, nothing elsewhere. *)
Definition example_candidates (path : string) : list Box :=
  if String.eqb path (str img_1001) || String.eqb path (str img_copy) then
    [ mkBox 39 (92 # 100) (10 # 1, 10 # 1, 50 # 1, 50 # 1);
      mkBox 0 (25 # 100) (0 # 1, 0 # 1, 5 # 1, 5 # 1) ]
  else [].

(** The example detector drops the boxes below the threshold it is called
    with, and raises on [img_broken]. *)
Definition example_yolo (path : string) (threshold : Q)
  : option (list YoloResult) :=
  if String.eqb path (str img_broken) then None
  else
    Some [ mkResult
             (Some (filter (fun b => Qle_bool threshold (conf b))
                           (example_candidates path)))
             example_names ].

Definition example_world (faults : nat -> bool) : World :=
  mkWorld example_files (Listing example_entries) example_messages
          example_yolo faults.

(** No failure strikes. *)
Definition quiet_world : World := example_world (fun _ => false).

(** A failure strikes at the next round trip, and only there. *)
Definition flaky_world : World := example_world (fun n => Nat.eqb n 0).

(** A failure strikes at the second round trip from now, and only there. *)
Definition failing_world : World := example_world (fun n => Nat.eqb n 1).

(** Every round trip raises, the rollbacks included. *)
Definition down_world : World := example_world (fun _ => true).

Definition row_1001 : DetectionRecord :=
  mkDetection (str img_1001) (example_digest bytes_1001) (Some 1001%Z)
    (Some "tikvahpharma") "bottle" (92 # 100) (10 # 1) (10 # 1) (50 # 1)
    (50 # 1).

Definition row_person : DetectionRecord :=
  mkDetection (str img_1001) (example_digest bytes_1001) (Some 1001%Z)
    (Some "tikvahpharma") "person" (45 # 100) (0 # 1) (0 # 1) (5 # 1) (5 # 1).

(** A fresh processor, and one whose table already has a row for the
    bytes of [img_1001]; both with an idle connection. *)
Definition s_fresh : State := mkState [] 0 [] [] false.
Definition s_seen : State := mkState [row_1001] 0 [] [] false.

(** ** Further vocabulary on strings *)

(** Every character of [s] passes the test [f]. *)
Fixpoint forall_chars (f : ascii -> bool) (s : string) : bool :=
  match s with
  | EmptyString => true
  | String c s' => f c && forall_chars f s'
  end.

Definition non_digit (c : ascii) : bool := negb (is_digit c).

(** [s] is empty or starts with a character that is no digit. *)
Definition stops_digits (s : string) : Prop :=
  match s with
  | EmptyString => True
  | String c _ => is_digit c = false
  end.

(** ** The script around the processor *)

(** [self.db_conn]: never set, set by [connect_db], or closed. *)
Inductive Connection : Type :=
| NoConnection
| Connected
| ClosedConnection.

(** The [logger] lines of the set-up, the summary and [main]. *)
Inductive JournalLine : Type :=
| InfoConnected
| ErrConnection (e : Exn)
| InfoLoadingModel
| InfoModelLoaded
| ErrLoadModel (e : Exn)
| InfoTableReady
| ErrCreateTable (e : Exn)
| InfoSummary (total : nat) (top_objects by_channel : list (string * nat))
| ErrSummary (e : Exn)
| ErrMain (e : Exn)
| InfoClosed.

(** What the script needs besides the [World]: can the database be
    reached, can the model weights be loaded. *)
Record Host : Type := mkHost {
  db_reachable : bool;
  weights_loadable : bool
}.

(** The processor object as [main] sees it: the connection, whether
    [self.yolo_model] is set, the state the pipeline works on, and the
    lines logged outside the pipeline, newest first. *)
Record Session : Type := mkSession {
  db_conn : Connection;
  model_loaded : bool;
  core : State;
  journal : list JournalLine
}.

Definition Script (A : Type) : Type := Session -> Result A * Session.

Definition and_then {A B : Type} (m : Script A) (k : A -> Script B)
  : Script B :=
  fun x =>
    match m x with
    | (Ok a, x') => k a x'
    | (Raise e, x') => (Raise e, x')
    end.

Definition fail {A : Type} (e : Exn) : Script A := fun x => (Raise e, x).

(** [try]/[except Exception] at the level of the script. *)
Definition attempt {A : Type} (body : Script A) (handler : Exn -> Script A)
  : Script A :=
  fun x =>
    match body x with
    | (Ok a, x') => (Ok a, x')
    | (Raise e, x') => handler e x'
    end.

Definition noted (l : JournalLine) (x : Session) : Session :=
  mkSession (db_conn x) (model_loaded x) (core x) (l :: journal x).

Definition note (l : JournalLine) : Script unit := fun x => (Ok tt, noted l x).

(** A step of the pipeline run inside the script. *)
Definition on_core {A : Type} (m : M A) : Script A :=
  fun x =>
    match m (core x) with
    | (r, c) => (r, mkSession (db_conn x) (model_loaded x) c (journal x))
    end.

(** [ImageDetectionProcessor()] in front of a database whose detections
    table holds [table]. *)
Definition new_processor (table : list DetectionRecord) : Session :=
  mkSession NoConnection false (mkState table 0 [] [] false) [].

(** [SELECT key, COUNT( * ) ... GROUP BY key]: one line per distinct key,
    with the number of rows that have it. *)
Definition group_count (keys : list string) : list (string * nat) :=
  map (fun k => (k, count_occ string_dec keys k)) (nodup string_dec keys).

(** The [detected_object_class] column. *)
Definition classes_of (table : list DetectionRecord) : list string :=
  map detected_object_class table.

(** The [channel_name] column [WHERE channel_name IS NOT NULL]. *)
Definition channels_of (table : list DetectionRecord) : list string :=
  flat_map (fun d => match channel_name d with
                     | Some c => [c]
                     | None => []
                     end) table.

(** [ORDER BY count DESC] leaves the order of equal counts to the engine;
    this is what an engine's ordering has to do. *)
Definition by_count_desc (x y : string * nat) : Prop := (snd y <= snd x)%nat.

(** An ordering to run the examples with: insertion from the right, equal
    counts in their order of arrival. *)
Fixpoint insert_by_count (x : string * nat) (l : list (string * nat))
  : list (string * nat) :=
  match l with
  | [] => [x]
  | y :: rest =>
      if (snd y <? snd x)%nat then x :: y :: rest
      else y :: insert_by_count x rest
  end.

Definition example_order (l : list (string * nat)) : list (string * nat) :=
  fold_right insert_by_count [] l.

Definition ready_host : Host := mkHost true true.
Definition no_database_host : Host := mkHost false true.
Definition no_weights_host : Host := mkHost true false.

Definition row_mask : DetectionRecord :=
  mkDetection "data/raw/telegram_images/lobelia4cosmetics/3.png"
    (example_digest [x01]%byte) (Some 3%Z) (Some "lobelia4cosmetics")
    "person" (61 # 100) (1 # 1) (1 # 1) (9 # 1) (9 # 1).

Definition row_unknown : DetectionRecord :=
  mkDetection "data/raw/telegram_images/other/x.jpg"
    (example_digest [x02]%byte) None None
    "bottle" (70 # 100) (2 # 1) (2 # 1) (8 # 1) (8 # 1).

Definition example_table : list DetectionRecord :=
  [row_1001; row_person; row_mask; row_unknown].

Definition with_core (x : Session) (c : State) : Session :=
  mkSession (db_conn x) (model_loaded x) c (journal x).

(** [SELECT COUNT( * ) ... WHERE detected_object_class = k] *)
Definition count_class (k : string) (table : list DetectionRecord) : nat :=
  List.length
    (filter (fun d => String.eqb (detected_object_class d) k) table).

(** [SELECT COUNT( * ) ... WHERE channel_name = c] *)
Definition count_channel (c : string) (table : list DetectionRecord) : nat :=
  List.length
    (filter (fun d => match channel_name d with
                      | Some c' => String.eqb c' c
                      | None => false
                      end) table).

(** [SELECT COUNT( * ) ... WHERE channel_name IS NOT NULL] *)
Definition count_with_channel (table : list DetectionRecord) : nat :=
  List.length
    (filter (fun d => match channel_name d with
                      | Some _ => true
                      | None => false
                      end) table).

(** A detector whose answer for every image has one box of a class its
    names do not list. *)
Definition nameless_yolo (path : string) (threshold : Q)
  : option (list YoloResult) :=
  Some [ mkResult
           (Some [ mkBox 39 (92 # 100) (10 # 1, 10 # 1, 50 # 1, 50 # 1);
                   mkBox 7 (80 # 100) (1 # 1, 1 # 1, 2 # 1, 2 # 1) ])
           example_names ].

Definition nameless_world : World :=
  mkWorld example_files (Listing example_entries) example_messages
          nameless_yolo (fun _ => false).

(** The example corpus with a readable [img_gone]: three bytes in which
    the detector finds nothing. *)
Definition bytes_gone : list byte := [x47; x49; x46]%byte.

Definition restored_files (path : string) : option (list byte) :=
  if String.eqb path (str img_gone) then Some bytes_gone
  else example_files path.

Definition restored_world : World :=
  mkWorld restored_files (Listing example_entries) example_messages
          example_yolo (fun _ => false).

(** A failure strikes at the third round trip from now, and only there. *)
Definition late_fault_world : World := example_world (fun n => Nat.eqb n 2).

(** A processor that has connected and loaded its model, in front of the
    example table. *)
Definition connected_session : Session :=
  mkSession Connected true (mkState example_table 0 [] [] false)
            [InfoTableReady; InfoModelLoaded; InfoLoadingModel; InfoConnected].

(** The row [process_image] builds for [img_1001] when the correlator
    answers neither channel nor message identifier. *)
Definition row_orphan : DetectionRecord :=
  mkDetection (str img_1001) (example_digest bytes_1001) None None
    "bottle" (92 # 100) (10 # 1) (10 # 1) (50 # 1) (50 # 1).

(** ** The processor *)

Section Processor.

(** [hashlib.md5(data).hexdigest()]: 32 hexadecimal characters. *)
Variable md5_hexdigest : list byte -> string.
Hypothesis md5_hexdigest_length :
  forall data, String.length (md5_hexdigest data) = 32%nat.

Variable w : World.

(** Does the next statement on [self.db_conn] raise?  Inside a failed
    transaction every statement does; otherwise the oracle decides. *)
Definition refused (s : State) : bool :=
  aborted s || db_fault w (db_calls s).

(** One statement on [self.db_conn] (the cursor is opened and
    [cur.execute] is called): when it raises, the transaction has failed. *)
Definition execute : M unit :=
  fun s =>
    if refused s then (Raise DatabaseError, failed (ticked s))
    else (Ok tt, ticked s).

Definition get_image_hash (p : Path) : M string :=
  try_except
    (match read_file w (str p) with
     | Some data => ret (md5_hexdigest data)
     | None => raise OSError
     end)
    (fun e => logger (ErrHash (str p) e) ;; ret "").

(** [SELECT COUNT( * ) ... WHERE image_hash = %s] *)
Definition count_hash (h : string) (l : list DetectionRecord) : nat :=
  List.length (filter (fun d => String.eqb (image_hash d) h) l).

Definition is_image_processed (h : string) : M bool :=
  try_except
    (execute ;;
     l <- rows ;;
     ret (0 <? count_hash h l)%nat)
    (fun e => logger (ErrCheck e) ;; ret false).

(** The [for part in path_parts] loop with its [break]. *)
Fixpoint scan_parts (path_parts : list string) : option string :=
  match path_parts with
  | [] => None
  | part :: rest =>
      if mem_string part known_channels then Some part else scan_parts rest
  end.

(** [SELECT id FROM raw.telegram_messages WHERE id = %s AND channel = %s],
    then [fetchone()]: is there a row? *)
Definition message_row (mid : Z) (channel : string) : bool :=
  existsb (fun r => Z.eqb (fst r) mid && String.eqb (snd r) channel)
          (telegram_messages w).

Definition get_message_id_for_image (p : Path)
  : M (option Z * option string) :=
  try_except
    (match scan_parts p with
     | None => ret (None, None)
     | Some channel =>
         match re_search_digits (stem p) with
         | Some digits =>
             let potential_message_id := int digits in
             execute ;;
             if message_row potential_message_id channel
             then ret (Some potential_message_id, Some channel)
             else ret (None, Some channel)
         | None => ret (None, Some channel)
         end
     end)
    (fun e => logger (ErrMessageId (str p) e) ;; ret (None, None)).

(** The inner [for box in boxes] loop: one record per box; a class id
    missing from [result.names] raises. *)
Fixpoint for_boxes (p : Path) (h : string) (mid : option Z)
    (channel : option string) (result : YoloResult) (bs : list Box)
    (detections : list DetectionRecord) : Result (list DetectionRecord) :=
  match bs with
  | [] => Ok detections
  | box :: rest =>
      match names result (cls box) with
      | None => Raise KeyError
      | Some label =>
          let '(x1, y1, x2, y2) := xyxy box in
          for_boxes p h mid channel result rest
            (detections ++
             [mkDetection (str p) h mid channel label (conf box) x1 y1 x2 y2])
      end
  end.

(** The outer [for result in results] loop. *)
Fixpoint for_results (p : Path) (h : string) (mid : option Z)
    (channel : option string) (results : list YoloResult)
    (detections : list DetectionRecord) : Result (list DetectionRecord) :=
  match results with
  | [] => Ok detections
  | result :: rest =>
      match boxes result with
      | Some bs =>
          match for_boxes p h mid channel result bs detections with
          | Ok detections' => for_results p h mid channel rest detections'
          | Raise e => Raise e
          end
      | None => for_results p h mid channel rest detections
      end
  end.

(** [self.yolo_model(str(image_path), conf=CONFIDENCE_THRESHOLD)] *)
Definition run_yolo (path : string) (threshold : Q) : M (list YoloResult) :=
  logger (Inference path threshold) ;;
  match yolo_model w path threshold with
  | Some results => ret results
  | None => raise ModelError
  end.

Definition lift {A : Type} (r : Result A) : M A := fun s => (r, s).

Definition process_image (p : Path) : M (list DetectionRecord) :=
  try_except
    (h <- get_image_hash p ;;
     if String.eqb h "" then ret []
     else
       processed <- is_image_processed h ;;
       if processed then logger (InfoSkipping (name p)) ;; ret []
       else
         assoc <- get_message_id_for_image p ;;
         results <- run_yolo (str p) CONFIDENCE_THRESHOLD ;;
         detections <- lift (for_results p h (fst assoc) (snd assoc) results []) ;;
         logger (InfoFound (List.length detections) (name p)) ;;
         ret detections)
    (fun e => logger (ErrProcessImage (str p) e) ;; ret []).

(** The [for detection in detections: cur.execute(insert_sql, ...)] loop:
    each row that goes through is pending in the open transaction. *)
Fixpoint execute_inserts (detections : list DetectionRecord) : M unit :=
  match detections with
  | [] => ret tt
  | detection :: rest =>
      execute ;; insert_row detection ;; execute_inserts rest
  end.

(** [self.db_conn.commit()]: the pending rows reach the table.  When the
    call raises nothing is committed and the transaction has failed.  The
    server answers the commit of a failed transaction by rolling it back;
    no path of the pipeline gets there, a failed statement raises past the
    commit. *)
Definition commit : M unit :=
  fun s =>
    if db_fault w (db_calls s) then (Raise DatabaseError, failed (ticked s))
    else if aborted s then (Ok tt, rolled_back (ticked s))
    else (Ok tt, committed (ticked s)).

(** [self.db_conn.rollback()]: the pending rows are dropped and the
    connection takes statements again; when the call itself raises nothing
    has changed. *)
Definition rollback : M unit :=
  fun s =>
    if db_fault w (db_calls s) then (Raise DatabaseError, ticked s)
    else (Ok tt, rolled_back (ticked s)).

Definition save_detections (detections : list DetectionRecord) : M unit :=
  match detections with
  | [] => ret tt
  | _ :: _ =>
      try_except
        (execute_inserts detections ;;
         commit ;;
         logger (InfoSaved (List.length detections)))
        (fun e => logger (ErrSave e) ;; rollback)
  end.

Definition is_image (entry : Path * bool) : bool :=
  snd entry && mem_string (lower (suffix (fst entry))) IMAGE_EXTENSIONS.

Definition find_images : M (list Path) :=
  match images_dir w with
  | Missing => logger WarnDirNotFound ;; ret []
  | Unreadable => raise OSError
  | Listing entries =>
      let images := map fst (filter is_image entries) in
      logger (InfoFoundImages (List.length images)) ;;
      ret images
  end.

(** The body of the [for image_path in images] loop, with its two
    counters [(processed_count, total_detections)]. *)
Definition process_one (p : Path) (counts : nat * nat) : M (nat * nat) :=
  try_except
    (detections <- process_image p ;;
     match detections with
     | [] => ret counts
     | _ :: _ =>
         save_detections detections ;;
         ret (S (fst counts), (snd counts + List.length detections)%nat)
     end)
    (fun e => logger (ErrProcessing (str p) e) ;; ret counts).

Fixpoint for_images (images : list Path) (counts : nat * nat)
  : M (nat * nat) :=
  match images with
  | [] => ret counts
  | p :: rest => counts' <- process_one p counts ;; for_images rest counts'
  end.

Definition process_all_images : M unit :=
  images <- find_images ;;
  match images with
  | [] => logger InfoNoImages
  | _ :: _ =>
      counts <- for_images images (0%nat, 0%nat) ;;
      logger (InfoComplete (fst counts) (List.length images) (snd counts))
  end.

(** ** Vocabulary of the statements *)

(** Everything the detector returned, result by result. *)
Definition all_boxes (results : list YoloResult) : list Box :=
  flat_map (fun r => match boxes r with Some bs => bs | None => [] end) results.

(** The events a step added on top of the trace it started from. *)
Definition emitted (s s' : State) (ev : list Event) : Prop :=
  trace s' = ev ++ trace s.

(** What every record built for image [p] carries. *)
Definition built_for (p : Path) (h : string) (assoc : option Z * option string)
    (d : DetectionRecord) : Prop :=
  image_path d = str p /\ image_hash d = h /\
  message_id d = fst assoc /\ channel_name d = snd assoc.

(** The outcome of the inference stage, once the association is known and
    the call of the detector is on the trace. *)
Definition detect_outcome (p : Path) (h : string)
    (assoc : option Z * option string) (s : State)
  : Result (list DetectionRecord) * State :=
  match yolo_model w (str p) CONFIDENCE_THRESHOLD with
  | None => (Ok [], logged (ErrProcessImage (str p) ModelError) s)
  | Some results =>
      match for_results p h (fst assoc) (snd assoc) results [] with
      | Ok ds => (Ok ds, logged (InfoFound (List.length ds) (name p)) s)
      | Raise e => (Ok [], logged (ErrProcessImage (str p) e) s)
      end
  end.

(** An association the message store vouches for. *)
Definition verified (assoc : option Z * option string) : Prop :=
  match fst assoc with
  | None => True
  | Some mid =>
      exists channel,
        snd assoc = Some channel /\ In (mid, channel) (telegram_messages w)
  end.

(** The three ways the orchestrator can deal with an image: a logged read
    failure, a logged skip, or a call of the detector. *)
Definition handled (p : Path) (ev : list Event) : Prop :=
  In (ErrHash (str p) OSError) ev \/
  In (InfoSkipping (name p)) ev \/
  In (Inference (str p) CONFIDENCE_THRESHOLD) ev.

(** The state after [n] more round trips that changed nothing else. *)
Definition ticks (n : nat) (s : State) : State :=
  mkState (image_detections s) (n + db_calls s) (trace s) (pending s)
          (aborted s).

(** Rows that come from a detector answer for image [p]. *)
Definition produced (p : Path) (ds : list DetectionRecord) : Prop :=
  exists data assoc results,
    read_file w (str p) = Some data /\
    verified assoc /\
    yolo_model w (str p) CONFIDENCE_THRESHOLD = Some results /\
    for_results p (md5_hexdigest data) (fst assoc) (snd assoc) results []
    = Ok ds.

(** The images [find_images] returns for a listing. *)
Definition images_of (entries : list (Path * bool)) : list Path :=
  map fst (filter is_image entries).

(** The correlation invariant of one row. *)
Definition correlated (d : DetectionRecord) : Prop :=
  match message_id d with
  | None => True
  | Some mid =>
      exists channel,
        channel_name d = Some channel /\
        In (mid, channel) (telegram_messages w)
  end.

(** The detector's side of the contract: no box below the threshold it was
    called with. *)
Definition honours_threshold : Prop :=
  forall path threshold results b,
    yolo_model w path threshold = Some results ->
    In b (all_boxes results) ->
    (threshold <= conf b)%Q.

Definition above_threshold (d : DetectionRecord) : Prop :=
  (CONFIDENCE_THRESHOLD <= confidence_score d)%Q.

(** The dedup gate as the specification words it, for image [p] met in
    state [s]: a fingerprint with a row keeps the image from the detector. *)
Definition detector_never_sees_known_fingerprint (p : Path) (s : State)
  : Prop :=
  forall data,
    read_file w (str p) = Some data ->
    (0 < count_hash (md5_hexdigest data) (image_detections s))%nat ->
    forall ev,
      emitted s (snd (process_image p s)) ev ->
      ~ In (Inference (str p) CONFIDENCE_THRESHOLD) ev.

(** Zero detections as the specification words the claim, for image [p]
    met in state [s]: afterwards the dedup check finds the fingerprint. *)
Definition zero_detection_image_is_marked (p : Path) (counts : nat * nat)
    (s : State) : Prop :=
  forall data results,
    read_file w (str p) = Some data ->
    yolo_model w (str p) CONFIDENCE_THRESHOLD = Some results ->
    all_boxes results = [] ->
    fst (is_image_processed (md5_hexdigest data)
           (snd (process_one p counts s))) = Ok true.

(** ** Runs without database faults *)

(** No failure strikes at any round trip: on a connection whose
    transaction has not failed before, no round trip raises. *)
Definition no_db_faults : Prop := forall n, db_fault w n = false.

(** The images of the corpus, as [find_images] returns them. *)
Definition corpus : list Path :=
  match images_dir w with
  | Listing entries => images_of entries
  | _ => []
  end.

(** The correlator's answer when its query goes through. *)
Definition association (p : Path) : option Z * option string :=
  match scan_parts p with
  | None => (None, None)
  | Some channel =>
      match re_search_digits (stem p) with
      | None => (None, Some channel)
      | Some digits =>
          if message_row (int digits) channel
          then (Some (int digits), Some channel)
          else (None, Some channel)
      end
  end.

(** The rows [process_image] returns for a readable image with
    fingerprint [h] that is not skipped, when no round trip raises. *)
Definition detections_of (p : Path) (h : string) : list DetectionRecord :=
  match yolo_model w (str p) CONFIDENCE_THRESHOLD with
  | None => []
  | Some results =>
      match for_results p h (fst (association p)) (snd (association p))
              results [] with
      | Ok ds => ds
      | Raise _ => []
      end
  end.

(** What one pass of the loop body does to the table when no round trip
    raises. *)
Definition store_step (p : Path) (store : list DetectionRecord)
  : list DetectionRecord :=
  match read_file w (str p) with
  | None => store
  | Some data =>
      if (0 <? count_hash (md5_hexdigest data) store)%nat then store
      else store ++ detections_of p (md5_hexdigest data)
  end.

Definition store_run (images : list Path) (store : list DetectionRecord)
  : list DetectionRecord :=
  fold_left (fun st p => store_step p st) images store.

Definition settled (p : Path) (store : list DetectionRecord) : Prop :=
  store_step p store = store.

(** Idempotence as the specification words it, for a start state [s0]:
    the second run changes no row and skips every readable image of the
    corpus without calling the detector. *)
Definition second_run_skips_every_image (s0 : State) : Prop :=
  let s1 := snd (process_all_images s0) in
  let s2 := snd (process_all_images s1) in
  image_detections s2 = image_detections s1 /\
  forall ev,
    emitted s1 s2 ev ->
    forall p,
      In p corpus ->
      read_file w (str p) <> None ->
      In (InfoSkipping (name p)) ev /\
      ~ In (Inference (str p) CONFIDENCE_THRESHOLD) ev.

(** ** The correlator against its reference algorithm *)

(** Step 1 of the reference algorithm: the first path component that is in
    the known-channel set. *)
Definition first_known_channel (p : Path) : option string :=
  find (fun part => mem_string part known_channels) p.

Fixpoint skip_non_digits (s : string) : string :=
  match s with
  | EmptyString => EmptyString
  | String c s' => if is_digit c then s else skip_non_digits s'
  end.

Fixpoint leading_digits (s : string) : string :=
  match s with
  | EmptyString => EmptyString
  | String c s' =>
      if is_digit c then String c (leading_digits s') else EmptyString
  end.

(** Step 2: the first run of digits, read off where the first digit stands
    and as far as digits follow; later runs are never looked at. *)
Definition first_digit_run (s : string) : option string :=
  match leading_digits (skip_non_digits s) with
  | EmptyString => None
  | run => Some run
  end.

Definition row_eq_dec (x y : Z * string) : {x = y} + {x <> y}.
Proof.
  decide equality; [apply string_dec|apply Z.eq_dec].
Defined.

(** Step 3: the candidate is accepted only if the message store has a row
    with that identifier and that channel. *)
Definition reference_correlation (p : Path) : option Z * option string :=
  match first_known_channel p with
  | None => (None, None)
  | Some channel =>
      match first_digit_run (stem p) with
      | None => (None, Some channel)
      | Some run =>
          if in_dec row_eq_dec (int run, channel) (telegram_messages w)
          then (Some (int run), Some channel)
          else (None, Some channel)
      end
  end.

(** The claim as the specification words it, for path [p] in state [s]. *)
Definition correlator_is_reference (p : Path) (s : State) : Prop :=
  fst (get_message_id_for_image p s) = Ok (reference_correlation p).

(** ** Rows against boxes *)

(** The boxes of a detector answer, each with the result it came in. *)
Definition boxes_with_names (results : list YoloResult)
  : list (YoloResult * Box) :=
  flat_map (fun r => match boxes r with
                     | Some bs => map (pair r) bs
                     | None => []
                     end) results.

(** Row [d] is box [snd rb] written down: the label is the name of its
    class in its result, score and corners are copied. *)
Definition row_matches_box (d : DetectionRecord) (rb : YoloResult * Box)
  : Prop :=
  names (fst rb) (cls (snd rb)) = Some (detected_object_class d) /\
  confidence_score d = conf (snd rb) /\
  (bbox_x1 d, bbox_y1 d, bbox_x2 d, bbox_y2 d) = xyxy (snd rb).

(** ** The script: set-up, summary and [main] *)

Variable host : Host.

(** The engine's [ORDER BY count DESC]. *)
Variable order_by_count : list (string * nat) -> list (string * nat).
Hypothesis order_by_count_permutes :
  forall l, Permutation l (order_by_count l).
Hypothesis order_by_count_sorts :
  forall l, Sorted by_count_desc (order_by_count l).

Definition connect_db : Script unit :=
  attempt
    (fun x =>
       if db_reachable host
       then note InfoConnected
              (mkSession Connected (model_loaded x) (core x) (journal x))
       else (Raise DatabaseError, x))
    (fun e => and_then (note (ErrConnection e)) (fun _ => fail e)).

Definition initialize_yolo : Script unit :=
  attempt
    (and_then (note InfoLoadingModel)
       (fun _ x =>
          if weights_loadable host
          then note InfoModelLoaded
                 (mkSession (db_conn x) true (core x) (journal x))
          else (Raise ModelError, x)))
    (fun e => and_then (note (ErrLoadModel e)) (fun _ => fail e)).

(** [CREATE TABLE IF NOT EXISTS] and the indexes, then the commit: two
    round trips that insert no row. *)
Definition create_detection_table : Script unit :=
  attempt
    (and_then (on_core (execute ;; commit))
       (fun _ => note InfoTableReady))
    (fun e => and_then (note (ErrCreateTable e)) (fun _ => fail e)).

(** The second query of the summary: classes by count, the first ten. *)
Definition top_objects (table : list DetectionRecord)
  : list (string * nat) :=
  firstn 10 (order_by_count (group_count (classes_of table))).

(** The third query: rows per channel, rows without a channel left out. *)
Definition by_channel (table : list DetectionRecord)
  : list (string * nat) :=
  order_by_count (group_count (channels_of table)).

Definition get_detection_summary : Script unit :=
  attempt
    (and_then
       (on_core
          (execute ;;
           l1 <- rows ;;
           execute ;;
           l2 <- rows ;;
           execute ;;
           l3 <- rows ;;
           ret (List.length l1, top_objects l2, by_channel l3)))
       (fun r => note (InfoSummary (fst (fst r)) (snd (fst r)) (snd r))))
    (fun e => note (ErrSummary e)).

Definition close : Script unit :=
  fun x =>
    match db_conn x with
    | NoConnection => (Ok tt, x)
    | _ =>
        note InfoClosed
          (mkSession ClosedConnection (model_loaded x) (core x) (journal x))
    end.

(** The [try] block of [main]. *)
Definition main_steps : Script unit :=
  and_then connect_db (fun _ =>
  and_then initialize_yolo (fun _ =>
  and_then create_detection_table (fun _ =>
  and_then (on_core process_all_images) (fun _ =>
  get_detection_summary)))).

(** [main()]: the exit code and the processor it leaves behind. *)
Definition main (table : list DetectionRecord) : Z * Session :=
  match main_steps (new_processor table) with
  | (Ok _, x) => (0%Z, snd (close x))
  | (Raise e, x) => (1%Z, snd (close (noted (ErrMain e) x)))
  end.

(** ** What a run reports *)

(** A failed save as the specification words its report, for image [p] met
    in state [s] with the counters at [counts]: an image whose save failed
    is not counted as processed. *)
Definition failed_save_is_reported (p : Path) (counts : nat * nat)
    (s : State) : Prop :=
  forall ev,
    emitted s (snd (process_one p counts s)) ev ->
    In (ErrSave DatabaseError) ev ->
    fst (process_one p counts s) = Ok counts.

Definition is_read_failure (e : Event) : bool :=
  match e with
  | ErrHash _ _ => true
  | _ => false
  end.

(** How many images of a run could not be read. *)
Definition read_failures (ev : list Event) : nat :=
  List.length (filter is_read_failure ev).

(** The counts of the closing line: images processed, images found, total
    of detections. *)
Definition closing_line (s : State) : option (nat * nat * nat) :=
  match trace s with
  | InfoComplete processed_count n_images total_detections :: _ =>
      Some (processed_count, n_images, total_detections)
  | _ => None
  end.

(** The failure count as the specification words it, for a run from [s]:
    the number of images that could not be read is told by the counts the
    run reports, read by [failure_count]. *)
Definition failures_are_counted (failure_count : nat * nat * nat -> nat)
    (s : State) : Prop :=
  forall c ev,
    closing_line (snd (process_all_images s)) = Some c ->
    emitted s (snd (process_all_images s)) ev ->
    failure_count c = read_failures ev.

(** The duplicates as the claim words them, for image [p] met in state
    [s]: when the lookup of the dedup check raises and the detector finds
    something, the fingerprint has more rows afterwards than before. *)
Definition failed_check_persists_duplicates (p : Path) (counts : nat * nat)
    (s : State) : Prop :=
  forall data ds,
    read_file w (str p) = Some data ->
    refused s = true ->
    fst (process_image p s) = Ok ds ->
    ds <> [] ->
    (count_hash (md5_hexdigest data) (image_detections s) <
     count_hash (md5_hexdigest data)
       (image_detections (snd (process_one p counts s))))%nat.

(** ** Calls of the detector on a trace *)

Definition is_inference (e : Event) : bool :=
  match e with
  | Inference _ _ => true
  | _ => false
  end.

(** How many calls of the detector a list of events holds. *)
Definition inferences (ev : list Event) : nat :=
  List.length (filter is_inference ev).

Definition is_inference_on (path : string) (e : Event) : bool :=
  match e with
  | Inference q _ => String.eqb q path
  | _ => false
  end.

(** How many of them were made on the path string [path]. *)
Definition calls_on (path : string) (ev : list Event) : nat :=
  List.length (filter (is_inference_on path) ev).

(** How many of the images have the path string [path]. *)
Definition images_at (path : string) (images : list Path) : nat :=
  List.length (filter (fun p => String.eqb (str p) path) images).

(** * Proofs *)

Ltac unfold_proc :=
  unfold try_except, bind, ret, raise, logger, rows, insert_row, lift,
    execute in *.

(** ** Equations of the leaves *)

Lemma md5_hexdigest_nonempty :
  forall data, String.eqb (md5_hexdigest data) "" = false.
Proof.
  intro data. apply String.eqb_neq. intro E.
  pose proof (md5_hexdigest_length data) as L. rewrite E in L. discriminate L.
Qed.

Lemma get_image_hash_readable :
  forall p data s,
    read_file w (str p) = Some data ->
    get_image_hash p s = (Ok (md5_hexdigest data), s).
Proof.
  intros p data s H. unfold get_image_hash. unfold_proc. now rewrite H.
Qed.

Lemma get_image_hash_unreadable :
  forall p s,
    read_file w (str p) = None ->
    get_image_hash p s = (Ok "", logged (ErrHash (str p) OSError) s).
Proof.
  intros p s H. unfold get_image_hash. unfold_proc. now rewrite H.
Qed.

Lemma is_image_processed_ok :
  forall h s,
    refused s = false ->
    is_image_processed h s =
    (Ok (0 <? count_hash h (image_detections s))%nat, ticked s).
Proof.
  intros h s H. unfold is_image_processed. unfold_proc. now rewrite H.
Qed.

Lemma is_image_processed_fault :
  forall h s,
    refused s = true ->
    is_image_processed h s =
    (Ok false, logged (ErrCheck DatabaseError) (failed (ticked s))).
Proof.
  intros h s H. unfold is_image_processed. unfold_proc. now rewrite H.
Qed.

(** The dedup check never raises, never writes, and adds at most its own
    error line. *)
Lemma is_image_processed_frame :
  forall h s,
    exists b ev,
      fst (is_image_processed h s) = Ok b /\
      image_detections (snd (is_image_processed h s)) = image_detections s /\
      emitted s (snd (is_image_processed h s)) ev /\
      (forall e, In e ev -> e = ErrCheck DatabaseError).
Proof.
  intros h s. destruct (refused s) eqn:F.
  - rewrite (is_image_processed_fault h s F).
    exists false, [ErrCheck DatabaseError]. simpl. repeat split; auto.
    intros e [<- | []]. reflexivity.
  - rewrite (is_image_processed_ok h s F).
    eexists; exists []. simpl. repeat split; auto. intros e [].
Qed.

(** The correlator in closed form: at most one round trip, made only when a
    channel and a digit run were found. *)
Lemma get_message_id_for_image_eq :
  forall p s,
    get_message_id_for_image p s =
    match scan_parts p with
    | None => (Ok (None, None), s)
    | Some channel =>
        match re_search_digits (stem p) with
        | None => (Ok (None, Some channel), s)
        | Some digits =>
            if refused s
            then (Ok (None, None),
                  logged (ErrMessageId (str p) DatabaseError)
                         (failed (ticked s)))
            else (Ok (if message_row (int digits) channel
                      then (Some (int digits), Some channel)
                      else (None, Some channel)),
                  ticked s)
        end
    end.
Proof.
  intros p s. unfold get_message_id_for_image. unfold_proc.
  destruct (scan_parts p) as [channel|]; [|reflexivity].
  destruct (re_search_digits (stem p)) as [digits|]; [|reflexivity].
  destruct (refused s); [reflexivity|].
  destruct (message_row (int digits) channel); reflexivity.
Qed.

Lemma get_message_id_for_image_frame :
  forall p s,
    exists assoc ev,
      fst (get_message_id_for_image p s) = Ok assoc /\
      image_detections (snd (get_message_id_for_image p s)) =
      image_detections s /\
      emitted s (snd (get_message_id_for_image p s)) ev /\
      (forall e, In e ev -> e = ErrMessageId (str p) DatabaseError).
Proof.
  intros p s. rewrite get_message_id_for_image_eq.
  destruct (scan_parts p) as [channel|].
  2:{ eexists; exists []; simpl; repeat split; auto; intros e []. }
  destruct (re_search_digits (stem p)) as [digits|].
  2:{ eexists; exists []; simpl; repeat split; auto; intros e []. }
  destruct (refused s).
  - eexists; exists [ErrMessageId (str p) DatabaseError]; simpl.
    repeat split; auto. intros e [<- | []]. reflexivity.
  - eexists; exists []; simpl; repeat split; auto; intros e [].
Qed.

(** ** The record-building loops *)

Lemma for_boxes_ok :
  forall p h mid channel result bs acc ds,
    for_boxes p h mid channel result bs acc = Ok ds ->
    exists built,
      ds = acc ++ built /\
      map confidence_score built = map conf bs /\
      Forall (built_for p h (mid, channel)) built.
Proof.
  intros p h mid channel result bs.
  induction bs as [|box rest IH]; intros acc ds H; simpl in H.
  - inversion H; subst. exists []. rewrite app_nil_r. repeat split; constructor.
  - destruct (names result (cls box)) as [label|]; [|discriminate].
    destruct (xyxy box) as [[[x1 y1] x2] y2].
    apply IH in H. destruct H as (built & -> & Hc & Hb).
    eexists (_ :: built). rewrite <- app_assoc. simpl. split; [reflexivity|].
    split; [now rewrite Hc|]. constructor; [|exact Hb].
    repeat split.
Qed.

Lemma for_results_ok :
  forall p h mid channel results acc ds,
    for_results p h mid channel results acc = Ok ds ->
    exists built,
      ds = acc ++ built /\
      map confidence_score built = map conf (all_boxes results) /\
      Forall (built_for p h (mid, channel)) built.
Proof.
  intros p h mid channel results.
  induction results as [|result rest IH]; intros acc ds H; simpl in H.
  - inversion H; subst. exists []. rewrite app_nil_r. repeat split; constructor.
  - destruct (boxes result) as [bs|] eqn:B.
    + destruct (for_boxes p h mid channel result bs acc) as [ds1|e] eqn:F;
        [|discriminate].
      apply for_boxes_ok in F. destruct F as (b1 & -> & Hc1 & Hb1).
      apply IH in H. destruct H as (b2 & -> & Hc2 & Hb2).
      exists (b1 ++ b2). rewrite app_assoc. split; [reflexivity|].
      split.
      * unfold all_boxes in *. simpl. rewrite B, !map_app. congruence.
      * apply Forall_app. split; assumption.
    + apply IH in H. destruct H as (b2 & -> & Hc2 & Hb2).
      exists b2. split; [reflexivity|]. split; [|exact Hb2].
      unfold all_boxes in *. simpl. now rewrite B.
Qed.

(** ** One image *)

Lemma process_image_unreadable :
  forall p s,
    read_file w (str p) = None ->
    process_image p s = (Ok [], logged (ErrHash (str p) OSError) s).
Proof.
  intros p s H. unfold process_image.
  unfold try_except at 1. unfold bind at 1.
  rewrite (get_image_hash_unreadable p s H). reflexivity.
Qed.

Lemma process_image_skipped :
  forall p data s,
    read_file w (str p) = Some data ->
    fst (is_image_processed (md5_hexdigest data) s) = Ok true ->
    process_image p s =
    (Ok [], logged (InfoSkipping (name p))
                   (snd (is_image_processed (md5_hexdigest data) s))).
Proof.
  intros p data s H C. unfold process_image.
  unfold try_except at 1. unfold bind at 1.
  rewrite (get_image_hash_readable p data s H), md5_hexdigest_nonempty.
  unfold bind at 1.
  destruct (is_image_processed (md5_hexdigest data) s) as [r s1].
  simpl in C. subst r. reflexivity.
Qed.

Lemma process_image_inferred :
  forall p data s,
    read_file w (str p) = Some data ->
    fst (is_image_processed (md5_hexdigest data) s) = Ok false ->
    exists assoc,
      let s1 := snd (is_image_processed (md5_hexdigest data) s) in
      fst (get_message_id_for_image p s1) = Ok assoc /\
      process_image p s =
      detect_outcome p (md5_hexdigest data) assoc
        (logged (Inference (str p) CONFIDENCE_THRESHOLD)
                (snd (get_message_id_for_image p s1))).
Proof.
  intros p data s H C.
  destruct (get_message_id_for_image_frame p
              (snd (is_image_processed (md5_hexdigest data) s)))
    as (assoc & ev & HA & _).
  exists assoc. simpl. split; [exact HA|].
  unfold process_image.
  unfold try_except at 1. unfold bind at 1.
  rewrite (get_image_hash_readable p data s H), md5_hexdigest_nonempty.
  unfold bind at 1.
  destruct (is_image_processed (md5_hexdigest data) s) as [r s1].
  simpl in *. subst r. unfold bind at 1.
  destruct (get_message_id_for_image p s1) as [r2 s2]. simpl in *. subst r2.
  unfold detect_outcome, run_yolo. unfold_proc.
  destruct (yolo_model w (str p) CONFIDENCE_THRESHOLD) as [results|];
    [|reflexivity].
  destruct (for_results p (md5_hexdigest data) (fst assoc) (snd assoc)
              results []); reflexivity.
Qed.

Lemma message_row_In :
  forall mid channel,
    message_row mid channel = true <-> In (mid, channel) (telegram_messages w).
Proof.
  intros mid channel. unfold message_row. rewrite existsb_exists. split.
  - intros ([i c] & HI & HE). simpl in HE.
    apply andb_true_iff in HE. destruct HE as [E1 E2].
    apply Z.eqb_eq in E1. apply String.eqb_eq in E2. now subst.
  - intros HI. exists (mid, channel). split; [exact HI|]. simpl.
    now rewrite Z.eqb_refl, String.eqb_refl.
Qed.

Lemma get_message_id_for_image_verified :
  forall p s assoc,
    fst (get_message_id_for_image p s) = Ok assoc -> verified assoc.
Proof.
  intros p s assoc. rewrite get_message_id_for_image_eq.
  destruct (scan_parts p) as [channel|].
  2:{ simpl. intros H. inversion H. exact I. }
  destruct (re_search_digits (stem p)) as [digits|].
  2:{ simpl. intros H. inversion H. exact I. }
  destruct (refused s).
  - simpl. intros H. inversion H. exact I.
  - destruct (message_row (int digits) channel) eqn:R; simpl; intros H;
      inversion H; unfold verified; simpl; [|exact I].
    exists channel. split; [reflexivity|]. now apply message_row_In.
Qed.

(** What [process_image] does, whatever the world does to it: it returns
    normally, leaves the table alone, and either returns nothing or returns
    the records built from a detector answer. *)
Lemma process_image_result :
  forall p s,
    exists ds ev,
      fst (process_image p s) = Ok ds /\
      image_detections (snd (process_image p s)) = image_detections s /\
      emitted s (snd (process_image p s)) ev /\
      handled p ev /\
      (ds = [] \/
       exists data assoc results,
         read_file w (str p) = Some data /\
         verified assoc /\
         yolo_model w (str p) CONFIDENCE_THRESHOLD = Some results /\
         for_results p (md5_hexdigest data) (fst assoc) (snd assoc) results []
         = Ok ds).
Proof.
  intros p s. destruct (read_file w (str p)) as [data|] eqn:R.
  2:{ rewrite (process_image_unreadable p s R).
      exists [], [ErrHash (str p) OSError]. simpl.
      repeat split; auto. left. now left. }
  destruct (is_image_processed_frame (md5_hexdigest data) s)
    as (b & ev1 & HB & HS1 & HE1 & _).
  destruct b.
  - rewrite (process_image_skipped p data s R HB).
    exists [], (InfoSkipping (name p) :: ev1). simpl.
    split; [reflexivity|]. split; [exact HS1|].
    split; [unfold emitted in *; simpl; now rewrite HE1|].
    split; [right; left; now left|now left].
  - destruct (process_image_inferred p data s R HB) as (assoc & HA & HP).
    simpl in HA, HP. rewrite HP. clear HP.
    pose proof (get_message_id_for_image_verified _ _ _ HA) as HV.
    destruct (get_message_id_for_image_frame p
                (snd (is_image_processed (md5_hexdigest data) s)))
      as (assoc' & ev2 & _ & HS2 & HE2 & _).
    set (s2 := snd (get_message_id_for_image p
                 (snd (is_image_processed (md5_hexdigest data) s)))) in *.
    assert (HT : forall e,
      trace (logged e (logged (Inference (str p) CONFIDENCE_THRESHOLD) s2)) =
      (e :: Inference (str p) CONFIDENCE_THRESHOLD :: ev2 ++ ev1) ++ trace s).
    { intro e. simpl. unfold emitted in *. rewrite HE2, HE1.
      now rewrite app_assoc. }
    assert (HH : forall e,
      handled p (e :: Inference (str p) CONFIDENCE_THRESHOLD :: ev2 ++ ev1)).
    { intro e. right. right. right. now left. }
    unfold detect_outcome.
    destruct (yolo_model w (str p) CONFIDENCE_THRESHOLD) as [results|] eqn:Y.
    2:{ eexists [], _. simpl. split; [reflexivity|].
        split; [congruence|]. split; [apply HT|]. split; [apply HH|now left]. }
    destruct (for_results p (md5_hexdigest data) (fst assoc) (snd assoc)
                results []) as [ds|e] eqn:FR.
    + exists ds. eexists. simpl. split; [reflexivity|].
      split; [congruence|]. split; [apply HT|]. split; [apply HH|].
      right. exists data, assoc, results. auto.
    + eexists [], _. simpl. split; [reflexivity|].
      split; [congruence|]. split; [apply HT|]. split; [apply HH|now left].
Qed.

(** ** Saving *)

Lemma execute_inserts_all_ok :
  forall ds s,
    aborted s = false ->
    (forall j, (j < List.length ds)%nat ->
               db_fault w (db_calls s + j) = false) ->
    execute_inserts ds s =
    (Ok tt, mkState (image_detections s) (List.length ds + db_calls s)
                    (trace s) (pending s ++ ds) false).
Proof.
  induction ds as [|d rest IH]; intros s HA H.
  - simpl. unfold ret. rewrite app_nil_r. destruct s; simpl in *.
    now subst.
  - cbn [execute_inserts]. unfold bind at 1. unfold execute, refused.
    rewrite HA. pose proof (H 0%nat ltac:(simpl; lia)) as H0.
    rewrite Nat.add_0_r in H0. rewrite H0. cbn [orb].
    unfold bind at 1. unfold insert_row.
    rewrite (IH (inserted d (ticked s))).
    + simpl. rewrite <- app_assoc. simpl. do 2 f_equal. lia.
    + exact HA.
    + intros j Hj. simpl. rewrite <- Nat.add_succ_r. apply H. simpl. lia.
Qed.

Lemma execute_inserts_first_fault :
  forall ds s k,
    (k < List.length ds)%nat ->
    aborted s = false ->
    (forall j, (j < k)%nat -> db_fault w (db_calls s + j) = false) ->
    db_fault w (db_calls s + k) = true ->
    execute_inserts ds s =
    (Raise DatabaseError,
     mkState (image_detections s) (S k + db_calls s) (trace s)
             (pending s ++ firstn k ds) true).
Proof.
  induction ds as [|d rest IH]; intros s k Hk HA HB HF; simpl in Hk; [lia|].
  cbn [execute_inserts]. unfold bind at 1. unfold execute, refused.
  rewrite HA. cbn [orb]. destruct k as [|k].
  - rewrite Nat.add_0_r in HF. rewrite HF. simpl. now rewrite app_nil_r.
  - pose proof (HB 0%nat ltac:(lia)) as H0. rewrite Nat.add_0_r in H0.
    rewrite H0. unfold bind at 1. unfold insert_row.
    rewrite (IH (inserted d (ticked s)) k).
    + simpl. rewrite <- app_assoc. simpl. do 2 f_equal. lia.
    + lia.
    + exact HA.
    + intros j Hj. simpl. rewrite <- Nat.add_succ_r. apply HB. lia.
    + simpl. rewrite <- Nat.add_succ_r. exact HF.
Qed.

(** Inside a failed transaction the first insert raises. *)
Lemma execute_inserts_aborted :
  forall d rest s,
    aborted s = true ->
    execute_inserts (d :: rest) s = (Raise DatabaseError, failed (ticked s)).
Proof.
  intros d rest s HA. cbn [execute_inserts]. unfold bind at 1.
  unfold execute, refused. now rewrite HA.
Qed.

(** All inserts and the commit went through: the pending rows are in the
    table and the connection is idle. *)
Lemma save_detections_committed :
  forall ds s,
    ds <> [] ->
    aborted s = false ->
    (forall k, (k <= List.length ds)%nat ->
               db_fault w (db_calls s + k) = false) ->
    save_detections ds s =
    (Ok tt, mkState (image_detections s ++ pending s ++ ds)
                    (S (List.length ds) + db_calls s)
                    (InfoSaved (List.length ds) :: trace s) [] false).
Proof.
  intros ds s HN HA HF. unfold save_detections.
  destruct ds as [|d rest] eqn:E; [contradiction|]. rewrite <- E in *.
  clear E. unfold try_except. unfold bind at 1.
  rewrite (execute_inserts_all_ok ds s HA) by (intros j Hj; apply HF; lia).
  unfold bind at 1. unfold commit. cbn [db_calls aborted].
  replace (List.length ds + db_calls s)%nat
    with (db_calls s + List.length ds)%nat by lia.
  rewrite (HF (List.length ds) (Nat.le_refl _)).
  unfold logger, committed, ticked, logged. simpl. do 2 f_equal. lia.
Qed.

(** A save on a working connection whose first raising round trip is its
    [k]-th (the commit when [k] is the number of rows): the rows inserted
    before it are pending, none is in the table, and what becomes of them
    hangs on the rollback, which is the round trip after it. *)
Lemma save_detections_first_fault :
  forall ds s k,
    ds <> [] ->
    (k <= List.length ds)%nat ->
    aborted s = false ->
    (forall j, (j < k)%nat -> db_fault w (db_calls s + j) = false) ->
    db_fault w (db_calls s + k) = true ->
    save_detections ds s =
    if db_fault w (db_calls s + k + 1)
    then (Raise DatabaseError,
          mkState (image_detections s) (db_calls s + k + 2)
                  (ErrSave DatabaseError :: trace s)
                  (pending s ++ firstn k ds) true)
    else (Ok tt,
          mkState (image_detections s) (db_calls s + k + 2)
                  (ErrSave DatabaseError :: trace s) [] false).
Proof.
  intros ds s k HN Hk HA HB HF. unfold save_detections.
  destruct ds as [|d rest] eqn:E; [contradiction|]. rewrite <- E in *.
  clear E. unfold try_except. unfold bind at 1.
  replace (db_calls s + k + 1)%nat with (S (k + db_calls s)) by lia.
  replace (db_calls s + k + 2)%nat with (S (S (k + db_calls s))) by lia.
  destruct (Nat.eq_dec k (List.length ds)) as [->|NE].
  - rewrite (execute_inserts_all_ok ds s HA HB).
    unfold bind at 1. unfold commit. cbn [db_calls aborted].
    replace (List.length ds + db_calls s)%nat
      with (db_calls s + List.length ds)%nat by lia.
    rewrite HF. unfold bind, logger, rollback. simpl.
    replace (db_calls s + List.length ds)%nat
      with (List.length ds + db_calls s)%nat by lia.
    rewrite firstn_all.
    destruct (db_fault w (S (List.length ds + db_calls s))); reflexivity.
  - rewrite (execute_inserts_first_fault ds s k ltac:(lia) HA HB HF).
    unfold bind, logger, rollback. simpl.
    destruct (db_fault w (S (k + db_calls s))); reflexivity.
Qed.

(** A save inside a failed transaction: the first insert raises, and the
    rollback decides. *)
Lemma save_detections_aborted :
  forall ds s,
    ds <> [] ->
    aborted s = true ->
    save_detections ds s =
    if db_fault w (S (db_calls s))
    then (Raise DatabaseError,
          mkState (image_detections s) (S (S (db_calls s)))
                  (ErrSave DatabaseError :: trace s) (pending s) true)
    else (Ok tt,
          mkState (image_detections s) (S (S (db_calls s)))
                  (ErrSave DatabaseError :: trace s) [] false).
Proof.
  intros ds s HN HA. unfold save_detections.
  destruct ds as [|d rest]; [contradiction|].
  unfold try_except. unfold bind at 1.
  rewrite (execute_inserts_aborted d rest s HA).
  unfold bind, logger, rollback. simpl.
  destruct (db_fault w (S (db_calls s))); reflexivity.
Qed.

Lemma first_fault_in_range :
  forall s n,
    (forall k, (k <= n)%nat -> db_fault w (db_calls s + k) = false) \/
    exists k,
      (k <= n)%nat /\
      (forall j, (j < k)%nat -> db_fault w (db_calls s + j) = false) /\
      db_fault w (db_calls s + k) = true.
Proof.
  intros s. induction n as [|n IH].
  - destruct (db_fault w (db_calls s + 0)) eqn:F.
    + right. exists 0%nat. repeat split; auto. intros j Hj. lia.
    + left. intros k Hk. assert (k = 0%nat) by lia. now subst k.
  - destruct IH as [IH|(k & Hk & HB & HF)].
    + destruct (db_fault w (db_calls s + S n)) eqn:F.
      * right. exists (S n). repeat split; auto. intros j Hj. apply IH. lia.
      * left. intros k Hk. destruct (Nat.eq_dec k (S n)) as [->|NE];
          [exact F|apply IH; lia].
    + right. exists k. repeat split; auto.
Qed.

(** The three ways a save of a non-empty list ends: committed, with an
    idle connection; rolled back, with an idle connection and the table as
    it was; or raising out of a failed rollback, the table as it was and
    the transaction still failed. *)
Lemma save_detections_cases :
  forall ds s,
    ds <> [] ->
    let r := fst (save_detections ds s) in
    let s' := snd (save_detections ds s) in
    (r = Ok tt /\ aborted s = false /\
     image_detections s' = image_detections s ++ pending s ++ ds /\
     idle s' /\
     trace s' = InfoSaved (List.length ds) :: trace s) \/
    (r = Ok tt /\ image_detections s' = image_detections s /\ idle s' /\
     trace s' = ErrSave DatabaseError :: trace s) \/
    (r = Raise DatabaseError /\ image_detections s' = image_detections s /\
     aborted s' = true /\
     trace s' = ErrSave DatabaseError :: trace s).
Proof.
  intros ds s HN. destruct (aborted s) eqn:HA.
  - rewrite (save_detections_aborted ds s HN HA).
    destruct (db_fault w (S (db_calls s))); simpl.
    + right. right. repeat split.
    + right. left. repeat split.
  - destruct (first_fault_in_range s (List.length ds))
      as [H|(k & Hk & HB & HF)].
    + rewrite (save_detections_committed ds s HN HA H). simpl.
      left. repeat split.
    + rewrite (save_detections_first_fault ds s k HN Hk HA HB HF).
      destruct (db_fault w (db_calls s + k + 1)); simpl.
      * right. right. repeat split.
      * right. left. repeat split.
Qed.

(** Saving either changes no row or appends what was pending and the given
    rows; it logs one line at most. *)
Lemma save_detections_frame :
  forall ds s,
    (image_detections (snd (save_detections ds s)) = image_detections s \/
     image_detections (snd (save_detections ds s)) =
     image_detections s ++ pending s ++ ds) /\
    exists ev,
      emitted s (snd (save_detections ds s)) ev /\
      (forall e, In e ev ->
                 e = InfoSaved (List.length ds) \/ e = ErrSave DatabaseError).
Proof.
  intros ds s. destruct ds as [|d rest] eqn:E.
  { simpl. split; [now left|]. exists []. split; [reflexivity|]. intros e []. }
  rewrite <- E. assert (HN : ds <> []) by (subst; discriminate). clear E.
  destruct (save_detections_cases ds s HN)
    as [(_ & _ & HT & _ & HE)|[(_ & HT & _ & HE)|(_ & HT & _ & HE)]].
  - split; [now right|]. exists [InfoSaved (List.length ds)].
    split; [exact HE|]. intros e [<- | []]. now left.
  - split; [now left|]. exists [ErrSave DatabaseError].
    split; [exact HE|]. intros e [<- | []]. now right.
  - split; [now left|]. exists [ErrSave DatabaseError].
    split; [exact HE|]. intros e [<- | []]. now right.
Qed.

(** A save leaves the connection as it is between two saves. *)
Lemma save_detections_between_saves :
  forall ds s,
    between_saves s -> between_saves (snd (save_detections ds s)).
Proof.
  intros ds s HW. destruct ds as [|d rest] eqn:E; [exact HW|].
  rewrite <- E. assert (HN : ds <> []) by (subst; discriminate). clear E.
  destruct (save_detections_cases ds s HN)
    as [(_ & _ & _ & [_ HI] & _)|[(_ & _ & [_ HI] & _)|(_ & _ & HA & _)]];
    intros H; [exact HI|exact HI|congruence].
Qed.

(** ** The connection across one image *)

Lemma is_image_processed_connection :
  forall h s,
    pending (snd (is_image_processed h s)) = pending s /\
    aborted (snd (is_image_processed h s)) = refused s.
Proof.
  intros h s. destruct (refused s) eqn:F.
  - rewrite (is_image_processed_fault h s F). split; reflexivity.
  - rewrite (is_image_processed_ok h s F). simpl. split; [reflexivity|].
    unfold refused in F. now apply orb_false_iff in F.
Qed.

Lemma get_message_id_for_image_connection :
  forall p s,
    pending (snd (get_message_id_for_image p s)) = pending s /\
    (aborted s = true ->
     aborted (snd (get_message_id_for_image p s)) = true).
Proof.
  intros p s. rewrite get_message_id_for_image_eq.
  destruct (scan_parts p); [|split; auto].
  destruct (re_search_digits (stem p)); [|split; auto].
  destruct (refused s); simpl; split; auto.
Qed.

Lemma detect_outcome_connection :
  forall p h assoc s,
    pending (snd (detect_outcome p h assoc s)) = pending s /\
    aborted (snd (detect_outcome p h assoc s)) = aborted s.
Proof.
  intros p h assoc s. unfold detect_outcome.
  destruct (yolo_model w (str p) CONFIDENCE_THRESHOLD) as [results|].
  - destruct (for_results p h (fst assoc) (snd assoc) results []);
      split; reflexivity.
  - split; reflexivity.
Qed.

(** [process_image] inserts nothing and rolls nothing back: what is
    pending stays pending, and a failed transaction stays failed. *)
Lemma process_image_connection :
  forall p s,
    pending (snd (process_image p s)) = pending s /\
    (aborted s = true -> aborted (snd (process_image p s)) = true).
Proof.
  intros p s. destruct (read_file w (str p)) as [data|] eqn:R.
  2:{ rewrite (process_image_unreadable p s R). split; auto. }
  destruct (is_image_processed_frame (md5_hexdigest data) s)
    as (b & ev1 & HB & _).
  destruct (is_image_processed_connection (md5_hexdigest data) s)
    as [HP1 HA1].
  assert (HM1 : aborted s = true ->
                aborted (snd (is_image_processed (md5_hexdigest data) s))
                = true).
  { intros H. rewrite HA1. unfold refused. now rewrite H. }
  destruct b.
  - rewrite (process_image_skipped p data s R HB). simpl. auto.
  - destruct (process_image_inferred p data s R HB) as (assoc & _ & HP).
    simpl in HP. rewrite HP. clear HP.
    set (s1 := snd (is_image_processed (md5_hexdigest data) s)) in *.
    destruct (get_message_id_for_image_connection p s1) as [HP2 HM2].
    match goal with |- context [detect_outcome ?a ?b ?c ?d] =>
      destruct (detect_outcome_connection a b c d) as [HP3 HA3] end.
    rewrite HP3, HA3. simpl. rewrite HP2, HP1. auto.
Qed.

Lemma process_image_between_saves :
  forall p s,
    between_saves s -> between_saves (snd (process_image p s)).
Proof.
  intros p s HW HA. destruct (process_image_connection p s) as [HP HM].
  rewrite HP. apply HW. destruct (aborted s); [|reflexivity].
  rewrite HM in HA by reflexivity. discriminate HA.
Qed.

(** Once the lookup of the dedup check has raised, the transaction is
    still failed when [process_image] returns. *)
Lemma process_image_failed_lookup :
  forall p data s,
    read_file w (str p) = Some data ->
    refused s = true ->
    aborted (snd (process_image p s)) = true.
Proof.
  intros p data s R F.
  pose proof (is_image_processed_fault (md5_hexdigest data) s F) as HC.
  assert (HB : fst (is_image_processed (md5_hexdigest data) s) = Ok false)
    by now rewrite HC.
  destruct (process_image_inferred p data s R HB) as (assoc & _ & HP).
  simpl in HP. rewrite HP, HC. clear HP. simpl.
  match goal with |- context [detect_outcome ?a ?b ?c ?d] =>
    destruct (detect_outcome_connection a b c d) as [_ HA3] end.
  rewrite HA3. simpl.
  now apply get_message_id_for_image_connection.
Qed.

(** ** The loop over the corpus *)

Lemma process_one_eq :
  forall p counts s,
    process_one p counts s =
    match process_image p s with
    | (Ok [], s1) => (Ok counts, s1)
    | (Ok ds, s1) =>
        match save_detections ds s1 with
        | (Ok _, s2) =>
            (Ok (S (fst counts), (snd counts + List.length ds)%nat), s2)
        | (Raise e, s2) => (Ok counts, logged (ErrProcessing (str p) e) s2)
        end
    | (Raise e, s1) => (Ok counts, logged (ErrProcessing (str p) e) s1)
    end.
Proof.
  intros p counts s. unfold process_one, try_except. unfold bind at 1.
  destruct (process_image p s) as [[[|d ds]|e] s1]; try reflexivity.
  unfold bind. destruct (save_detections (d :: ds) s1) as [[u|e] s2];
    reflexivity.
Qed.

(** One pass of the loop body, whatever fails: it returns normally and the
    image is dealt with; and met between two saves, it leaves the
    connection between two saves and adds to the table nothing or the
    rows of a detector answer for the image. *)
Lemma process_one_result :
  forall p counts s,
    exists counts' ev new,
      fst (process_one p counts s) = Ok counts' /\
      (between_saves s ->
       image_detections (snd (process_one p counts s)) =
       image_detections s ++ new /\
       between_saves (snd (process_one p counts s))) /\
      emitted s (snd (process_one p counts s)) ev /\
      handled p ev /\
      (new = [] \/ produced p new).
Proof.
  intros p counts s. rewrite process_one_eq.
  destruct (process_image_result p s) as (ds & ev & HR & HS & HE & HH & HP).
  pose proof (process_image_between_saves p s) as HW.
  destruct (process_image p s) as [r s1]. simpl in *. subst r.
  destruct ds as [|d ds'].
  { exists counts, ev, []. simpl. rewrite app_nil_r. auto. }
  set (ds := d :: ds') in *.
  destruct HP as [HP|HP]; [discriminate|].
  assert (HN : ds <> []) by discriminate.
  pose proof (save_detections_between_saves ds s1) as HW2.
  assert (HH' : forall e, handled p (e ++ ev)).
  { intro e. destruct HH as [H|[H|H]]; [left|right; left|right; right];
      apply in_or_app; now right. }
  unfold emitted in *.
  destruct (save_detections_cases ds s1 HN)
    as [(HO & HA & HT & _ & HL)|[(HO & HT & _ & HL)|(HO & HT & _ & HL)]];
    destruct (save_detections ds s1) as [r s2]; simpl in *; subst r.
  - eexists; exists ([InfoSaved (List.length ds)] ++ ev), ds.
    split; [reflexivity|]. split.
    + intros H. split; [|now apply HW2, HW].
      cbn [snd]. rewrite HT, HS, (HW H HA). reflexivity.
    + split; [cbn [snd]; rewrite HL, HE; reflexivity|]. auto.
  - eexists; exists ([ErrSave DatabaseError] ++ ev), [].
    split; [reflexivity|]. split.
    + intros H. split; [|now apply HW2, HW].
      cbn [snd]. now rewrite HT, HS, app_nil_r.
    + split; [cbn [snd]; rewrite HL, HE; reflexivity|]. auto.
  - exists counts,
      ([ErrProcessing (str p) DatabaseError; ErrSave DatabaseError] ++ ev), [].
    split; [reflexivity|]. split.
    + intros H. split; [cbn [snd logged image_detections];
                        now rewrite HT, HS, app_nil_r|].
      intros HA. cbn [snd logged aborted pending] in *.
      apply (HW2 (HW H)). exact HA.
    + split; [cbn [snd logged trace]; rewrite HL, HE; reflexivity|]. auto.
Qed.

Lemma for_images_result :
  forall images counts s,
    exists counts' ev new,
      fst (for_images images counts s) = Ok counts' /\
      (between_saves s ->
       image_detections (snd (for_images images counts s)) =
       image_detections s ++ new /\
       between_saves (snd (for_images images counts s))) /\
      emitted s (snd (for_images images counts s)) ev /\
      (forall p, In p images -> handled p ev) /\
      (forall d, In d new ->
                 exists p ds, In p images /\ produced p ds /\ In d ds).
Proof.
  induction images as [|p rest IH]; intros counts s; simpl.
  - exists counts, [], []. simpl. rewrite app_nil_r.
    repeat split; auto; intros ? [].
  - unfold bind.
    destruct (process_one_result p counts s)
      as (c1 & ev1 & new1 & HR1 & HS1 & HE1 & HH1 & HP1).
    destruct (process_one p counts s) as [r s1]. simpl in *. subst r.
    destruct (IH c1 s1) as (c2 & ev2 & new2 & HR2 & HS2 & HE2 & HH2 & HP2).
    exists c2, (ev2 ++ ev1), (new1 ++ new2).
    split; [exact HR2|]. split.
    { intros H. destruct (HS1 H) as [E1 W1]. destruct (HS2 W1) as [E2 W2].
      split; [now rewrite E2, E1, app_assoc|exact W2]. }
    unfold emitted in *. split; [now rewrite HE2, HE1, app_assoc|]. split.
    + intros q [<-|HI].
      * destruct HH1 as [H|[H|H]]; [left|right; left|right; right];
          apply in_or_app; now right.
      * destruct (HH2 q HI) as [H|[H|H]]; [left|right; left|right; right];
          apply in_or_app; now left.
    + intros d HI. apply in_app_or in HI. destruct HI as [HI|HI].
      * destruct HP1 as [->|HP1]; [destruct HI|].
        exists p, new1. auto.
      * destruct (HP2 d HI) as (q & ds & HQ & HD & HI').
        exists q, ds. auto.
Qed.

Lemma process_all_images_listing :
  forall entries s,
    images_dir w = Listing entries ->
    exists ev new,
      fst (process_all_images s) = Ok tt /\
      (between_saves s ->
       image_detections (snd (process_all_images s)) =
       image_detections s ++ new /\
       between_saves (snd (process_all_images s))) /\
      emitted s (snd (process_all_images s)) ev /\
      (forall p, In p (images_of entries) -> handled p ev) /\
      (forall d, In d new ->
         exists p ds, In p (images_of entries) /\ produced p ds /\ In d ds).
Proof.
  intros entries s HD. unfold process_all_images, find_images. rewrite HD.
  fold (images_of entries). unfold_proc.
  destruct (images_of entries) as [|p rest] eqn:E.
  { exists [InfoNoImages; InfoFoundImages 0], []. simpl. rewrite app_nil_r.
    split; [reflexivity|]. split; [auto|]. split; [reflexivity|].
    split; intros ? []. }
  rewrite <- E. clear E.
  destruct (for_images_result (images_of entries) (0%nat, 0%nat)
              (logged (InfoFoundImages (List.length (images_of entries))) s))
    as (c & ev & new & HR & HS & HE & HH & HP).
  destruct (for_images (images_of entries) (0%nat, 0%nat)
              (logged (InfoFoundImages (List.length (images_of entries))) s))
    as [r s1]. simpl in *. subst r. simpl.
  exists (InfoComplete (fst c) (List.length (images_of entries)) (snd c)
            :: ev ++ [InfoFoundImages (List.length (images_of entries))]), new.
  split; [reflexivity|]. split; [exact HS|]. unfold emitted in *.
  split; [simpl; rewrite HE, <- app_assoc; reflexivity|]. split; [|exact HP].
  intros q HI. destruct (HH q HI) as [H|[H|H]];
    [left|right; left|right; right]; right; apply in_or_app; now left.
Qed.

Lemma process_all_images_missing :
  forall s,
    images_dir w = Missing ->
    process_all_images s =
    (Ok tt, logged InfoNoImages (logged WarnDirNotFound s)).
Proof.
  intros s HD. unfold process_all_images, find_images. now rewrite HD.
Qed.

Lemma process_all_images_unreadable :
  forall s,
    images_dir w = Unreadable ->
    process_all_images s = (Raise OSError, s).
Proof.
  intros s HD. unfold process_all_images, find_images. now rewrite HD.
Qed.

(** ** Counting fingerprints *)

Lemma count_hash_app :
  forall h l1 l2,
    count_hash h (l1 ++ l2) = (count_hash h l1 + count_hash h l2)%nat.
Proof.
  intros h l1 l2. unfold count_hash. now rewrite filter_app, length_app.
Qed.

Lemma count_hash_all :
  forall h l,
    Forall (fun d => image_hash d = h) l -> count_hash h l = List.length l.
Proof.
  intros h l H. unfold count_hash. induction H as [|d l Hd _ IH]; simpl.
  - reflexivity.
  - rewrite Hd, String.eqb_refl. simpl. now rewrite IH.
Qed.

Lemma produced_built_for :
  forall p ds,
    produced p ds ->
    exists data assoc,
      read_file w (str p) = Some data /\
      verified assoc /\
      Forall (built_for p (md5_hexdigest data) assoc) ds.
Proof.
  intros p ds (data & assoc & results & HR & HV & _ & HF).
  apply for_results_ok in HF. destruct HF as (built & -> & _ & HB).
  exists data, assoc. simpl. destruct assoc. auto.
Qed.

Lemma produced_hash :
  forall p data ds,
    read_file w (str p) = Some data ->
    produced p ds ->
    Forall (fun d => image_hash d = md5_hexdigest data) ds.
Proof.
  intros p data ds HR HP.
  destruct (produced_built_for p ds HP) as (data' & assoc & HR' & _ & HB).
  rewrite HR in HR'. inversion HR'; subst data'.
  eapply Forall_impl; [|exact HB]. intros d (_ & H & _). exact H.
Qed.

(** ** Round trips are counted *)

Lemma get_message_id_for_image_calls :
  forall p s,
    (db_calls s <= db_calls (snd (get_message_id_for_image p s)))%nat.
Proof.
  intros p s. rewrite get_message_id_for_image_eq.
  destruct (scan_parts p); [|simpl; lia].
  destruct (re_search_digits (stem p)); [|simpl; lia].
  destruct (refused s); simpl; lia.
Qed.

Lemma is_image_processed_calls :
  forall h s, db_calls (snd (is_image_processed h s)) = S (db_calls s).
Proof.
  intros h s. destruct (refused s) eqn:F.
  - now rewrite is_image_processed_fault.
  - now rewrite is_image_processed_ok.
Qed.

Lemma detect_outcome_state :
  forall p h assoc s,
    exists e,
      snd (detect_outcome p h assoc s) = logged e s.
Proof.
  intros p h assoc s. unfold detect_outcome.
  destruct (yolo_model w (str p) CONFIDENCE_THRESHOLD) as [results|].
  - destruct (for_results p h (fst assoc) (snd assoc) results []);
      eexists; reflexivity.
  - eexists; reflexivity.
Qed.

(** A readable image that the dedup check does not report as processed
    reaches the detector. *)
Lemma process_image_calls_detector :
  forall p data s,
    read_file w (str p) = Some data ->
    fst (is_image_processed (md5_hexdigest data) s) = Ok false ->
    (db_calls s < db_calls (snd (process_image p s)))%nat /\
    exists ev,
      emitted s (snd (process_image p s)) ev /\
      In (Inference (str p) CONFIDENCE_THRESHOLD) ev /\
      ~ In (InfoSkipping (name p)) ev.
Proof.
  intros p data s HR HC.
  destruct (process_image_inferred p data s HR HC) as (assoc & _ & HP).
  simpl in HP. rewrite HP. clear HP.
  destruct (is_image_processed_frame (md5_hexdigest data) s)
    as (b & ev1 & _ & _ & HE1 & HO1).
  pose proof (is_image_processed_calls (md5_hexdigest data) s) as HC1.
  set (s1 := snd (is_image_processed (md5_hexdigest data) s)) in *.
  destruct (get_message_id_for_image_frame p s1)
    as (a & ev2 & _ & _ & HE2 & HO2).
  pose proof (get_message_id_for_image_calls p s1) as HC2.
  set (s2 := snd (get_message_id_for_image p s1)) in *.
  destruct (detect_outcome_state p (md5_hexdigest data) assoc
              (logged (Inference (str p) CONFIDENCE_THRESHOLD) s2))
    as (e & HD).
  assert (HX : match e with InfoSkipping _ => False | _ => True end).
  { revert HD. unfold detect_outcome.
    destruct (yolo_model w (str p) CONFIDENCE_THRESHOLD) as [results|].
    - destruct (for_results p (md5_hexdigest data) (fst assoc) (snd assoc)
                  results []); simpl; intros HD; inversion HD; exact I.
    - simpl; intros HD; inversion HD; exact I. }
  rewrite HD. simpl. split; [lia|].
  exists (e :: Inference (str p) CONFIDENCE_THRESHOLD :: ev2 ++ ev1).
  unfold emitted in *. split; [simpl; now rewrite HE2, HE1, app_assoc|].
  split; [right; now left|].
  intros [H|[H|H]].
  - subst e. exact HX.
  - discriminate H.
  - apply in_app_or in H. destruct H as [H|H].
    + apply HO2 in H. discriminate H.
    + apply HO1 in H. discriminate H.
Qed.

(** ** Read failures *)

(** C7, as amended.  An image file that cannot be opened or read makes
    hashing fail: the OSError is logged against the image and the empty
    fingerprint comes back.  The image is then dropped at once:
    [process_image] returns no detection and the loop body leaves both
    counters alone, so the image is not counted as processed, and it is
    not counted as anything else: the state keeps nothing of it but the
    error line.  No database round trip is made (no dedup lookup), the
    detector is not called and the table is untouched, so the image is
    never handled as a new, unprocessed one. *)
Theorem unreadable_image_is_logged_and_dropped :
  forall p counts s,
    read_file w (str p) = None ->
    get_image_hash p s = (Ok "", logged (ErrHash (str p) OSError) s) /\
    process_image p s = (Ok [], logged (ErrHash (str p) OSError) s) /\
    process_one p counts s =
    (Ok counts, logged (ErrHash (str p) OSError) s).
Proof.
  intros p counts s H.
  split; [now apply get_image_hash_unreadable|].
  split; [now apply process_image_unreadable|].
  rewrite process_one_eq, (process_image_unreadable p s H). reflexivity.
Qed.

(** ** Fatal and non-fatal errors *)

(** C8.  [process_all_images] raises only when the corpus root cannot be
    enumerated, and then at once, with the state untouched (nothing
    processed); a missing root is reported by a warning and the run ends
    with nothing processed.  When the root can be listed the run always
    returns normally, whatever fails along the way, and every image found
    is dealt with: each one shows up in the run's events as a logged read
    failure, a logged skip or a call of the detector. *)
Theorem only_the_corpus_root_is_fatal :
  forall s,
    (forall e, fst (process_all_images s) = Raise e ->
               images_dir w = Unreadable /\ e = OSError) /\
    (images_dir w = Unreadable ->
     process_all_images s = (Raise OSError, s)) /\
    (images_dir w = Missing ->
     process_all_images s =
     (Ok tt, logged InfoNoImages (logged WarnDirNotFound s))) /\
    (forall entries,
       images_dir w = Listing entries ->
       fst (process_all_images s) = Ok tt /\
       exists ev,
         emitted s (snd (process_all_images s)) ev /\
         forall p, In p (images_of entries) -> handled p ev).
Proof.
  intros s. split; [|split; [|split]].
  - intros e H. destruct (images_dir w) as [| |entries] eqn:D.
    + rewrite (process_all_images_missing s D) in H. discriminate H.
    + rewrite (process_all_images_unreadable s D) in H. simpl in H.
      inversion H. auto.
    + destruct (process_all_images_listing entries s D) as (ev & new & HR & _).
      rewrite HR in H. discriminate H.
  - apply process_all_images_unreadable.
  - apply process_all_images_missing.
  - intros entries D.
    destruct (process_all_images_listing entries s D)
      as (ev & new & HR & _ & HE & HH & _).
    split; [exact HR|]. exists ev. auto.
Qed.

(** ** What reaches the table *)

(** Every row added by a run that starts between two saves comes from a
    detector answer for a listed image. *)
Lemma process_all_images_new_rows :
  forall s,
    between_saves s ->
    exists new,
      image_detections (snd (process_all_images s)) =
      image_detections s ++ new /\
      forall d, In d new -> exists p ds, produced p ds /\ In d ds.
Proof.
  intros s HW. destruct (images_dir w) as [| |entries] eqn:D.
  - rewrite (process_all_images_missing s D). exists []. simpl.
    rewrite app_nil_r. split; [reflexivity|]. intros d [].
  - rewrite (process_all_images_unreadable s D). exists []. simpl.
    rewrite app_nil_r. split; [reflexivity|]. intros d [].
  - destruct (process_all_images_listing entries s D)
      as (ev & new & _ & HS & _ & _ & HP).
    exists new. split; [exact (proj1 (HS HW))|]. intros d HI.
    destruct (HP d HI) as (p & ds & _ & H1 & H2). exists p, ds. auto.
Qed.

(** C5.  Every row a run persists that carries a message identifier also
    carries a channel name, and the message store holds a message with
    that identifier under that channel (the store the correlator queried).
    Hence a table in which this holds still has it after the run.  The
    run starts where the pipeline leaves its connection between two saves:
    with no insert of somebody else pending on a working transaction. *)
Theorem persisted_message_ids_are_verified :
  forall s,
    between_saves s ->
    (exists new,
       image_detections (snd (process_all_images s)) =
       image_detections s ++ new /\
       Forall correlated new) /\
    (Forall correlated (image_detections s) ->
     Forall correlated (image_detections (snd (process_all_images s)))).
Proof.
  intros s HW.
  assert (H : exists new,
             image_detections (snd (process_all_images s)) =
             image_detections s ++ new /\ Forall correlated new).
  { destruct (process_all_images_new_rows s HW) as (new & HS & HP).
    exists new. split; [exact HS|]. apply Forall_forall. intros d HI.
    destruct (HP d HI) as (p & ds & HD & HI').
    destruct (produced_built_for p ds HD) as (data & assoc & _ & HV & HB).
    rewrite Forall_forall in HB. destruct (HB d HI') as (_ & _ & HM & HC).
    unfold correlated, verified in *. rewrite HM, HC. exact HV. }
  split; [exact H|]. intros H0. destruct H as (new & -> & HN).
  apply Forall_app. auto.
Qed.

(** C9.  With a detector that keeps to the threshold it is called with,
    every row persisted by a run (started between two saves, so that no
    insert of somebody else is pending) has a confidence score of at least
    [CONFIDENCE_THRESHOLD] (0.3), and so has the whole table if it had
    before.  The pipeline itself filters nothing: the detections
    [process_image] returns carry exactly the scores of the boxes the
    detector answered for the call made with that threshold, one row per
    box and in the same order. *)
Theorem persisted_confidence_is_above_threshold :
  honours_threshold ->
  forall s,
    (between_saves s ->
     exists new,
       image_detections (snd (process_all_images s)) =
       image_detections s ++ new /\
       Forall above_threshold new) /\
    (between_saves s ->
     Forall above_threshold (image_detections s) ->
     Forall above_threshold (image_detections (snd (process_all_images s)))) /\
    (forall p ds,
       fst (process_image p s) = Ok ds -> ds <> [] ->
       exists results,
         yolo_model w (str p) CONFIDENCE_THRESHOLD = Some results /\
         map confidence_score ds = map conf (all_boxes results)).
Proof.
  intros HT s.
  assert (H : between_saves s ->
             exists new,
             image_detections (snd (process_all_images s)) =
             image_detections s ++ new /\ Forall above_threshold new).
  { intros HW. destruct (process_all_images_new_rows s HW) as (new & HS & HP).
    exists new. split; [exact HS|]. apply Forall_forall. intros d HI.
    destruct (HP d HI) as (p & ds & (data & assoc & results & _ & _ & HY & HF)
                           & HI').
    apply for_results_ok in HF. destruct HF as (built & -> & HM & _).
    simpl in HI'. unfold above_threshold.
    assert (HIn : In (confidence_score d) (map confidence_score built))
      by now apply in_map.
    rewrite HM in HIn. apply in_map_iff in HIn.
    destruct HIn as (b & HE & HB).
    rewrite <- HE. apply (HT (str p) CONFIDENCE_THRESHOLD results b HY HB). }
  split; [exact H|]. split.
  - intros HW H0. destruct (H HW) as (new & -> & HN). apply Forall_app. auto.
  - intros p ds HR HN.
    destruct (process_image_result p s) as (ds' & ev & HR' & _ & _ & _ & HP).
    rewrite HR in HR'. inversion HR'; subst ds'.
    destruct HP as [->|(data & assoc & results & _ & _ & HY & HF)];
      [contradiction|].
    exists results. split; [exact HY|].
    apply for_results_ok in HF. destruct HF as (built & -> & HM & _).
    exact HM.
Qed.

(** ** The dedup gate *)

Lemma is_image_processed_absent :
  forall h s,
    count_hash h (image_detections s) = 0%nat ->
    fst (is_image_processed h s) = Ok false.
Proof.
  intros h s H. destruct (refused s) eqn:F.
  - now rewrite is_image_processed_fault.
  - rewrite is_image_processed_ok by assumption. simpl. now rewrite H.
Qed.

(** A fingerprint without rows sends the image to the detector. *)
Lemma absent_fingerprint_is_inferred :
  forall p data s,
    read_file w (str p) = Some data ->
    count_hash (md5_hexdigest data) (image_detections s) = 0%nat ->
    exists ev,
      emitted s (snd (process_image p s)) ev /\
      In (Inference (str p) CONFIDENCE_THRESHOLD) ev /\
      ~ In (InfoSkipping (name p)) ev.
Proof.
  intros p data s HR HC.
  apply (process_image_calls_detector p data s HR).
  now apply is_image_processed_absent.
Qed.

(** C4, as amended.  A save on a working connection in which an insert or
    the commit raises (the [k]-th round trip of the save, the commit being
    the last) is undone as a whole.  When an insert raises, the rows
    inserted before it are pending in the failed transaction and none is
    in the table.  The handler logs one error line, which does not name
    the image, and rolls back: the table is exactly as before, so no
    fingerprint gained a row, and an image whose fingerprint had no row is
    still sent to the detector, not skipped, by any later run that starts
    from this table.  When the rollback goes through, the pending rows are
    gone, the connection is idle again and [save_detections] returns
    normally: the loop body counts the image as processed, with its
    detections in the total.  Only when the rollback raises too does the
    error reach the loop body, which logs it against the image and leaves
    the counters alone; the transaction then stays failed. *)
Theorem failed_save_is_rolled_back :
  forall ds s k,
    ds <> [] ->
    (k <= List.length ds)%nat ->
    aborted s = false ->
    (forall j, (j < k)%nat -> db_fault w (db_calls s + j) = false) ->
    db_fault w (db_calls s + k) = true ->
    let s' := snd (save_detections ds s) in
    ((k < List.length ds)%nat ->
     execute_inserts ds s =
     (Raise DatabaseError,
      mkState (image_detections s) (S k + db_calls s) (trace s)
              (pending s ++ firstn k ds) true)) /\
    image_detections s' = image_detections s /\
    emitted s s' [ErrSave DatabaseError] /\
    (forall h,
       count_hash h (image_detections s') =
       count_hash h (image_detections s)) /\
    (db_fault w (db_calls s + k + 1) = false ->
     fst (save_detections ds s) = Ok tt /\ idle s') /\
    (db_fault w (db_calls s + k + 1) = true ->
     fst (save_detections ds s) = Raise DatabaseError /\
     aborted s' = true /\
     pending s' = pending s ++ firstn k ds) /\
    (forall p data s2,
       read_file w (str p) = Some data ->
       count_hash (md5_hexdigest data) (image_detections s) = 0%nat ->
       image_detections s2 = image_detections s' ->
       exists ev,
         emitted s2 (snd (process_image p s2)) ev /\
         In (Inference (str p) CONFIDENCE_THRESHOLD) ev /\
         ~ In (InfoSkipping (name p)) ev) /\
    (forall p counts s0,
       process_image p s0 = (Ok ds, s) ->
       process_one p counts s0 =
       if db_fault w (db_calls s + k + 1)
       then (Ok counts, logged (ErrProcessing (str p) DatabaseError) s')
       else (Ok (S (fst counts), (snd counts + List.length ds)%nat), s')).
Proof.
  intros ds s k HN Hk HA HB HF s'.
  pose proof (save_detections_first_fault ds s k HN Hk HA HB HF) as HS.
  assert (HT : image_detections s' = image_detections s).
  { unfold s'. rewrite HS.
    destruct (db_fault w (db_calls s + k + 1)); reflexivity. }
  split; [intros Hlt; now apply execute_inserts_first_fault|].
  split; [exact HT|]. split.
  { unfold s', emitted. rewrite HS.
    destruct (db_fault w (db_calls s + k + 1)); reflexivity. }
  split; [intros h; now rewrite HT|]. split; [|split; [|split]].
  - intros R. unfold s'. rewrite HS, R. simpl. repeat split.
  - intros R. unfold s'. rewrite HS, R. simpl. repeat split.
  - intros p data s2 HR HC HE.
    apply (absent_fingerprint_is_inferred p data s2 HR). now rewrite HE, HT.
  - intros p counts s0 HP. rewrite process_one_eq, HP. unfold s'.
    destruct ds as [|d rest]; [contradiction|]. rewrite HS.
    destruct (db_fault w (db_calls s + k + 1)); reflexivity.
Qed.

(** C10, as amended.  When the lookup of the dedup check raises, the
    check logs the error and answers [False], and [process_image] goes on
    to call the detector.  But the failed lookup has left the transaction
    of the connection failed and nothing rolls it back before the save:
    the first insert raises, the handler of [save_detections] rolls back,
    and nothing is persisted.  The table is as it was, so no fingerprint
    gains a row, whether or not it had rows already; the image is counted
    as processed when the rollback goes through. *)
Theorem failed_dedup_check_reprocesses :
  forall p data counts s,
    read_file w (str p) = Some data ->
    refused s = true ->
    is_image_processed (md5_hexdigest data) s =
    (Ok false, logged (ErrCheck DatabaseError) (failed (ticked s))) /\
    (exists ev,
       emitted s (snd (process_image p s)) ev /\
       In (Inference (str p) CONFIDENCE_THRESHOLD) ev) /\
    aborted (snd (process_image p s)) = true /\
    image_detections (snd (process_one p counts s)) = image_detections s /\
    (forall h,
       count_hash h (image_detections (snd (process_one p counts s))) =
       count_hash h (image_detections s)) /\
    (forall ds s1,
       process_image p s = (Ok ds, s1) ->
       ds <> [] ->
       process_one p counts s =
       if db_fault w (S (db_calls s1))
       then (Ok counts,
             logged (ErrProcessing (str p) DatabaseError)
               (mkState (image_detections s) (S (S (db_calls s1)))
                        (ErrSave DatabaseError :: trace s1) (pending s) true))
       else (Ok (S (fst counts), (snd counts + List.length ds)%nat),
             mkState (image_detections s) (S (S (db_calls s1)))
                     (ErrSave DatabaseError :: trace s1) [] false)).
Proof.
  intros p data counts s HR HF.
  pose proof (is_image_processed_fault (md5_hexdigest data) s HF) as HC.
  assert (HC' : fst (is_image_processed (md5_hexdigest data) s) = Ok false)
    by now rewrite HC.
  destruct (process_image_calls_detector p data s HR HC')
    as (Hcalls & ev & HE & HI & _).
  pose proof (process_image_failed_lookup p data s HR HF) as HA.
  destruct (process_image_result p s) as (ds & ev' & HD & HS & _).
  destruct (process_image_connection p s) as [HPe _].
  assert (HO : forall s1,
             process_image p s = (Ok ds, s1) -> ds <> [] ->
             process_one p counts s =
             if db_fault w (S (db_calls s1))
             then (Ok counts,
                   logged (ErrProcessing (str p) DatabaseError)
                     (mkState (image_detections s) (S (S (db_calls s1)))
                        (ErrSave DatabaseError :: trace s1) (pending s) true))
             else (Ok (S (fst counts), (snd counts + List.length ds)%nat),
                   mkState (image_detections s) (S (S (db_calls s1)))
                     (ErrSave DatabaseError :: trace s1) [] false)).
  { intros s1 HP HN. rewrite process_one_eq, HP. rewrite HP in HA, HS, HPe.
    simpl in HA, HS, HPe.
    destruct ds as [|d rest] eqn:E; [contradiction|]. rewrite <- E in *.
    rewrite (save_detections_aborted ds s1 HN HA), HS, HPe.
    destruct (db_fault w (S (db_calls s1))); reflexivity. }
  assert (HT : image_detections (snd (process_one p counts s)) =
               image_detections s).
  { destruct ds as [|d rest] eqn:E.
    - rewrite process_one_eq.
      destruct (process_image p s) as [r s1]. simpl in *. subst r.
      exact HS.
    - rewrite <- E in *. assert (HN : ds <> []) by (subst; discriminate).
      destruct (process_image p s) as [r s1] eqn:HP. simpl in HD. subst r.
      rewrite (HO s1 eq_refl HN).
      destruct (db_fault w (S (db_calls s1))); reflexivity. }
  split; [exact HC|]. split; [exists ev; auto|]. split; [exact HA|].
  split; [exact HT|]. split; [intros h; now rewrite HT|].
  intros ds0 s1 HP HN. rewrite HP in HD. simpl in HD.
  inversion HD; subst ds0. now apply HO.
Qed.

(** C2, as amended.  When the fingerprint of a readable image already has a
    row and the lookup of the dedup check does not raise, the image is
    skipped before correlation and inference: [process_image] makes the one
    lookup, logs the skip and returns nothing, and the loop body persists
    nothing and counts nothing.  Only the content decides: the path enters
    through the bytes read, so a second file with the bytes of an image
    that already has rows is skipped in just this way. *)
Theorem known_fingerprint_is_skipped_before_inference :
  forall p data counts s,
    read_file w (str p) = Some data ->
    (0 < count_hash (md5_hexdigest data) (image_detections s))%nat ->
    refused s = false ->
    process_image p s =
    (Ok [], logged (InfoSkipping (name p)) (ticked s)) /\
    process_one p counts s =
    (Ok counts, logged (InfoSkipping (name p)) (ticked s)).
Proof.
  intros p data counts s HR HC HF.
  assert (HP : process_image p s =
               (Ok [], logged (InfoSkipping (name p)) (ticked s))).
  { rewrite (process_image_skipped p data s HR);
      rewrite (is_image_processed_ok _ s HF); simpl.
    - reflexivity.
    - apply Nat.ltb_lt in HC. now rewrite HC. }
  split; [exact HP|]. now rewrite process_one_eq, HP.
Qed.

(** C1, as amended.  For an image for which the detector answers with no
    box, the pipeline persists nothing and counts nothing: the table is
    left as it was.  So unless the fingerprint already had rows, the dedup
    check still answers [False] afterwards, and a later run starting from
    this table sends the image to the detector again. *)
Theorem zero_detection_image_leaves_no_mark :
  forall p data results counts s,
    read_file w (str p) = Some data ->
    yolo_model w (str p) CONFIDENCE_THRESHOLD = Some results ->
    all_boxes results = [] ->
    fst (process_one p counts s) = Ok counts /\
    image_detections (snd (process_one p counts s)) = image_detections s /\
    (count_hash (md5_hexdigest data) (image_detections s) = 0%nat ->
     fst (is_image_processed (md5_hexdigest data)
            (snd (process_one p counts s))) = Ok false /\
     forall s2,
       image_detections s2 = image_detections (snd (process_one p counts s)) ->
       exists ev,
         emitted s2 (snd (process_image p s2)) ev /\
         In (Inference (str p) CONFIDENCE_THRESHOLD) ev /\
         ~ In (InfoSkipping (name p)) ev).
Proof.
  intros p data results counts s HR HY HB.
  destruct (process_image_result p s) as (ds & ev & HD & HS & _ & _ & HP).
  assert (ds = []) as ->.
  { destruct HP as [->|(data' & assoc & results' & _ & _ & HY' & HF)];
      [reflexivity|].
    rewrite HY in HY'. inversion HY'; subst results'.
    apply for_results_ok in HF. destruct HF as (built & -> & HM & _).
    rewrite HB in HM. simpl in *. now destruct built. }
  assert (HO : process_one p counts s = (Ok counts, snd (process_image p s))).
  { rewrite process_one_eq. destruct (process_image p s) as [r s1].
    simpl in *. now subst r. }
  rewrite HO. simpl. split; [reflexivity|]. split; [exact HS|].
  intros HC. split.
  - apply is_image_processed_absent. now rewrite HS.
  - intros s2 HE. apply (absent_fingerprint_is_inferred p data s2 HR).
    now rewrite HE, HS.
Qed.

Lemma detections_of_hash :
  forall p h, Forall (fun d => image_hash d = h) (detections_of p h).
Proof.
  intros p h. unfold detections_of.
  destruct (yolo_model w (str p) CONFIDENCE_THRESHOLD) as [results|];
    [|constructor].
  destruct (for_results p h (fst (association p)) (snd (association p))
              results []) as [ds|e] eqn:F; [|constructor].
  apply for_results_ok in F. destruct F as (built & -> & _ & HB). simpl.
  eapply Forall_impl; [|exact HB]. intros d (_ & H & _). exact H.
Qed.

Lemma store_step_grows :
  forall p store, exists new, store_step p store = store ++ new.
Proof.
  intros p store. unfold store_step.
  destruct (read_file w (str p)) as [data|].
  - destruct (0 <? count_hash (md5_hexdigest data) store)%nat.
    + exists []. now rewrite app_nil_r.
    + eexists. reflexivity.
  - exists []. now rewrite app_nil_r.
Qed.

Lemma store_run_grows :
  forall images store, exists new, store_run images store = store ++ new.
Proof.
  induction images as [|p rest IH]; intros store; simpl.
  - exists []. now rewrite app_nil_r.
  - destruct (store_step_grows p store) as (n1 & H1).
    destruct (IH (store_step p store)) as (n2 & H2).
    exists (n1 ++ n2). unfold store_run in *. simpl.
    now rewrite H2, H1, app_assoc.
Qed.

Lemma settled_grows :
  forall p store more, settled p store -> settled p (store ++ more).
Proof.
  intros p store more. unfold settled, store_step.
  destruct (read_file w (str p)) as [data|]; [|reflexivity].
  destruct (0 <? count_hash (md5_hexdigest data) store)%nat eqn:C.
  - intros _. apply Nat.ltb_lt in C.
    assert (C' : (0 <? count_hash (md5_hexdigest data) (store ++ more))%nat
                 = true).
    { apply Nat.ltb_lt. rewrite count_hash_app. lia. }
    now rewrite C'.
  - intros H. rewrite <- (app_nil_r store) in H at 2.
    apply app_inv_head in H. rewrite H.
    destruct (0 <? count_hash (md5_hexdigest data) (store ++ more))%nat;
      [reflexivity|apply app_nil_r].
Qed.

Lemma store_step_settles :
  forall p store, settled p (store_step p store).
Proof.
  intros p store. unfold settled, store_step.
  destruct (read_file w (str p)) as [data|]; [|reflexivity].
  destruct (0 <? count_hash (md5_hexdigest data) store)%nat eqn:C.
  - now rewrite C.
  - destruct (detections_of p (md5_hexdigest data)) as [|d ds] eqn:D.
    + rewrite !app_nil_r, C. reflexivity.
    + assert (C' : (0 <? count_hash (md5_hexdigest data)
                           (store ++ d :: ds))%nat = true).
      { apply Nat.ltb_lt. rewrite count_hash_app.
        rewrite (count_hash_all _ (d :: ds)).
        - simpl. lia.
        - rewrite <- D. apply detections_of_hash. }
      now rewrite C'.
Qed.

Lemma store_run_settles :
  forall images store p, In p images -> settled p (store_run images store).
Proof.
  induction images as [|a rest IH]; intros store p HI; [destruct HI|].
  unfold store_run. simpl. fold (store_run rest (store_step a store)).
  destruct HI as [<-|HI].
  - destruct (store_run_grows rest (store_step a store)) as (new & ->).
    apply settled_grows, store_step_settles.
  - now apply IH.
Qed.

Lemma store_run_fixed :
  forall images store,
    (forall p, In p images -> settled p store) ->
    store_run images store = store.
Proof.
  induction images as [|a rest IH]; intros store H; [reflexivity|].
  unfold store_run. simpl. fold (store_run rest (store_step a store)).
  rewrite (H a (or_introl eq_refl)). apply IH.
  intros p HI. apply H. now right.
Qed.

(** Running the table transformer twice over the same images is running it
    once. *)
Lemma store_run_idempotent :
  forall images store,
    store_run images (store_run images store) = store_run images store.
Proof.
  intros images store. apply store_run_fixed.
  intros p HI. now apply store_run_settles.
Qed.

(** ** Runs without database faults *)

Lemma emitted_unique :
  forall s s' ev1 ev2, emitted s s' ev1 -> emitted s s' ev2 -> ev1 = ev2.
Proof.
  unfold emitted. intros s s' ev1 ev2 H1 H2. rewrite H1 in H2.
  now apply app_inv_tail in H2.
Qed.

Lemma nofault_refused :
  no_db_faults -> forall s, aborted s = false -> refused s = false.
Proof.
  intros NF s HA. unfold refused. now rewrite HA, NF.
Qed.

Lemma nofault_get_message_id_for_image :
  no_db_faults ->
  forall p s,
    aborted s = false ->
    exists n,
      get_message_id_for_image p s =
      (Ok (association p),
       mkState (image_detections s) n (trace s) (pending s) false).
Proof.
  intros NF p s HA. rewrite get_message_id_for_image_eq. unfold association.
  destruct (scan_parts p) as [channel|].
  2:{ exists (db_calls s). destruct s; simpl in *. now subst. }
  destruct (re_search_digits (stem p)) as [digits|].
  2:{ exists (db_calls s). destruct s; simpl in *. now subst. }
  rewrite (nofault_refused NF s HA). unfold ticked. rewrite HA.
  eexists. reflexivity.
Qed.

Lemma nofault_process_image_absent :
  no_db_faults ->
  forall p data s,
    aborted s = false ->
    read_file w (str p) = Some data ->
    count_hash (md5_hexdigest data) (image_detections s) = 0%nat ->
    exists e n,
      process_image p s =
      (Ok (detections_of p (md5_hexdigest data)),
       mkState (image_detections s) n
         (e :: Inference (str p) CONFIDENCE_THRESHOLD :: trace s)
         (pending s) false) /\
      (forall q thr, e <> Inference q thr).
Proof.
  intros NF p data s HA HR HC.
  pose proof (is_image_processed_absent _ s HC) as HB.
  destruct (process_image_inferred p data s HR HB) as (assoc & HM & HP).
  simpl in HM, HP. rewrite HP. clear HP.
  rewrite (is_image_processed_ok _ s (nofault_refused NF s HA)) in *.
  simpl in *.
  destruct (nofault_get_message_id_for_image NF p (ticked s) HA) as (n & HG).
  rewrite HG in *. simpl in *. inversion HM; subst assoc.
  unfold detect_outcome, detections_of.
  destruct (yolo_model w (str p) CONFIDENCE_THRESHOLD) as [results|].
  - destruct (for_results p (md5_hexdigest data) (fst (association p))
                (snd (association p)) results []);
      eexists; exists n; (split; [reflexivity|]); discriminate.
  - eexists; exists n; (split; [reflexivity|]); discriminate.
Qed.

(** One pass of the loop body on an idle connection when no round trip
    raises: the table moves by [store_step] and the connection is idle
    again; the detector is called exactly for a readable image whose
    fingerprint has no row, and an image whose fingerprint has one is
    logged as skipped. *)
Lemma nofault_process_one :
  no_db_faults ->
  forall p counts s,
    idle s ->
    idle (snd (process_one p counts s)) /\
    image_detections (snd (process_one p counts s)) =
    store_step p (image_detections s) /\
    exists ev,
      emitted s (snd (process_one p counts s)) ev /\
      (forall q thr,
         In (Inference q thr) ev ->
         q = str p /\
         exists data,
           read_file w (str p) = Some data /\
           count_hash (md5_hexdigest data) (image_detections s) = 0%nat) /\
      (forall data,
         read_file w (str p) = Some data ->
         (0 < count_hash (md5_hexdigest data) (image_detections s))%nat ->
         In (InfoSkipping (name p)) ev) /\
      (forall data,
         read_file w (str p) = Some data ->
         count_hash (md5_hexdigest data) (image_detections s) = 0%nat ->
         In (Inference (str p) CONFIDENCE_THRESHOLD) ev).
Proof.
  intros NF p counts s [HA HQ]. unfold store_step.
  destruct (read_file w (str p)) as [data|] eqn:R.
  2:{ rewrite process_one_eq, (process_image_unreadable p s R). simpl.
      split; [now split|]. split; [reflexivity|].
      exists [ErrHash (str p) OSError].
      split; [reflexivity|]. split; [|split].
      - intros q thr [H|[]]. discriminate H.
      - intros data H. discriminate H.
      - intros data H. discriminate H. }
  destruct (0 <? count_hash (md5_hexdigest data) (image_detections s))%nat
    eqn:C.
  - assert (HP : process_image p s =
                 (Ok [], logged (InfoSkipping (name p)) (ticked s))).
    { rewrite (process_image_skipped p data s R);
        rewrite (is_image_processed_ok _ s (nofault_refused NF s HA)); simpl;
        [reflexivity|now rewrite C]. }
    rewrite process_one_eq, HP. simpl. split; [now split|].
    split; [reflexivity|].
    exists [InfoSkipping (name p)]. split; [reflexivity|].
    apply Nat.ltb_lt in C. split; [|split].
    + intros q thr [H|[]]. discriminate H.
    + intros data' _ _. now left.
    + intros data' H. inversion H; subst data'. lia.
  - apply Nat.ltb_ge in C.
    assert (C0 : count_hash (md5_hexdigest data) (image_detections s) = 0%nat)
      by lia.
    destruct (nofault_process_image_absent NF p data s HA R C0)
      as (e & n & HP & HE).
    rewrite process_one_eq, HP.
    destruct (detections_of p (md5_hexdigest data)) as [|d ds] eqn:D.
    + simpl. split; [now split|]. split; [now rewrite app_nil_r|].
      exists [e; Inference (str p) CONFIDENCE_THRESHOLD].
      split; [reflexivity|]. split; [|split].
      * intros q thr [H|[H|[]]]; [now apply HE in H|].
        inversion H; subst. split; [reflexivity|]. exists data. auto.
      * intros data' H. inversion H; subst data'. lia.
      * intros _ _ _. right. now left.
    + rewrite save_detections_committed;
        [|discriminate|reflexivity|intros k _; apply NF].
      simpl. rewrite HQ. simpl. split; [now split|]. split; [reflexivity|].
      exists [InfoSaved (S (List.length ds)); e;
              Inference (str p) CONFIDENCE_THRESHOLD].
      split; [reflexivity|]. split; [|split].
      * intros q thr [H|[H|[H|[]]]]; [discriminate H|now apply HE in H|].
        inversion H; subst. split; [reflexivity|]. exists data. auto.
      * intros data' H. inversion H; subst data'. lia.
      * intros _ _ _. right. right. now left.
Qed.

Lemma nofault_for_images :
  no_db_faults ->
  forall images counts s,
    idle s ->
    idle (snd (for_images images counts s)) /\
    image_detections (snd (for_images images counts s)) =
    store_run images (image_detections s) /\
    exists ev,
      emitted s (snd (for_images images counts s)) ev /\
      (forall q thr,
         In (Inference q thr) ev ->
         exists data,
           read_file w q = Some data /\
           count_hash (md5_hexdigest data) (image_detections s) = 0%nat) /\
      (forall p data,
         In p images ->
         read_file w (str p) = Some data ->
         (0 < count_hash (md5_hexdigest data) (image_detections s))%nat ->
         In (InfoSkipping (name p)) ev) /\
      (forall p data,
         In p images ->
         read_file w (str p) = Some data ->
         count_hash (md5_hexdigest data)
           (image_detections (snd (for_images images counts s))) = 0%nat ->
         In (Inference (str p) CONFIDENCE_THRESHOLD) ev).
Proof.
  intros NF. induction images as [|p rest IH]; intros counts s HI0.
  { simpl. split; [exact HI0|]. split; [reflexivity|]. exists [].
    split; [reflexivity|]. split; [|split]; intros; contradiction. }
  simpl. unfold bind.
  destruct (nofault_process_one NF p counts s HI0)
    as (HI1 & HS1 & ev1 & HE1 & HN1 & HK1 & HD1).
  destruct (process_one_result p counts s) as (c1 & _ & _ & HR1 & _).
  destruct (process_one p counts s) as [r s1]. simpl in *. subst r.
  destruct (IH c1 s1 HI1) as (HI2 & HS2 & ev2 & HE2 & HN2 & HK2 & HD2).
  destruct (store_step_grows p (image_detections s)) as (new1 & HG1).
  destruct (store_run_grows rest (image_detections s1)) as (new2 & HG2).
  split; [exact HI2|].
  split; [unfold store_run in *; simpl; now rewrite HS2, HS1|].
  exists (ev2 ++ ev1). unfold emitted in *.
  split; [now rewrite HE2, HE1, app_assoc|]. split; [|split].
  - intros q thr HI. apply in_app_or in HI. destruct HI as [HI|HI].
    + destruct (HN2 q thr HI) as (data & HR & HC). exists data.
      split; [exact HR|]. rewrite HS1, HG1, count_hash_app in HC. lia.
    + destruct (HN1 q thr HI) as (-> & data & HR & HC). exists data. auto.
  - intros q data [<-|HI] HR HC; apply in_or_app.
    + right. now apply (HK1 data).
    + left. apply (HK2 q data HI HR).
      rewrite HS1, HG1, count_hash_app. lia.
  - intros q data [<-|HI] HR HC; apply in_or_app.
    + right. apply (HD1 data HR).
      rewrite HS2, HG2, HS1, HG1, !count_hash_app in HC. lia.
    + left. now apply (HD2 q data HI HR).
Qed.

Lemma nofault_process_all_images :
  no_db_faults ->
  forall s,
    idle s ->
    idle (snd (process_all_images s)) /\
    image_detections (snd (process_all_images s)) =
    store_run corpus (image_detections s) /\
    exists ev,
      emitted s (snd (process_all_images s)) ev /\
      (forall q thr,
         In (Inference q thr) ev ->
         exists data,
           read_file w q = Some data /\
           count_hash (md5_hexdigest data) (image_detections s) = 0%nat) /\
      (forall p data,
         In p corpus ->
         read_file w (str p) = Some data ->
         (0 < count_hash (md5_hexdigest data) (image_detections s))%nat ->
         In (InfoSkipping (name p)) ev) /\
      (forall p data,
         In p corpus ->
         read_file w (str p) = Some data ->
         count_hash (md5_hexdigest data)
           (image_detections (snd (process_all_images s))) = 0%nat ->
         In (Inference (str p) CONFIDENCE_THRESHOLD) ev).
Proof.
  intros NF s HI0. unfold corpus.
  destruct (images_dir w) as [| |entries] eqn:D.
  - rewrite (process_all_images_missing s D). simpl.
    split; [exact HI0|].
    split; [reflexivity|]. exists [InfoNoImages; WarnDirNotFound].
    split; [reflexivity|]. split; [|split]; try (intros; contradiction).
    intros q thr [H|[H|[]]]; discriminate H.
  - rewrite (process_all_images_unreadable s D). simpl.
    split; [exact HI0|].
    split; [reflexivity|]. exists [].
    split; [reflexivity|]. split; [|split]; intros; contradiction.
  - unfold process_all_images, find_images. rewrite D.
    fold (images_of entries). unfold_proc.
    destruct (images_of entries) as [|p rest] eqn:E.
    { simpl. split; [exact HI0|]. split; [reflexivity|].
      exists [InfoNoImages; InfoFoundImages 0].
      split; [reflexivity|]. split; [|split]; try (intros; contradiction).
      intros q thr [H|[H|[]]]; discriminate H. }
    rewrite <- E. clear E.
    set (n := List.length (images_of entries)).
    destruct (nofault_for_images NF (images_of entries) (0%nat, 0%nat)
                (logged (InfoFoundImages n) s) HI0)
      as (HI1 & HS & ev & HE & HI & HK & HD).
    destruct (for_images_result (images_of entries) (0%nat, 0%nat)
                (logged (InfoFoundImages n) s)) as (c & _ & _ & HR & _).
    destruct (for_images (images_of entries) (0%nat, 0%nat)
                (logged (InfoFoundImages n) s)) as [r s1].
    simpl in *. subst r. simpl. split; [exact HI1|]. split; [exact HS|].
    exists (InfoComplete (fst c) n (snd c) :: ev ++ [InfoFoundImages n]).
    unfold emitted in *.
    split; [simpl; rewrite HE, <- app_assoc; reflexivity|]. split; [|split].
    + intros q thr [H|H]; [discriminate H|].
      apply in_app_or in H. destruct H as [H|[H|[]]]; [|discriminate H].
      exact (HI q thr H).
    + intros q data HQ HR' HC. right. apply in_or_app. left.
      exact (HK q data HQ HR' HC).
    + intros q data HQ HR' HC. right. apply in_or_app. left.
      exact (HD q data HQ HR' HC).
Qed.

(** C3, as amended.  When no database round trip raises, a second run over
    the unchanged corpus persists nothing: the table after it is the table
    after the first run.  In the second run every readable image whose
    fingerprint has a row is logged as skipped and is not sent to the
    detector, and that covers every image for which the first run built at
    least one row; a readable image whose fingerprint has no row is sent to
    the detector again.  (That no round trip raises includes the first:
    the first run starts on an idle connection.) *)
Theorem second_run_persists_nothing :
  no_db_faults ->
  forall s0,
    idle s0 ->
    let s1 := snd (process_all_images s0) in
    let s2 := snd (process_all_images s1) in
    image_detections s2 = image_detections s1 /\
    exists ev,
      emitted s1 s2 ev /\
      forall p data,
        In p corpus ->
        read_file w (str p) = Some data ->
        ((0 < count_hash (md5_hexdigest data) (image_detections s1))%nat ->
         In (InfoSkipping (name p)) ev /\
         ~ In (Inference (str p) CONFIDENCE_THRESHOLD) ev) /\
        (count_hash (md5_hexdigest data) (image_detections s1) = 0%nat ->
         In (Inference (str p) CONFIDENCE_THRESHOLD) ev) /\
        (detections_of p (md5_hexdigest data) <> [] ->
         (0 < count_hash (md5_hexdigest data) (image_detections s1))%nat).
Proof.
  intros NF s0 HI0 s1 s2.
  destruct (nofault_process_all_images NF s0 HI0) as (HI1 & HS1 & _).
  fold s1 in HS1, HI1.
  destruct (nofault_process_all_images NF s1 HI1)
    as (_ & HS2 & ev & HE & HI & HK & HD).
  fold s2 in HS2, HE, HD.
  assert (HEQ : image_detections s2 = image_detections s1).
  { rewrite HS2, HS1. apply store_run_idempotent. }
  split; [exact HEQ|]. exists ev. split; [exact HE|].
  intros p data HP HR. split; [|split].
  - intros HC. split; [now apply (HK p data)|].
    intros HN. destruct (HI _ _ HN) as (data' & HR' & HC').
    rewrite HR in HR'. inversion HR'; subst data'. lia.
  - intros HC. apply (HD p data HP HR). now rewrite HEQ.
  - intros HN.
    pose proof (store_run_settles corpus (image_detections s0) p HP) as HT.
    rewrite <- HS1 in HT. unfold settled, store_step in HT. rewrite HR in HT.
    destruct (0 <? count_hash (md5_hexdigest data) (image_detections s1))%nat
      eqn:C; [now apply Nat.ltb_lt|].
    rewrite <- (app_nil_r (image_detections s1)) in HT at 2.
    apply app_inv_head in HT. contradiction.
Qed.

(** ** The correlator against its reference algorithm *)

Lemma scan_parts_first_known_channel :
  forall p, scan_parts p = first_known_channel p.
Proof.
  unfold first_known_channel.
  induction p as [|part rest IH]; [reflexivity|].
  cbn [scan_parts find].
  destruct (mem_string part known_channels); [reflexivity|exact IH].
Qed.

Lemma match_digits_at_leading :
  forall s,
    match_digits_at s =
    match leading_digits s with
    | EmptyString => None
    | run => Some run
    end.
Proof.
  induction s as [|c s IH]; simpl; [reflexivity|].
  destruct (is_digit c); [|reflexivity].
  rewrite IH. now destruct (leading_digits s).
Qed.

Lemma re_search_digits_first_run :
  forall s, re_search_digits s = first_digit_run s.
Proof.
  unfold first_digit_run.
  induction s as [|c s IH]; [reflexivity|].
  cbn [re_search_digits skip_non_digits].
  rewrite match_digits_at_leading. cbn [leading_digits].
  destruct (is_digit c) eqn:D.
  - cbn [leading_digits]. now rewrite D.
  - exact IH.
Qed.

Lemma message_row_in_dec :
  forall mid channel,
    message_row mid channel =
    if in_dec row_eq_dec (mid, channel) (telegram_messages w)
    then true else false.
Proof.
  intros mid channel.
  destruct (in_dec row_eq_dec (mid, channel) (telegram_messages w)) as [H|H].
  - now apply message_row_In.
  - apply not_true_iff_false. intro T. apply H. now apply message_row_In.
Qed.

Lemma association_reference :
  forall p, association p = reference_correlation p.
Proof.
  intros p. unfold association, reference_correlation.
  rewrite scan_parts_first_known_channel, re_search_digits_first_run.
  destruct (first_known_channel p) as [channel|]; [|reflexivity].
  destruct (first_digit_run (stem p)) as [run|]; [|reflexivity].
  rewrite message_row_in_dec.
  now destruct (in_dec row_eq_dec (int run, channel) (telegram_messages w)).
Qed.

(** C6, as amended.  The correlator returns what the reference algorithm
    returns (no known channel among the components: [(None, None)];
    otherwise the first matching component as channel, the first run of
    digits of the stem as candidate, accepted only if the message store has
    that identifier under that channel, else [(None, channel)]), except
    when the query of the message store is made and raises: then the
    result is [(None, None)] although a channel was found. *)
Theorem correlator_follows_reference_unless_query_raises :
  forall p s,
    fst (get_message_id_for_image p s) =
    Ok (match first_known_channel p, first_digit_run (stem p) with
        | Some _, Some _ =>
            if refused s then (None, None)
            else reference_correlation p
        | _, _ => reference_correlation p
        end).
Proof.
  intros p s. rewrite <- association_reference.
  rewrite <- scan_parts_first_known_channel, <- re_search_digits_first_run.
  rewrite get_message_id_for_image_eq. unfold association.
  destruct (scan_parts p) as [channel|]; [|reflexivity].
  destruct (re_search_digits (stem p)) as [digits|]; [|reflexivity].
  destruct (refused s); reflexivity.
Qed.

(** * Further properties of the modelled code *)

(** ** Names, suffixes and the walk over the corpus *)

Lemma rfind_from_found :
  forall c s i found j,
    rfind_from c s i found = Some j ->
    found = Some j \/
    ((i <= j)%nat /\ (j < i + String.length s)%nat /\
     String.get (j - i) s = Some c).
Proof.
  intros c s. induction s as [|a s IH]; intros i found j H; simpl in H.
  - now left.
  - apply IH in H. destruct H as [H|(H1 & H2 & H3)].
    + destruct (Ascii.eqb a c) eqn:E; [|now left].
      inversion H; subst j. apply Ascii.eqb_eq in E. subst a. right.
      simpl. rewrite Nat.sub_diag. repeat split; auto; lia.
    + right. simpl. repeat split; try lia.
      replace (j - i)%nat with (S (j - S i)) by lia. exact H3.
Qed.

Lemma split_point_bounds :
  forall nm i,
    split_point nm = Some i -> (0 < i)%nat /\ (i < String.length nm - 1)%nat.
Proof.
  intros nm i H. unfold split_point in H.
  destruct (rfind "."%char nm) as [j|]; [|discriminate H].
  destruct ((0 <? j)%nat && (j <? String.length nm - 1)%nat) eqn:B;
    [|discriminate H].
  inversion H; subst j. apply andb_true_iff in B. destruct B as [B1 B2].
  apply Nat.ltb_lt in B1. apply Nat.ltb_lt in B2. auto.
Qed.

Lemma append_empty_r :
  forall s, (s ++ "")%string = s.
Proof.
  induction s as [|c s IH]; simpl; [reflexivity|now rewrite IH].
Qed.

Lemma append_assoc_string :
  forall s1 s2 s3, ((s1 ++ s2) ++ s3)%string = (s1 ++ (s2 ++ s3))%string.
Proof.
  induction s1 as [|c s1 IH]; intros s2 s3; simpl;
    [reflexivity|now rewrite IH].
Qed.

Lemma substring_whole :
  forall s, substring 0 (String.length s) s = s.
Proof.
  induction s as [|c s IH]; simpl; [reflexivity|now rewrite IH].
Qed.

Lemma substring_split :
  forall s i,
    (i <= String.length s)%nat ->
    (substring 0 i s ++ substring i (String.length s - i) s)%string = s.
Proof.
  induction s as [|c s IH]; intros i H.
  - simpl in H. assert (i = 0%nat) by lia. subst i. reflexivity.
  - destruct i as [|i].
    + simpl. now rewrite substring_whole.
    + simpl in H. simpl. rewrite IH by lia. reflexivity.
Qed.

(** The stem and the suffix cut the name in two, and a suffix is only
    ever cut off a non-empty stem. *)
Lemma stem_suffix_name :
  forall p, (stem p ++ suffix p)%string = name p.
Proof.
  intros p. unfold stem, suffix.
  destruct (split_point (name p)) as [i|] eqn:S.
  - apply split_point_bounds in S. apply substring_split. lia.
  - apply append_empty_r.
Qed.

Lemma stem_nonempty_under_suffix :
  forall p, suffix p <> "" -> stem p <> "".
Proof.
  intros p H. unfold stem, suffix in *.
  destruct (split_point (name p)) as [i|] eqn:S; [|contradiction].
  apply split_point_bounds in S. destruct S as [S1 S2].
  destruct (name p) as [|c nm]; [simpl in S2; lia|].
  destruct i as [|i]; [lia|]. simpl. discriminate.
Qed.

Lemma mem_string_In :
  forall x l, mem_string x l = true <-> In x l.
Proof.
  intros x l. unfold mem_string. rewrite existsb_exists. split.
  - intros (y & HI & HE). apply String.eqb_eq in HE. now subst.
  - intros HI. exists x. split; [exact HI|apply String.eqb_refl].
Qed.

(** X1.  With a listing of the corpus root, [find_images] returns, in the
    order of the listing, exactly the entries that are regular files and
    whose suffix, lowercased, is one of the seven image extensions; it logs
    their number and touches nothing else.  Each image found has a
    non-empty stem before its suffix, so a file named just [.png] is not
    an image. *)
Theorem find_images_keeps_files_with_image_suffix :
  forall entries s,
    images_dir w = Listing entries ->
    find_images s =
    (Ok (images_of entries),
     logged (InfoFoundImages (List.length (images_of entries))) s) /\
    (forall p,
       In p (images_of entries) <->
       In (p, true) entries /\ In (lower (suffix p)) IMAGE_EXTENSIONS) /\
    (forall p,
       In p (images_of entries) ->
       stem p <> "" /\ (stem p ++ suffix p)%string = name p).
Proof.
  intros entries s D.
  assert (HI : forall p,
             In p (images_of entries) <->
             In (p, true) entries /\ In (lower (suffix p)) IMAGE_EXTENSIONS).
  { intros p. unfold images_of. rewrite in_map_iff. split.
    - intros ([q b] & E & HF). simpl in E. subst q.
      apply filter_In in HF. destruct HF as [HF HB]. unfold is_image in HB.
      cbn [fst snd] in HB. apply andb_true_iff in HB. destruct HB as [-> HB].
      split; [exact HF|now apply mem_string_In].
    - intros [HF HB]. exists (p, true). split; [reflexivity|].
      apply filter_In. split; [exact HF|]. unfold is_image.
      cbn [fst snd andb]. now apply mem_string_In. }
  split; [|split; [exact HI|]].
  - unfold find_images. rewrite D. reflexivity.
  - intros p HP. apply HI in HP. destruct HP as [_ HB].
    split; [|apply stem_suffix_name].
    apply stem_nonempty_under_suffix. intros E. rewrite E in HB.
    simpl in HB. repeat (destruct HB as [HB|HB]; [discriminate HB|]).
    exact HB.
Qed.

(** ** The digit run and the correlator's answers *)

Lemma leading_digits_split :
  forall s,
    exists post,
      s = (leading_digits s ++ post)%string /\
      forall_chars is_digit (leading_digits s) = true /\
      stops_digits post.
Proof.
  induction s as [|c s (post & E & HD & HP)]; simpl.
  - exists EmptyString. repeat split.
  - destruct (is_digit c) eqn:D.
    + exists post. simpl. rewrite D, HD. rewrite <- E. repeat split. exact HP.
    + exists (String c s). simpl. repeat split. exact D.
Qed.

Lemma skip_non_digits_split :
  forall s,
    exists pre,
      s = (pre ++ skip_non_digits s)%string /\
      forall_chars non_digit pre = true /\
      (skip_non_digits s = EmptyString \/
       exists c rest, skip_non_digits s = String c rest /\ is_digit c = true).
Proof.
  induction s as [|c s (pre & E & HN & HS)]; simpl.
  - exists EmptyString. repeat split. now left.
  - destruct (is_digit c) eqn:D.
    + exists EmptyString. repeat split. right. now exists c, s.
    + exists (String c pre). simpl. unfold non_digit at 1. rewrite D, HN.
      rewrite <- E. repeat split. exact HS.
Qed.

(** X2.  The candidate [re.search] hands to the correlator is the leftmost
    maximal run of digits: the text before it has no digit, the run is
    non-empty and all digits, and what follows is empty or starts with a
    character that is no digit.  There is no candidate exactly when the
    text has no digit at all. *)
Theorem re_search_digits_leftmost_longest :
  forall s,
    match re_search_digits s with
    | Some run =>
        run <> EmptyString /\
        forall_chars is_digit run = true /\
        exists pre post,
          s = (pre ++ run ++ post)%string /\
          forall_chars non_digit pre = true /\
          stops_digits post
    | None => forall_chars non_digit s = true
    end.
Proof.
  intros s. rewrite re_search_digits_first_run. unfold first_digit_run.
  destruct (skip_non_digits_split s) as (pre & E & HN & HS).
  destruct (leading_digits_split (skip_non_digits s)) as (post & E2 & HD & HP).
  destruct (leading_digits (skip_non_digits s)) as [|c run] eqn:L.
  - destruct HS as [HS|(c & rest & HS & D)].
    + rewrite HS, append_empty_r in E. now subst pre.
    + rewrite HS in L. simpl in L. rewrite D in L. discriminate L.
  - split; [discriminate|]. split; [exact HD|].
    exists pre, post. rewrite <- E2. auto.
Qed.

Lemma scan_parts_known_component :
  forall p channel,
    scan_parts p = Some channel -> In channel known_channels /\ In channel p.
Proof.
  induction p as [|part rest IH]; intros channel H; [discriminate H|].
  cbn [scan_parts] in H.
  destruct (mem_string part known_channels) eqn:K.
  - inversion H; subst part. split; [now apply mem_string_In|now left].
  - destruct (IH channel H) as [H1 H2]. split; [exact H1|now right].
Qed.

Lemma scan_parts_none :
  forall p,
    (forall c, In c p -> ~ In c known_channels) -> scan_parts p = None.
Proof.
  intros p H. destruct (scan_parts p) as [channel|] eqn:S; [|reflexivity].
  apply scan_parts_known_component in S. destruct S as [S1 S2].
  now apply H in S2.
Qed.

Lemma int_from_nonneg :
  forall s acc,
    forall_chars is_digit s = true -> (0 <= acc)%Z -> (0 <= int_from s acc)%Z.
Proof.
  induction s as [|c s IH]; intros acc HD HA;
    cbn [int_from forall_chars] in *; [exact HA|].
  apply andb_true_iff in HD. destruct HD as [HC HD].
  apply IH; [exact HD|]. unfold is_digit in HC.
  apply andb_true_iff in HC. destruct HC as [H1 _].
  apply Nat.leb_le in H1. remember (nat_of_ascii c) as n. lia.
Qed.

(** X3.  What the correlator answers is well formed: a channel it returns
    is one of the three known channels and a component of the path; a
    message identifier it returns is the value of the leftmost digit run
    of the stem, it is not negative, it comes with a channel, and the
    message store has that identifier under that channel. *)
Theorem correlator_answers_are_well_formed :
  forall p s mid ch,
    fst (get_message_id_for_image p s) = Ok (mid, ch) ->
    (forall channel,
       ch = Some channel -> In channel known_channels /\ In channel p) /\
    (forall m,
       mid = Some m ->
       (0 <= m)%Z /\
       exists channel digits,
         ch = Some channel /\
         re_search_digits (stem p) = Some digits /\
         m = int digits /\
         In (m, channel) (telegram_messages w)).
Proof.
  intros p s mid ch. rewrite get_message_id_for_image_eq.
  destruct (scan_parts p) as [channel|] eqn:SP.
  2:{ simpl. intros H. inversion H. split; intros ? E; discriminate E. }
  pose proof (scan_parts_known_component p channel SP) as HK.
  assert (HC : forall c, Some channel = Some c ->
                         In c known_channels /\ In c p)
    by (intros c E; inversion E; subst c; exact HK).
  destruct (re_search_digits (stem p)) as [digits|] eqn:RD.
  2:{ simpl. intros H. inversion H. split; [exact HC|].
      intros ? E; discriminate E. }
  destruct (refused s).
  { simpl. intros H. inversion H. split; intros ? E; discriminate E. }
  destruct (message_row (int digits) channel) eqn:MR; simpl; intros H;
    inversion H; (split; [exact HC|]); intros m E; [|discriminate E].
  inversion E; subst m. split.
  - pose proof (re_search_digits_leftmost_longest (stem p)) as HL.
    rewrite RD in HL. destruct HL as (_ & HD & _).
    unfold int. apply int_from_nonneg; [exact HD|lia].
  - exists channel, digits. repeat split; auto. now apply message_row_In.
Qed.

Lemma no_digit_no_match :
  forall s, forall_chars non_digit s = true -> re_search_digits s = None.
Proof.
  intros s H. pose proof (re_search_digits_leftmost_longest s) as HL.
  destruct (re_search_digits s) as [run|]; [|reflexivity].
  destruct HL as (HN & HD & pre & post & E & _). exfalso.
  destruct run as [|c run]; [now apply HN|].
  simpl in HD. apply andb_true_iff in HD. destruct HD as [HC _].
  subst s. clear HN. induction pre as [|a pre IH]; simpl in H.
  - unfold non_digit in H. rewrite HC in H. discriminate H.
  - apply andb_true_iff in H. destruct H as [_ H]. exact (IH H).
Qed.

(** X4.  The correlator never raises and never writes to the detections
    table; it makes at most one database round trip, and none at all (the
    state is left exactly as it was) when no path component is a known
    channel or when the stem has no digit. *)
Theorem correlator_queries_at_most_once :
  forall p s,
    (exists assoc, fst (get_message_id_for_image p s) = Ok assoc) /\
    image_detections (snd (get_message_id_for_image p s)) =
    image_detections s /\
    (db_calls s <= db_calls (snd (get_message_id_for_image p s)))%nat /\
    (db_calls (snd (get_message_id_for_image p s)) <= S (db_calls s))%nat /\
    ((forall c, In c p -> ~ In c known_channels) ->
     get_message_id_for_image p s = (Ok (None, None), s)) /\
    (forall_chars non_digit (stem p) = true ->
     snd (get_message_id_for_image p s) = s).
Proof.
  intros p s.
  destruct (get_message_id_for_image_frame p s) as (assoc & ev & HA & HS & _).
  split; [now exists assoc|]. split; [exact HS|].
  split; [apply get_message_id_for_image_calls|].
  rewrite get_message_id_for_image_eq. split; [|split].
  - destruct (scan_parts p); [|simpl; lia].
    destruct (re_search_digits (stem p)); [|simpl; lia].
    destruct (refused s); simpl; lia.
  - intros H. now rewrite (scan_parts_none p H).
  - intros H. rewrite (no_digit_no_match _ H).
    destruct (scan_parts p); reflexivity.
Qed.

(** ** The dedup check as a query *)

Lemma count_hash_positive :
  forall h l,
    (0 < count_hash h l)%nat <-> exists d, In d l /\ image_hash d = h.
Proof.
  intros h l. unfold count_hash. split.
  - intros H. destruct (filter (fun d => String.eqb (image_hash d) h) l)
      as [|d rest] eqn:F; [simpl in H; lia|].
    assert (HI : In d (filter (fun d => String.eqb (image_hash d) h) l))
      by (rewrite F; now left).
    apply filter_In in HI. destruct HI as [HI HE].
    apply String.eqb_eq in HE. now exists d.
  - intros (d & HI & HE).
    assert (HF : In d (filter (fun d => String.eqb (image_hash d) h) l)).
    { apply filter_In. split; [exact HI|]. now apply String.eqb_eq. }
    destruct (filter (fun d => String.eqb (image_hash d) h) l);
      [destruct HF|simpl; lia].
Qed.

(** X5.  The dedup check never raises and never writes.  It answers
    [True] exactly when its lookup goes through and the table has at least
    one row with the fingerprint; when the lookup raises the answer is
    [False] whatever the table holds. *)
Theorem dedup_check_true_iff_row_found :
  forall h s,
    (exists b, fst (is_image_processed h s) = Ok b) /\
    image_detections (snd (is_image_processed h s)) = image_detections s /\
    (fst (is_image_processed h s) = Ok true <->
     refused s = false /\
     exists d, In d (image_detections s) /\ image_hash d = h).
Proof.
  intros h s.
  destruct (is_image_processed_frame h s) as (b & ev & HB & HS & _).
  split; [now exists b|]. split; [exact HS|].
  destruct (refused s) eqn:F.
  - rewrite (is_image_processed_fault h s F). simpl. split.
    + intros H. discriminate H.
    + intros [H _]. discriminate H.
  - rewrite (is_image_processed_ok h s F). simpl.
    rewrite <- count_hash_positive. split.
    + intros H. inversion H as [H1]. split; [reflexivity|].
      now apply Nat.ltb_lt.
    + intros [_ H]. apply Nat.ltb_lt in H. now rewrite H.
Qed.

(** ** What [process_image] returns *)

Lemma for_boxes_rows :
  forall p h mid channel result bs acc ds,
    for_boxes p h mid channel result bs acc = Ok ds ->
    exists built,
      ds = acc ++ built /\
      Forall2 row_matches_box built (map (pair result) bs).
Proof.
  intros p h mid channel result bs.
  induction bs as [|box rest IH]; intros acc ds H; simpl in H.
  - inversion H; subst. exists []. rewrite app_nil_r. split; constructor.
  - destruct (names result (cls box)) as [label|] eqn:N; [|discriminate].
    destruct (xyxy box) as [[[x1 y1] x2] y2] eqn:X.
    apply IH in H. destruct H as (built & -> & HB).
    eexists (_ :: built). rewrite <- app_assoc. simpl. split; [reflexivity|].
    constructor; [|exact HB]. unfold row_matches_box. simpl.
    rewrite N, X. auto.
Qed.

Lemma for_results_rows :
  forall p h mid channel results acc ds,
    for_results p h mid channel results acc = Ok ds ->
    exists built,
      ds = acc ++ built /\
      Forall2 row_matches_box built (boxes_with_names results).
Proof.
  intros p h mid channel results.
  induction results as [|result rest IH]; intros acc ds H; simpl in H.
  - inversion H; subst. exists []. rewrite app_nil_r. split; constructor.
  - unfold boxes_with_names. simpl. fold (boxes_with_names rest).
    destruct (boxes result) as [bs|] eqn:B.
    + destruct (for_boxes p h mid channel result bs acc) as [ds1|e] eqn:F;
        [|discriminate].
      apply for_boxes_rows in F. destruct F as (b1 & -> & H1).
      apply IH in H. destruct H as (b2 & -> & H2).
      exists (b1 ++ b2). rewrite app_assoc. split; [reflexivity|].
      now apply Forall2_app.
    + apply IH in H. destruct H as (b2 & -> & H2). now exists b2.
Qed.

Lemma for_boxes_raises :
  forall p h mid channel result bs acc e,
    for_boxes p h mid channel result bs acc = Raise e -> e = KeyError.
Proof.
  intros p h mid channel result bs.
  induction bs as [|box rest IH]; intros acc e H; simpl in H;
    [discriminate H|].
  destruct (names result (cls box)); [|now inversion H].
  destruct (xyxy box) as [[[x1 y1] x2] y2]. exact (IH _ _ H).
Qed.

Lemma for_boxes_missing_name :
  forall p h mid channel result bs acc b,
    In b bs -> names result (cls b) = None ->
    for_boxes p h mid channel result bs acc = Raise KeyError.
Proof.
  intros p h mid channel result bs.
  induction bs as [|box rest IH]; intros acc b HI HN; [destruct HI|].
  simpl. destruct (names result (cls box)) as [label|] eqn:N; [|reflexivity].
  destruct (xyxy box) as [[[x1 y1] x2] y2].
  destruct HI as [<-|HI]; [congruence|]. exact (IH _ b HI HN).
Qed.

Lemma for_results_missing_name :
  forall p h mid channel results acc r bs b,
    In r results -> boxes r = Some bs -> In b bs ->
    names r (cls b) = None ->
    for_results p h mid channel results acc = Raise KeyError.
Proof.
  intros p h mid channel results.
  induction results as [|result rest IH]; intros acc r bs b HR HB HI HN;
    [destruct HR|].
  simpl. destruct HR as [<-|HR].
  - rewrite HB. now rewrite (for_boxes_missing_name _ _ _ _ _ _ _ b HI HN).
  - destruct (boxes result) as [bs'|].
    + destruct (for_boxes p h mid channel result bs' acc) as [ds1|e] eqn:F.
      * exact (IH _ r bs b HR HB HI HN).
      * now rewrite (for_boxes_raises _ _ _ _ _ _ _ _ F).
    + exact (IH _ r bs b HR HB HI HN).
Qed.

(** X6.  All the detections [process_image] returns for one image agree
    on where they come from: each carries the path string of the image,
    the fingerprint of its bytes, and one and the same pair of message
    identifier and channel, a pair the message store vouches for. *)
Theorem detections_of_one_image_agree :
  forall p s ds,
    fst (process_image p s) = Ok ds ->
    ds <> [] ->
    exists data assoc,
      read_file w (str p) = Some data /\
      verified assoc /\
      Forall (fun d =>
                image_path d = str p /\
                image_hash d = md5_hexdigest data /\
                message_id d = fst assoc /\
                channel_name d = snd assoc) ds.
Proof.
  intros p s ds HR HN.
  destruct (process_image_result p s) as (ds' & ev & HR' & _ & _ & _ & HP).
  rewrite HR in HR'. inversion HR'; subst ds'.
  destruct HP as [->|HP]; [contradiction|].
  destruct (produced_built_for p ds HP) as (data & assoc & HD & HV & HB).
  exists data, assoc. auto.
Qed.

(** X7.  The detections [process_image] returns are the boxes of the
    detector's answer written down one for one and in order: as many rows
    as boxes, each with the name of the box's class in its own result as
    label and with the box's score and corners. *)
Theorem one_row_per_box :
  forall p s ds,
    fst (process_image p s) = Ok ds ->
    ds <> [] ->
    exists results,
      yolo_model w (str p) CONFIDENCE_THRESHOLD = Some results /\
      Forall2 row_matches_box ds (boxes_with_names results) /\
      List.length ds = List.length (all_boxes results).
Proof.
  intros p s ds HR HN.
  destruct (process_image_result p s) as (ds' & ev & HR' & _ & _ & _ & HP).
  rewrite HR in HR'. inversion HR'; subst ds'.
  destruct HP as [->|(data & assoc & results & _ & _ & HY & HF)];
    [contradiction|].
  exists results. split; [exact HY|].
  pose proof (for_results_rows _ _ _ _ _ _ _ HF) as (built & -> & HB).
  apply for_results_ok in HF. destruct HF as (built' & E & HM & _).
  simpl in *. subst built'. split; [exact HB|].
  rewrite <- (length_map confidence_score), HM. apply length_map.
Qed.

(** The state [process_image] reaches when the image goes to the detector
    and the detection stage ends in an exception [e]. *)
Lemma process_image_stage_raises :
  forall p data s,
    read_file w (str p) = Some data ->
    fst (is_image_processed (md5_hexdigest data) s) = Ok false ->
    forall e,
      (yolo_model w (str p) CONFIDENCE_THRESHOLD = None /\ e = ModelError) \/
      (exists results,
         yolo_model w (str p) CONFIDENCE_THRESHOLD = Some results /\
         forall mid channel,
           for_results p (md5_hexdigest data) mid channel results [] =
           Raise e) ->
      exists s3,
        process_image p s = (Ok [], logged (ErrProcessImage (str p) e) s3) /\
        image_detections s3 = image_detections s.
Proof.
  intros p data s HR HC e HE.
  destruct (process_image_inferred p data s HR HC) as (assoc & _ & HP).
  simpl in HP. rewrite HP. clear HP.
  destruct (is_image_processed_frame (md5_hexdigest data) s)
    as (b & ev1 & _ & HS1 & _).
  set (s1 := snd (is_image_processed (md5_hexdigest data) s)) in *.
  destruct (get_message_id_for_image_frame p s1) as (a & ev2 & _ & HS2 & _).
  set (s2 := snd (get_message_id_for_image p s1)) in *.
  exists (logged (Inference (str p) CONFIDENCE_THRESHOLD) s2).
  split; [|simpl; congruence].
  unfold detect_outcome. destruct HE as [[HY ->]|(results & HY & HF)].
  - now rewrite HY.
  - now rewrite HY, HF.
Qed.

(** X8.  A class identifier missing from the names of its result costs
    the whole image: when one box of the detector's answer has such an
    identifier, [process_image] logs the KeyError and returns no detection
    at all, the other boxes included, and the loop body then writes and
    counts nothing. *)
Theorem unknown_class_id_drops_the_image :
  forall p data counts s results r bs b,
    read_file w (str p) = Some data ->
    fst (is_image_processed (md5_hexdigest data) s) = Ok false ->
    yolo_model w (str p) CONFIDENCE_THRESHOLD = Some results ->
    In r results -> boxes r = Some bs -> In b bs ->
    names r (cls b) = None ->
    exists s3,
      process_image p s =
      (Ok [], logged (ErrProcessImage (str p) KeyError) s3) /\
      process_one p counts s =
      (Ok counts, logged (ErrProcessImage (str p) KeyError) s3) /\
      image_detections s3 = image_detections s.
Proof.
  intros p data counts s results r bs b HR HC HY HIr HB HIb HN.
  destruct (process_image_stage_raises p data s HR HC KeyError)
    as (s3 & HP & HS).
  { right. exists results. split; [exact HY|]. intros mid channel.
    exact (for_results_missing_name _ _ _ _ _ _ r bs b HIr HB HIb HN). }
  exists s3. split; [exact HP|]. split; [|exact HS].
  now rewrite process_one_eq, HP.
Qed.

(** X9.  When the detector raises on an image, [process_image] logs the
    error against the image and returns no detection; the loop body then
    writes and counts nothing, and goes on. *)
Theorem detector_failure_drops_the_image :
  forall p data counts s,
    read_file w (str p) = Some data ->
    fst (is_image_processed (md5_hexdigest data) s) = Ok false ->
    yolo_model w (str p) CONFIDENCE_THRESHOLD = None ->
    exists s3,
      process_image p s =
      (Ok [], logged (ErrProcessImage (str p) ModelError) s3) /\
      process_one p counts s =
      (Ok counts, logged (ErrProcessImage (str p) ModelError) s3) /\
      image_detections s3 = image_detections s /\
      exists ev,
        emitted s s3 ev /\ In (Inference (str p) CONFIDENCE_THRESHOLD) ev.
Proof.
  intros p data counts s HR HC HY.
  destruct (process_image_stage_raises p data s HR HC ModelError)
    as (s3 & HP & HS); [left; auto|].
  exists s3. split; [exact HP|]. split; [now rewrite process_one_eq, HP|].
  split; [exact HS|].
  destruct (process_image_calls_detector p data s HR HC)
    as (_ & ev & HE & HI & _).
  rewrite HP in HE. unfold emitted in HE. simpl in HE.
  destruct ev as [|e ev]; [destruct HI|].
  simpl in HE. inversion HE as [[E1 E2]]. subst e.
  destruct HI as [HI|HI]; [discriminate HI|].
  exists ev. split; [exact E2|exact HI].
Qed.

(** ** Saving, seen from the loop *)

(** X10.  A save of a non-empty list on an idle connection in which no
    round trip raises (one per row and one for the commit) appends exactly
    the given rows, in order, at the end of the table, logs their number
    and leaves the connection idle; from then on the dedup check finds the
    fingerprint of each saved row whenever its lookup goes through. *)
Theorem saved_rows_are_found_by_the_dedup_check :
  forall ds s,
    ds <> [] ->
    idle s ->
    (forall k, (k <= List.length ds)%nat ->
               db_fault w (db_calls s + k) = false) ->
    save_detections ds s =
    (Ok tt, mkState (image_detections s ++ ds)
                    (S (List.length ds) + db_calls s)
                    (InfoSaved (List.length ds) :: trace s) [] false) /\
    forall d s2,
      In d ds ->
      image_detections s2 = image_detections (snd (save_detections ds s)) ->
      refused s2 = false ->
      fst (is_image_processed (image_hash d) s2) = Ok true.
Proof.
  intros ds s HN [HA HQ] HF.
  pose proof (save_detections_committed ds s HN HA HF) as HS.
  rewrite HQ in HS. simpl in HS.
  split; [exact HS|]. intros d s2 HI HE HL.
  rewrite (is_image_processed_ok _ s2 HL). simpl.
  assert (HC : (0 < count_hash (image_hash d) (image_detections s2))%nat).
  { apply count_hash_positive. exists d. split; [|reflexivity].
    rewrite HE, HS. simpl. apply in_or_app. now right. }
  apply Nat.ltb_lt in HC. now rewrite HC.
Qed.

(** X11.  A failed save is still counted when its rollback goes through:
    if an insert or the commit for the detections of an image raises,
    [save_detections] swallows the error, so the loop body adds one to the
    processed count and the number of detections to the total although no
    row was written.  Only when the rollback raises too does the error
    reach the loop body, which then logs it against the image and leaves
    the counters alone.  Either way the table is the one the image was
    met with. *)
Theorem failed_save_is_counted_unless_rollback_raises :
  forall p counts s ds s1 k,
    process_image p s = (Ok ds, s1) ->
    ds <> [] ->
    (k <= List.length ds)%nat ->
    aborted s1 = false ->
    (forall j, (j < k)%nat -> db_fault w (db_calls s1 + j) = false) ->
    db_fault w (db_calls s1 + k) = true ->
    process_one p counts s =
    if db_fault w (db_calls s1 + k + 1)
    then (Ok counts,
          logged (ErrProcessing (str p) DatabaseError)
            (mkState (image_detections s) (db_calls s1 + k + 2)
                     (ErrSave DatabaseError :: trace s1)
                     (pending s ++ firstn k ds) true))
    else (Ok (S (fst counts), (snd counts + List.length ds)%nat),
          mkState (image_detections s) (db_calls s1 + k + 2)
                  (ErrSave DatabaseError :: trace s1) [] false).
Proof.
  intros p counts s ds s1 k HP HN Hk HA HB HF.
  assert (HS : image_detections s1 = image_detections s).
  { destruct (process_image_result p s) as (? & ? & _ & H & _).
    now rewrite HP in H. }
  assert (HQ : pending s1 = pending s).
  { pose proof (proj1 (process_image_connection p s)) as H.
    now rewrite HP in H. }
  rewrite process_one_eq, HP.
  destruct ds as [|d rest] eqn:E; [contradiction|]. rewrite <- E in *.
  rewrite (save_detections_first_fault ds s1 k HN Hk HA HB HF).
  rewrite HS, HQ.
  destruct (db_fault w (db_calls s1 + k + 1)); reflexivity.
Qed.

(** ** What a run does to the table and what it reports *)

(** X12.  A run only appends: started between two saves, the table it
    leaves starts with the table it found, row for row, and every row it
    adds belongs to an image of the corpus that could be read, carrying
    that image's path string and the fingerprint of its bytes. *)
Theorem runs_only_append_rows_of_corpus_images :
  forall s,
    between_saves s ->
    exists new,
      image_detections (snd (process_all_images s)) =
      image_detections s ++ new /\
      forall d,
        In d new ->
        exists p data,
          In p corpus /\
          read_file w (str p) = Some data /\
          image_path d = str p /\
          image_hash d = md5_hexdigest data.
Proof.
  intros s HW. unfold corpus. destruct (images_dir w) as [| |entries] eqn:D.
  - rewrite (process_all_images_missing s D). exists []. simpl.
    rewrite app_nil_r. split; [reflexivity|]. intros d [].
  - rewrite (process_all_images_unreadable s D). exists []. simpl.
    rewrite app_nil_r. split; [reflexivity|]. intros d [].
  - destruct (process_all_images_listing entries s D)
      as (ev & new & _ & HS & _ & _ & HP).
    exists new. split; [exact (proj1 (HS HW))|]. intros d HI.
    destruct (HP d HI) as (p & ds & HC & HD & HI').
    destruct (produced_built_for p ds HD) as (data & assoc & HR & _ & HB).
    rewrite Forall_forall in HB. destruct (HB d HI') as (H1 & H2 & _).
    exists p, data. auto.
Qed.

Lemma process_one_counts :
  forall p counts s,
    between_saves s ->
    between_saves (snd (process_one p counts s)) /\
    exists counts' new,
      fst (process_one p counts s) = Ok counts' /\
      image_detections (snd (process_one p counts s)) =
      image_detections s ++ new /\
      ((counts' = counts /\ new = []) \/
       exists n,
         (0 < n)%nat /\ (List.length new <= n)%nat /\
         fst counts' = S (fst counts) /\
         snd counts' = (snd counts + n)%nat).
Proof.
  intros p counts s HW0.
  split.
  { destruct (process_one_result p counts s) as (? & ? & ? & _ & H & _).
    exact (proj2 (H HW0)). }
  rewrite process_one_eq.
  destruct (process_image_result p s) as (ds & ev & HR & HS & _).
  pose proof (process_image_between_saves p s HW0) as HW.
  destruct (process_image p s) as [r s1]. simpl in *. subst r.
  destruct ds as [|d ds'].
  { exists counts, []. simpl. rewrite app_nil_r. auto. }
  set (ds := d :: ds') in *.
  assert (HN : ds <> []) by discriminate.
  destruct (save_detections_cases ds s1 HN)
    as [(HO & HA & HT & _)|[(HO & HT & _)|(HO & HT & _)]];
    destruct (save_detections ds s1) as [r s2]; simpl in *; subst r.
  - exists (S (fst counts), (snd counts + List.length ds)%nat), ds.
    cbn [fst snd]. rewrite HT, HS, (HW HA). simpl.
    split; [reflexivity|]. split; [reflexivity|]. right.
    exists (List.length ds). subst ds. simpl. repeat split; lia.
  - exists (S (fst counts), (snd counts + List.length ds)%nat), [].
    cbn [fst snd]. rewrite HT, HS, app_nil_r.
    split; [reflexivity|]. split; [reflexivity|]. right.
    exists (List.length ds). subst ds. simpl. repeat split; lia.
  - exists counts, []. cbn [fst snd logged image_detections].
    rewrite HT, HS, app_nil_r. auto.
Qed.

Lemma for_images_counts :
  forall images counts s,
    between_saves s ->
    exists counts' new,
      fst (for_images images counts s) = Ok counts' /\
      image_detections (snd (for_images images counts s)) =
      image_detections s ++ new /\
      (fst counts <= fst counts')%nat /\
      (fst counts' <= fst counts + List.length images)%nat /\
      (snd counts <= snd counts')%nat /\
      (fst counts' - fst counts <= snd counts' - snd counts)%nat /\
      (List.length new <= snd counts' - snd counts)%nat.
Proof.
  induction images as [|p rest IH]; intros counts s HW; simpl.
  - exists counts, []. simpl. rewrite app_nil_r. repeat split; lia.
  - unfold bind.
    destruct (process_one_counts p counts s HW)
      as (HW1 & c1 & n1 & HR1 & HS1 & HC1).
    destruct (process_one p counts s) as [r s1]. simpl in *. subst r.
    destruct (IH c1 s1 HW1) as (c2 & n2 & HR2 & HS2 & H1 & H2 & H3 & H4 & H5).
    exists c2, (n1 ++ n2). split; [exact HR2|].
    split; [now rewrite HS2, HS1, app_assoc|]. rewrite length_app.
    destruct HC1 as [[-> ->]|(n & Hn & HL & E1 & E2)]; simpl;
      repeat split; lia.
Qed.

Lemma nofault_process_one_counts :
  no_db_faults ->
  forall p counts s,
    idle s ->
    exists counts' new,
      fst (process_one p counts s) = Ok counts' /\
      image_detections (snd (process_one p counts s)) =
      image_detections s ++ new /\
      snd counts' = (snd counts + List.length new)%nat.
Proof.
  intros NF p counts s [HA HQ]. rewrite process_one_eq.
  destruct (process_image_result p s) as (ds & ev & HR & HS & _).
  destruct (process_image_connection p s) as [HP _].
  assert (HA1 : aborted (snd (process_image p s)) = false).
  { destruct (read_file w (str p)) as [data|] eqn:R.
    2:{ now rewrite (process_image_unreadable p s R). }
    destruct (0 <? count_hash (md5_hexdigest data) (image_detections s))%nat
      eqn:C.
    - rewrite (process_image_skipped p data s R);
        rewrite (is_image_processed_ok _ s (nofault_refused NF s HA)); simpl;
        [exact HA|now rewrite C].
    - apply Nat.ltb_ge in C.
      destruct (nofault_process_image_absent NF p data s HA R ltac:(lia))
        as (e & n & -> & _). reflexivity. }
  destruct (process_image p s) as [r s1]. simpl in *. subst r.
  destruct ds as [|d ds'].
  { exists counts, []. simpl. rewrite app_nil_r. auto. }
  rewrite save_detections_committed;
    [|discriminate|exact HA1|intros k _; apply NF].
  eexists. exists (d :: ds'). simpl. rewrite HS, HP, HQ. auto.
Qed.

Lemma nofault_for_images_counts :
  no_db_faults ->
  forall images counts s,
    idle s ->
    exists counts' new,
      fst (for_images images counts s) = Ok counts' /\
      image_detections (snd (for_images images counts s)) =
      image_detections s ++ new /\
      snd counts' = (snd counts + List.length new)%nat.
Proof.
  intros NF. induction images as [|p rest IH]; intros counts s HI0; simpl.
  - exists counts, []. simpl. rewrite app_nil_r. auto.
  - unfold bind.
    destruct (nofault_process_one_counts NF p counts s HI0)
      as (c1 & n1 & HR1 & HS1 & HC1).
    pose proof (proj1 (nofault_process_one NF p counts s HI0)) as HI1.
    destruct (process_one p counts s) as [r s1]. simpl in *. subst r.
    destruct (IH c1 s1 HI1) as (c2 & n2 & HR2 & HS2 & HC2).
    exists c2, (n1 ++ n2). split; [exact HR2|].
    split; [now rewrite HS2, HS1, app_assoc|]. rewrite length_app. lia.
Qed.

(** X13.  The closing line of a run over a non-empty corpus, started
    between two saves, is sound as a bound: the processed count is at most
    the number of images found and at most the total of detections, and
    the total is at least the number of rows the run wrote.  When no
    database round trip raises, the first included, the total is exactly
    the number of rows written. *)
Theorem closing_counts_bound_the_rows_written :
  forall entries s,
    images_dir w = Listing entries ->
    images_of entries <> [] ->
    between_saves s ->
    exists processed_count total_detections new rest,
      trace (snd (process_all_images s)) =
      InfoComplete processed_count (List.length (images_of entries))
                   total_detections :: rest /\
      image_detections (snd (process_all_images s)) =
      image_detections s ++ new /\
      (processed_count <= List.length (images_of entries))%nat /\
      (processed_count <= total_detections)%nat /\
      (List.length new <= total_detections)%nat /\
      (no_db_faults -> aborted s = false ->
       total_detections = List.length new).
Proof.
  intros entries s D HN HW. unfold process_all_images, find_images. rewrite D.
  fold (images_of entries). unfold_proc.
  destruct (images_of entries) as [|p rest] eqn:E; [contradiction|].
  rewrite <- E. clear E HN.
  set (n := List.length (images_of entries)).
  set (s0 := logged (InfoFoundImages n) s).
  assert (HW0 : between_saves s0) by exact HW.
  destruct (for_images_counts (images_of entries) (0%nat, 0%nat) s0 HW0)
    as (c & new & HR & HS & H1 & H2 & H3 & H4 & H5).
  assert (HX : no_db_faults -> aborted s = false -> snd c = List.length new).
  { intros NF HA.
    assert (HI0 : idle s0) by (split; [exact HA|exact (HW HA)]).
    destruct (nofault_for_images_counts NF (images_of entries)
                (0%nat, 0%nat) s0 HI0) as (c' & new' & HR' & HS' & HC').
    rewrite HR in HR'. inversion HR'; subst c'.
    rewrite HS in HS'. apply app_inv_head in HS'. subst new'.
    simpl in HC'. exact HC'. }
  destruct (for_images (images_of entries) (0%nat, 0%nat) s0) as [r s1].
  simpl in *. subst r. simpl.
  exists (fst c), (snd c), new, (trace s1).
  split; [reflexivity|]. split; [exact HS|]. fold n in H2.
  repeat split; try lia. exact HX.
Qed.

(** ** One image per fingerprint *)

Lemma detections_of_path :
  forall p h, Forall (fun d => image_path d = str p) (detections_of p h).
Proof.
  intros p h. unfold detections_of.
  destruct (yolo_model w (str p) CONFIDENCE_THRESHOLD) as [results|];
    [|constructor].
  destruct (for_results p h (fst (association p)) (snd (association p))
              results []) as [ds|e] eqn:F; [|constructor].
  apply for_results_ok in F. destruct F as (built & -> & _ & HB). simpl.
  eapply Forall_impl; [|exact HB]. intros d (H & _). exact H.
Qed.

Lemma store_run_one_image_per_fingerprint :
  forall images store,
    exists new,
      store_run images store = store ++ new /\
      (forall d, In d new -> count_hash (image_hash d) store = 0%nat) /\
      (forall d1 d2,
         In d1 new -> In d2 new ->
         image_hash d1 = image_hash d2 -> image_path d1 = image_path d2).
Proof.
  induction images as [|p rest IH]; intros store.
  { exists []. simpl. rewrite app_nil_r. repeat split; intros; contradiction. }
  unfold store_run. simpl. fold (store_run rest (store_step p store)).
  destruct (IH (store_step p store)) as (new2 & HS2 & HA2 & HB2).
  unfold store_step in *.
  destruct (read_file w (str p)) as [data|]; [|now exists new2].
  destruct (0 <? count_hash (md5_hexdigest data) store)%nat eqn:C;
    [now exists new2|].
  apply Nat.ltb_ge in C.
  pose proof (detections_of_hash p (md5_hexdigest data)) as HH.
  pose proof (detections_of_path p (md5_hexdigest data)) as HP.
  set (n1 := detections_of p (md5_hexdigest data)) in *.
  rewrite Forall_forall in HH, HP.
  exists (n1 ++ new2). split; [now rewrite HS2, app_assoc|]. split.
  - intros d HI. apply in_app_or in HI. destruct HI as [HI|HI].
    + rewrite (HH d HI). lia.
    + specialize (HA2 d HI). rewrite count_hash_app in HA2. lia.
  - intros d1 d2 H1 H2 HE.
    apply in_app_or in H1. apply in_app_or in H2.
    assert (HX : forall a b, In a n1 -> In b new2 ->
                             image_hash a = image_hash b -> False).
    { intros a b Ha Hb E. specialize (HA2 b Hb).
      rewrite count_hash_app in HA2.
      assert ((0 < count_hash (image_hash b) n1)%nat).
      { apply count_hash_positive. exists a. auto. }
      lia. }
    destruct H1 as [H1|H1], H2 as [H2|H2].
    + now rewrite (HP d1 H1), (HP d2 H2).
    + exfalso. exact (HX d1 d2 H1 H2 HE).
    + exfalso. exact (HX d2 d1 H2 H1 (eq_sym HE)).
    + exact (HB2 d1 d2 H1 H2 HE).
Qed.

(** X14.  When no database round trip raises, the first on an idle
    connection included, a run never adds rows to a fingerprint the table
    already has, and all the rows it adds for one fingerprint come from a
    single image path: of several files with the same bytes only one
    leaves rows. *)
Theorem one_image_per_fingerprint_without_faults :
  no_db_faults ->
  forall s,
    idle s ->
    exists new,
      image_detections (snd (process_all_images s)) =
      image_detections s ++ new /\
      (forall d,
         In d new ->
         count_hash (image_hash d) (image_detections s) = 0%nat) /\
      (forall d1 d2,
         In d1 new -> In d2 new ->
         image_hash d1 = image_hash d2 -> image_path d1 = image_path d2).
Proof.
  intros NF s HI. destruct (nofault_process_all_images NF s HI) as (_ & HS & _).
  rewrite HS. apply store_run_one_image_per_fingerprint.
Qed.

(** ** Grouping and ordering *)

Lemma count_occ_classes :
  forall table k,
    count_occ string_dec (classes_of table) k = count_class k table.
Proof.
  intros table k. unfold classes_of, count_class.
  induction table as [|d rest IH]; [reflexivity|]. simpl.
  destruct (string_dec (detected_object_class d) k) as [E|NE].
  - apply String.eqb_eq in E. rewrite E. simpl. now rewrite IH.
  - apply String.eqb_neq in NE. now rewrite NE.
Qed.

Lemma count_occ_channels :
  forall table c,
    count_occ string_dec (channels_of table) c = count_channel c table.
Proof.
  intros table c. unfold channels_of, count_channel.
  induction table as [|d rest IH]; [reflexivity|]. simpl.
  destruct (channel_name d) as [c'|]; [|exact IH]. simpl.
  destruct (string_dec c' c) as [E|NE].
  - apply String.eqb_eq in E. rewrite E. simpl. now rewrite IH.
  - apply String.eqb_neq in NE. now rewrite NE.
Qed.

Lemma length_channels_of :
  forall table, List.length (channels_of table) = count_with_channel table.
Proof.
  intros table. unfold channels_of, count_with_channel.
  induction table as [|d rest IH]; [reflexivity|]. simpl.
  destruct (channel_name d); simpl; now rewrite IH.
Qed.

Lemma group_count_keys :
  forall keys, map fst (group_count keys) = nodup string_dec keys.
Proof.
  intros keys. unfold group_count. rewrite map_map. simpl. apply map_id.
Qed.

Lemma group_count_In :
  forall keys k n,
    In (k, n) (group_count keys) <->
    In k keys /\ n = count_occ string_dec keys k.
Proof.
  intros keys k n. unfold group_count. rewrite in_map_iff. split.
  - intros (k' & E & HI). inversion E; subst. apply nodup_In in HI. auto.
  - intros [HI ->]. exists k. split; [reflexivity|now apply nodup_In].
Qed.

Lemma indicator_sum_one :
  forall (a : string) l,
    NoDup l -> In a l ->
    list_sum (map (fun k => if string_dec a k then 1 else 0)%nat l) = 1%nat.
Proof.
  intros a l ND. induction ND as [|x l HN ND IH]; intros HI; [destruct HI|].
  simpl. destruct (string_dec a x) as [->|NE].
  - assert (Z : list_sum (map (fun k => if string_dec x k then 1 else 0)%nat l)
                = 0%nat).
    { clear IH HI ND. induction l as [|y l IH]; [reflexivity|]. simpl.
      destruct (string_dec x y) as [->|_].
      - exfalso. apply HN. now left.
      - apply IH. intros H. apply HN. now right. }
    now rewrite Z.
  - destruct HI as [->|HI]; [contradiction|]. now rewrite IH.
Qed.

Lemma count_sum_over_cover :
  forall keys l,
    NoDup l -> (forall k, In k keys -> In k l) ->
    list_sum (map (count_occ string_dec keys) l) = List.length keys.
Proof.
  induction keys as [|a keys IH]; intros l ND HC.
  - clear HC ND. simpl. induction l as [|x l IHl]; [reflexivity|].
    simpl. exact IHl.
  - assert (E : map (count_occ string_dec (a :: keys)) l =
                map (fun k => ((if string_dec a k then 1 else 0)
                               + count_occ string_dec keys k)%nat) l).
    { apply map_ext. intros k. simpl. now destruct (string_dec a k). }
    rewrite E.
    assert (S : forall (f g : string -> nat) l',
               list_sum (map (fun k => (f k + g k)%nat) l') =
               (list_sum (map f l') + list_sum (map g l'))%nat).
    { intros f g l'. induction l' as [|x l' IHl]; [reflexivity|].
      simpl. rewrite IHl. lia. }
    rewrite S, indicator_sum_one, IH; auto.
    + intros k HK. apply HC. now right.
    + apply HC. now left.
Qed.

(** The counts of a grouping add up to the number of keys grouped. *)
Lemma group_count_total :
  forall keys, list_sum (map snd (group_count keys)) = List.length keys.
Proof.
  intros keys. unfold group_count. rewrite map_map. simpl.
  apply count_sum_over_cover; [apply NoDup_nodup|].
  intros k HK. now apply nodup_In.
Qed.

Lemma by_count_desc_trans : Relations_1.Transitive by_count_desc.
Proof.
  intros x y z H1 H2. unfold by_count_desc in *. lia.
Qed.

Lemma StronglySorted_app_inv :
  forall (R : string * nat -> string * nat -> Prop) l1 l2,
    StronglySorted R (l1 ++ l2) ->
    StronglySorted R l1 /\
    forall x y, In x l1 -> In y l2 -> R x y.
Proof.
  intros R l1 l2. induction l1 as [|a l1 IH]; intros H; simpl in H.
  - split; [constructor|]. intros x y [].
  - inversion H as [|? ? HS HF]; subst. destruct (IH HS) as [IH1 IH2].
    rewrite Forall_app in HF. destruct HF as [HF1 HF2]. split.
    + now constructor.
    + intros x y [<-|HX] HY.
      * rewrite Forall_forall in HF2. now apply HF2.
      * now apply IH2.
Qed.

(** The first ten of an ordered grouping. *)
Lemma first_ten_of_grouping :
  forall keys,
    let top := firstn 10 (order_by_count (group_count keys)) in
    (List.length top <= 10)%nat /\
    NoDup (map fst top) /\
    Sorted by_count_desc top /\
    (forall k n,
       In (k, n) top ->
       In k keys /\ n = count_occ string_dec keys k /\ (0 < n)%nat) /\
    (forall k n k',
       In (k, n) top -> ~ In k' (map fst top) ->
       (count_occ string_dec keys k' <= n)%nat).
Proof.
  intros keys top.
  set (g := group_count keys) in *. set (o := order_by_count g) in *.
  pose proof (order_by_count_permutes g) as HP. fold o in HP.
  pose proof (order_by_count_sorts g) as HS. fold o in HS.
  apply (Sorted_StronglySorted by_count_desc_trans) in HS.
  pose proof (firstn_skipn 10 o) as HO. fold top in HO.
  rewrite <- HO in HS. apply StronglySorted_app_inv in HS.
  destruct HS as [HS1 HS2].
  assert (ND : NoDup (map fst o)).
  { apply (Permutation_NoDup (Permutation_map fst HP)).
    unfold g. rewrite group_count_keys. apply NoDup_nodup. }
  assert (HIn : forall k n, In (k, n) o ->
                In k keys /\ n = count_occ string_dec keys k).
  { intros k n HI. apply (Permutation_in _ (Permutation_sym HP)) in HI.
    now apply group_count_In in HI. }
  assert (HT : forall x, In x top -> In x o)
    by (intros x HI; rewrite <- HO; apply in_or_app; now left).
  split; [apply firstn_le_length|]. split; [|split; [|split]].
  - rewrite <- HO, map_app in ND. now apply NoDup_app_remove_r in ND.
  - now apply StronglySorted_Sorted.
  - intros k n HI. destruct (HIn k n (HT _ HI)) as [HK ->].
    repeat split; auto. now apply (count_occ_In string_dec).
  - intros k n k' HI HN.
    destruct (Nat.eq_dec (count_occ string_dec keys k') 0) as [->|NZ];
      [lia|].
    assert (HK : In k' keys) by (apply (count_occ_In string_dec); lia).
    assert (HG : In (k', count_occ string_dec keys k') o).
    { apply (Permutation_in _ HP). now apply group_count_In. }
    rewrite <- HO in HG. apply in_app_or in HG. destruct HG as [HG|HG].
    + exfalso. apply HN. apply in_map_iff. now exists (k', count_occ string_dec keys k').
    + exact (HS2 _ _ HI HG).
Qed.

(** ** The script *)

Ltac unfold_script :=
  unfold attempt, and_then, fail, note, on_core in *.

Lemma connect_db_eq :
  forall x,
    connect_db x =
    if db_reachable host
    then (Ok tt,
          noted InfoConnected
            (mkSession Connected (model_loaded x) (core x) (journal x)))
    else (Raise DatabaseError, noted (ErrConnection DatabaseError) x).
Proof.
  intros x. unfold connect_db. unfold_script.
  destruct (db_reachable host); reflexivity.
Qed.

Lemma initialize_yolo_eq :
  forall x,
    initialize_yolo x =
    if weights_loadable host
    then (Ok tt,
          noted InfoModelLoaded
            (mkSession (db_conn x) true (core x)
                       (InfoLoadingModel :: journal x)))
    else (Raise ModelError,
          noted (ErrLoadModel ModelError) (noted InfoLoadingModel x)).
Proof.
  intros x. unfold initialize_yolo. unfold_script. simpl.
  destruct (weights_loadable host); reflexivity.
Qed.

Lemma create_detection_table_eq :
  forall x,
    create_detection_table x =
    if refused (core x)
    then (Raise DatabaseError,
          noted (ErrCreateTable DatabaseError)
            (with_core x (failed (ticks 1 (core x)))))
    else if db_fault w (S (db_calls (core x)))
    then (Raise DatabaseError,
          noted (ErrCreateTable DatabaseError)
            (with_core x (failed (ticks 2 (core x)))))
    else (Ok tt,
          noted InfoTableReady (with_core x (committed (ticks 2 (core x))))).
Proof.
  intros x. unfold create_detection_table. unfold_script. unfold_proc.
  unfold refused. destruct (aborted (core x)) eqn:A; [reflexivity|].
  cbn [orb]. destruct (db_fault w (db_calls (core x))); [reflexivity|].
  unfold commit. cbn [ticked db_calls aborted]. rewrite A.
  destruct (db_fault w (S (db_calls (core x)))); reflexivity.
Qed.

Lemma get_detection_summary_eq :
  forall x,
    get_detection_summary x =
    if refused (core x)
    then (Ok tt,
          noted (ErrSummary DatabaseError)
            (with_core x (failed (ticks 1 (core x)))))
    else if db_fault w (S (db_calls (core x)))
    then (Ok tt,
          noted (ErrSummary DatabaseError)
            (with_core x (failed (ticks 2 (core x)))))
    else if db_fault w (S (S (db_calls (core x))))
    then (Ok tt,
          noted (ErrSummary DatabaseError)
            (with_core x (failed (ticks 3 (core x)))))
    else (Ok tt,
          noted (InfoSummary (List.length (image_detections (core x)))
                             (top_objects (image_detections (core x)))
                             (by_channel (image_detections (core x))))
            (with_core x (ticks 3 (core x)))).
Proof.
  intros x. unfold get_detection_summary. unfold_script. unfold_proc.
  unfold refused. destruct (aborted (core x)) eqn:A; [reflexivity|].
  cbn [orb]. destruct (db_fault w (db_calls (core x))); [reflexivity|].
  cbn [ticked db_calls aborted]. rewrite A. cbn [orb].
  destruct (db_fault w (S (db_calls (core x)))); [reflexivity|].
  cbn [ticked db_calls aborted]. rewrite A. cbn [orb].
  destruct (db_fault w (S (S (db_calls (core x))))); reflexivity.
Qed.

(** X15.  The summary never fails the script and never writes: whatever
    the three queries do, [get_detection_summary] returns normally, leaves
    table and pipeline trace as they were and neither closes nor replaces
    the connection.  If one of the queries raises (the first does when the
    transaction has failed before), the only thing logged is one error
    line; if none does, one summary is logged, with the number of rows of
    the table as total. *)
Theorem summary_never_raises_nor_writes :
  forall x,
    fst (get_detection_summary x) = Ok tt /\
    image_detections (core (snd (get_detection_summary x))) =
    image_detections (core x) /\
    trace (core (snd (get_detection_summary x))) = trace (core x) /\
    db_conn (snd (get_detection_summary x)) = db_conn x /\
    (aborted (core x) = true \/
     (exists k, (k < 3)%nat /\ db_fault w (db_calls (core x) + k) = true) ->
     journal (snd (get_detection_summary x)) =
     ErrSummary DatabaseError :: journal x) /\
    (aborted (core x) = false ->
     (forall k, (k < 3)%nat -> db_fault w (db_calls (core x) + k) = false) ->
     journal (snd (get_detection_summary x)) =
     InfoSummary (List.length (image_detections (core x)))
                 (top_objects (image_detections (core x)))
                 (by_channel (image_detections (core x))) :: journal x).
Proof.
  intros x. rewrite get_detection_summary_eq. unfold refused.
  pose proof (Nat.add_0_r (db_calls (core x))) as E0.
  assert (E1 : (db_calls (core x) + 1 = S (db_calls (core x)))%nat) by lia.
  assert (E2 : (db_calls (core x) + 2 = S (S (db_calls (core x))))%nat) by lia.
  destruct (aborted (core x)) eqn:A.
  { simpl. do 4 (split; [reflexivity|]). split; [reflexivity|].
    intros H. discriminate H. }
  cbn [orb].
  destruct (db_fault w (db_calls (core x))) eqn:F0.
  { simpl. do 4 (split; [reflexivity|]). split; [reflexivity|].
    intros _ H. specialize (H 0%nat ltac:(lia)). congruence. }
  destruct (db_fault w (S (db_calls (core x)))) eqn:F1.
  { simpl. do 4 (split; [reflexivity|]). split; [reflexivity|].
    intros _ H. specialize (H 1%nat ltac:(lia)). congruence. }
  destruct (db_fault w (S (S (db_calls (core x))))) eqn:F2.
  { simpl. do 4 (split; [reflexivity|]). split; [reflexivity|].
    intros _ H. specialize (H 2%nat ltac:(lia)). congruence. }
  simpl. do 4 (split; [reflexivity|]). split; [|reflexivity].
  intros [H|(k & Hk & HF)]; [discriminate H|].
  assert (HK : (k = 0 \/ k = 1 \/ k = 2)%nat) by lia.
  destruct HK as [E|[E|E]]; subst k; congruence.
Qed.

(** X16.  The list of top objects in a logged summary has at most ten
    entries, one per class and no class twice, in non-increasing order of
    count; each count is the number of rows of that class and is positive;
    and no class left out has more rows than a class listed. *)
Theorem summary_lists_the_most_frequent_classes :
  forall x total top channels,
    journal (snd (get_detection_summary x)) =
    InfoSummary total top channels :: journal x ->
    total = List.length (image_detections (core x)) /\
    (List.length top <= 10)%nat /\
    NoDup (map fst top) /\
    Sorted by_count_desc top /\
    (forall k n,
       In (k, n) top ->
       n = count_class k (image_detections (core x)) /\ (0 < n)%nat) /\
    (forall k n k',
       In (k, n) top -> ~ In k' (map fst top) ->
       (count_class k' (image_detections (core x)) <= n)%nat).
Proof.
  intros x total top channels H.
  rewrite get_detection_summary_eq in H.
  destruct (refused (core x));
    [simpl in H; inversion H|].
  destruct (db_fault w (S (db_calls (core x))));
    [simpl in H; inversion H|].
  destruct (db_fault w (S (S (db_calls (core x)))));
    [simpl in H; inversion H|].
  simpl in H. inversion H as [[E1 E2 E3]]. clear H E3.
  split; [reflexivity|].
  destruct (first_ten_of_grouping (classes_of (image_detections (core x))))
    as (H1 & H2 & H3 & H4 & H5).
  fold (top_objects (image_detections (core x))) in H1, H2, H3, H4, H5.
  split; [exact H1|]. split; [exact H2|]. split; [exact H3|]. split.
  - intros k n HI. destruct (H4 k n HI) as (_ & -> & HP).
    rewrite count_occ_classes in *. auto.
  - intros k n k' HI HN. rewrite <- count_occ_classes. exact (H5 k n k' HI HN).
Qed.

(** X17.  The per-channel list of a logged summary has one entry per
    channel that occurs in the table and no channel twice, in
    non-increasing order of count; each count is the number of rows of that
    channel; rows without a channel are left out, so the counts add up to
    the number of rows that have a channel. *)
Theorem summary_counts_rows_per_channel :
  forall x total top channels,
    journal (snd (get_detection_summary x)) =
    InfoSummary total top channels :: journal x ->
    NoDup (map fst channels) /\
    Sorted by_count_desc channels /\
    (forall c n,
       In (c, n) channels <->
       n = count_channel c (image_detections (core x)) /\ (0 < n)%nat) /\
    list_sum (map snd channels) =
    count_with_channel (image_detections (core x)) /\
    (list_sum (map snd channels) <= total)%nat.
Proof.
  intros x total top channels H.
  rewrite get_detection_summary_eq in H.
  destruct (refused (core x));
    [simpl in H; inversion H|].
  destruct (db_fault w (S (db_calls (core x))));
    [simpl in H; inversion H|].
  destruct (db_fault w (S (S (db_calls (core x)))));
    [simpl in H; inversion H|].
  simpl in H. inversion H as [[E1 E2 E3]]. clear H E2.
  unfold by_channel.
  set (table := image_detections (core x)) in *.
  set (g := group_count (channels_of table)).
  pose proof (order_by_count_permutes g) as HP.
  assert (HS : list_sum (map snd (order_by_count g)) =
               count_with_channel table).
  { rewrite <- (Permutation_list_sum (Permutation_map snd HP)).
    unfold g. rewrite group_count_total. apply length_channels_of. }
  split; [|split; [|split; [|split]]].
  - apply (Permutation_NoDup (Permutation_map fst HP)).
    unfold g. rewrite group_count_keys. apply NoDup_nodup.
  - apply order_by_count_sorts.
  - intros c n. split.
    + intros HI. apply (Permutation_in _ (Permutation_sym HP)) in HI.
      apply group_count_In in HI. destruct HI as [HI ->].
      rewrite <- count_occ_channels. split; [reflexivity|].
      now apply (count_occ_In string_dec).
    + intros [-> HN]. apply (Permutation_in _ HP). apply group_count_In.
      rewrite <- count_occ_channels in *. split; [|reflexivity].
      now apply (count_occ_In string_dec).
  - exact HS.
  - rewrite HS. unfold count_with_channel. apply filter_length_le.
Qed.

Lemma process_all_images_outcome :
  forall s,
    fst (process_all_images s) =
    match images_dir w with
    | Unreadable => Raise OSError
    | _ => Ok tt
    end.
Proof.
  intros s. destruct (images_dir w) as [| |entries] eqn:D.
  - now rewrite (process_all_images_missing s D).
  - now rewrite (process_all_images_unreadable s D).
  - destruct (process_all_images_listing entries s D) as (? & ? & H & _).
    exact H.
Qed.

Lemma on_core_process_all_images :
  forall x,
    exists c,
      on_core process_all_images x =
      (match images_dir w with
       | Unreadable => Raise OSError
       | _ => Ok tt
       end, with_core x c) /\
      (images_dir w = Unreadable -> c = core x).
Proof.
  intros x. unfold on_core.
  pose proof (process_all_images_outcome (core x)) as H.
  destruct (process_all_images (core x)) as [r c] eqn:E. simpl in H.
  exists c. subst r. split; [reflexivity|].
  intros D. rewrite (process_all_images_unreadable (core x) D) in E.
  now inversion E.
Qed.

Lemma summary_result :
  forall x, fst (get_detection_summary x) = Ok tt.
Proof.
  intros x. rewrite get_detection_summary_eq.
  repeat match goal with |- context [if ?b then _ else _] => destruct b end;
    reflexivity.
Qed.

Lemma summary_frame :
  forall x,
    fst (get_detection_summary x) = Ok tt /\
    db_conn (snd (get_detection_summary x)) = db_conn x.
Proof.
  intros x. rewrite get_detection_summary_eq.
  repeat match goal with |- context [if ?b then _ else _] => destruct b end;
    split; reflexivity.
Qed.

Lemma close_eq :
  forall x,
    snd (close x) =
    match db_conn x with
    | NoConnection => x
    | _ =>
        noted InfoClosed
          (mkSession ClosedConnection (model_loaded x) (core x) (journal x))
    end.
Proof.
  intros x. unfold close. now destruct (db_conn x).
Qed.

(** The [try] block of [main], step by step. *)
Lemma main_steps_eq :
  forall x0,
    let x1 := noted InfoConnected
                (mkSession Connected (model_loaded x0) (core x0)
                           (journal x0)) in
    let x2 := noted InfoModelLoaded
                (mkSession Connected true (core x0)
                           (InfoLoadingModel :: journal x1)) in
    main_steps x0 =
    if db_reachable host then
      if weights_loadable host then
        if refused (core x0) then
          (Raise DatabaseError,
           noted (ErrCreateTable DatabaseError)
             (with_core x2 (failed (ticks 1 (core x0)))))
        else if db_fault w (S (db_calls (core x0))) then
          (Raise DatabaseError,
           noted (ErrCreateTable DatabaseError)
             (with_core x2 (failed (ticks 2 (core x0)))))
        else
          match on_core process_all_images
                  (noted InfoTableReady
                     (with_core x2 (committed (ticks 2 (core x0)))))
          with
          | (Ok _, x4) => get_detection_summary x4
          | (Raise e, x4) => (Raise e, x4)
          end
      else
        (Raise ModelError,
         noted (ErrLoadModel ModelError) (noted InfoLoadingModel x1))
    else (Raise DatabaseError, noted (ErrConnection DatabaseError) x0).
Proof.
  intros x0 x1 x2. unfold main_steps.
  unfold and_then at 1. rewrite connect_db_eq.
  destruct (db_reachable host); [|reflexivity].
  unfold and_then at 1. rewrite initialize_yolo_eq.
  destruct (weights_loadable host); [|reflexivity].
  unfold and_then at 1. rewrite create_detection_table_eq.
  cbn [core noted db_calls].
  destruct (refused (core x0)); [reflexivity|].
  destruct (db_fault w (S (db_calls (core x0)))); [reflexivity|].
  reflexivity.
Qed.

(** X18.  [main] exits with 0 or 1, and with 0 exactly when the database
    could be reached, the model could be loaded, the two round trips of the
    table set-up went through and the corpus root could be walked (or was
    missing).  Nothing that fails for a single image, and no failure of the
    summary, changes the exit code. *)
Theorem main_exit_code :
  forall table,
    (fst (main table) = 0%Z \/ fst (main table) = 1%Z) /\
    (fst (main table) = 0%Z <->
     db_reachable host = true /\
     weights_loadable host = true /\
     db_fault w 0 = false /\
     db_fault w 1 = false /\
     images_dir w <> Unreadable).
Proof.
  intros table. unfold main. rewrite main_steps_eq.
  unfold refused. cbn [new_processor core db_calls aborted orb].
  destruct (db_reachable host).
  2:{ simpl. split; [now right|]. split; [discriminate|].
      intros (H & _). discriminate H. }
  destruct (weights_loadable host).
  2:{ simpl. split; [now right|]. split; [discriminate|].
      intros (_ & H & _). discriminate H. }
  destruct (db_fault w 0).
  { simpl. split; [now right|]. split; [discriminate|].
    intros (_ & _ & H & _). discriminate H. }
  destruct (db_fault w 1).
  { simpl. split; [now right|]. split; [discriminate|].
    intros (_ & _ & _ & H & _). discriminate H. }
  match goal with |- context [on_core process_all_images ?y] =>
    destruct (on_core_process_all_images y) as (c & HC & _) end.
  rewrite HC. clear HC.
  destruct (images_dir w) as [| |entries].
  - match goal with |- context [get_detection_summary ?y] =>
      pose proof (summary_result y) as HS;
      destruct (get_detection_summary y) as [r x5] end.
    simpl in HS. subst r. simpl. split; [now left|].
    split; [|reflexivity]. intros _. repeat split; discriminate.
  - simpl. split; [now right|]. split; [discriminate|].
    intros (_ & _ & _ & _ & H). now contradiction H.
  - match goal with |- context [get_detection_summary ?y] =>
      pose proof (summary_result y) as HS;
      destruct (get_detection_summary y) as [r x5] end.
    simpl in HS. subst r. simpl. split; [now left|].
    split; [|reflexivity]. intros _. repeat split; discriminate.
Qed.

(** X19.  [main] closes the connection it opened and opens nothing it
    cannot use: when the database was reached, the processor is left with a
    closed connection and the closing line is the last one logged, on every
    path; when it was not reached, nothing else is attempted: no model is
    loaded, no round trip is made, and the log holds the connection error
    and the failure line only.  Whenever a set-up step fails, the table is
    left as it was and the pipeline has logged nothing: no image was
    touched. *)
Theorem main_closes_the_connection_it_opened :
  forall table,
    (db_reachable host = true ->
     db_conn (snd (main table)) = ClosedConnection /\
     hd_error (journal (snd (main table))) = Some InfoClosed) /\
    (db_reachable host = false ->
     snd (main table) =
     mkSession NoConnection false (mkState table 0 [] [] false)
               [ErrMain DatabaseError; ErrConnection DatabaseError]) /\
    (db_reachable host = false \/ weights_loadable host = false \/
     db_fault w 0 = true \/ db_fault w 1 = true ->
     image_detections (core (snd (main table))) = table /\
     trace (core (snd (main table))) = []).
Proof.
  intros table. unfold main. rewrite main_steps_eq.
  unfold refused. cbn [new_processor core db_calls aborted orb].
  destruct (db_reachable host).
  2:{ simpl. split; [discriminate|]. split; [reflexivity|]. auto. }
  split; [intros _|split; [discriminate|]].
  - destruct (weights_loadable host); [|simpl; auto].
    destruct (db_fault w 0); [simpl; auto|].
    destruct (db_fault w 1); [simpl; auto|].
    match goal with |- context [on_core process_all_images ?y] =>
      destruct (on_core_process_all_images y) as (c & HC & _) end.
    rewrite HC. clear HC.
    destruct (images_dir w) as [| |entries]; try (simpl; auto; fail);
      match goal with |- context [get_detection_summary ?y] =>
        pose proof (summary_frame y) as HS;
        destruct (get_detection_summary y) as [r x5] end;
      simpl in HS; destruct HS as (-> & HS); simpl in HS; simpl;
      rewrite close_eq, HS; simpl; auto.
  - intros [H|[H|[H|H]]]; [discriminate H| | |].
    + rewrite H. simpl. auto.
    + destruct (weights_loadable host); [|simpl; auto].
      rewrite H. simpl. auto.
    + destruct (weights_loadable host); [|simpl; auto].
      destruct (db_fault w 0); [simpl; auto|].
      rewrite H. simpl. auto.
Qed.

(** ** Letter case in the extension test *)

Lemma lower_char_dot :
  forall a, Ascii.eqb (lower_char a) "."%char = Ascii.eqb a "."%char.
Proof.
  intros a. destruct a as [[] [] [] [] [] [] [] []]; reflexivity.
Qed.

Lemma length_lower :
  forall s, String.length (lower s) = String.length s.
Proof.
  induction s as [|c s IH]; simpl; [reflexivity|now rewrite IH].
Qed.

Lemma rfind_from_lower :
  forall s i found,
    rfind_from "."%char (lower s) i found = rfind_from "."%char s i found.
Proof.
  induction s as [|c s IH]; intros i found; simpl; [reflexivity|].
  now rewrite lower_char_dot, IH.
Qed.

Lemma split_point_lower :
  forall nm, split_point (lower nm) = split_point nm.
Proof.
  intros nm. unfold split_point, rfind.
  now rewrite rfind_from_lower, length_lower.
Qed.

Lemma substring_lower :
  forall s i n, substring i n (lower s) = lower (substring i n s).
Proof.
  induction s as [|c s IH]; intros i n.
  - destruct i, n; reflexivity.
  - destruct i as [|i].
    + destruct n as [|n]; [reflexivity|]. simpl. now rewrite IH.
    + simpl. apply IH.
Qed.

(** The lowercased suffix is the suffix of the lowercased name. *)
Lemma lower_suffix :
  forall p,
    lower (suffix p) =
    match split_point (lower (name p)) with
    | Some i =>
        substring i (String.length (lower (name p)) - i) (lower (name p))
    | None => EmptyString
    end.
Proof.
  intros p. unfold suffix. rewrite split_point_lower, length_lower.
  destruct (split_point (name p)) as [i|]; [|reflexivity].
  now rewrite substring_lower.
Qed.

(** X20.  The extension test of [find_images] does not see letter case:
    two entries whose names differ only in the case of their letters are
    both images or both not, whatever the case of the rest of the name. *)
Theorem image_test_ignores_letter_case :
  forall p q b,
    lower (name p) = lower (name q) ->
    is_image (p, b) = is_image (q, b).
Proof.
  intros p q b H. unfold is_image. cbn [fst snd].
  now rewrite (lower_suffix p), (lower_suffix q), H.
Qed.

(** ** A failed correlation query costs the image its rows *)

(** X21.  When the lookup of the dedup check goes through and finds no
    row, and the query of the message store then raises for an image that
    has a known channel and a digit run, the correlator answers no channel
    and no message identifier and the detector is still called; but the
    failed query has left the transaction failed, so the first insert
    raises, the save is rolled back and nothing of the image is stored.
    When the rollback goes through the image is counted as processed all
    the same; and with no row for its fingerprint it is sent to the
    detector again by any later run that starts from this table. *)
Theorem failed_query_loses_the_image :
  forall p data channel digits counts s ds s1,
    read_file w (str p) = Some data ->
    scan_parts p = Some channel ->
    re_search_digits (stem p) = Some digits ->
    refused s = false ->
    count_hash (md5_hexdigest data) (image_detections s) = 0%nat ->
    db_fault w (S (db_calls s)) = true ->
    process_image p s = (Ok ds, s1) ->
    ds <> [] ->
    Forall (fun d => message_id d = None /\ channel_name d = None) ds /\
    aborted s1 = true /\
    process_one p counts s =
    (if db_fault w (S (db_calls s1))
     then (Ok counts,
           logged (ErrProcessing (str p) DatabaseError)
             (mkState (image_detections s) (S (S (db_calls s1)))
                      (ErrSave DatabaseError :: trace s1) (pending s) true))
     else (Ok (S (fst counts), (snd counts + List.length ds)%nat),
           mkState (image_detections s) (S (S (db_calls s1)))
                   (ErrSave DatabaseError :: trace s1) [] false)) /\
    image_detections (snd (process_one p counts s)) = image_detections s /\
    forall s2,
      image_detections s2 = image_detections (snd (process_one p counts s)) ->
      exists ev,
        emitted s2 (snd (process_image p s2)) ev /\
        In (Inference (str p) CONFIDENCE_THRESHOLD) ev /\
        ~ In (InfoSkipping (name p)) ev.
Proof.
  intros p data channel digits counts s ds s1 HR HS HD F0 HC F1 HP HN.
  pose proof (is_image_processed_absent _ s HC) as HB.
  destruct (process_image_inferred p data s HR HB) as (assoc & HM & HQ).
  simpl in HM, HQ.
  rewrite (is_image_processed_ok _ s F0) in HM, HQ. simpl in HM, HQ.
  assert (F1' : refused (ticked s) = true).
  { unfold refused. simpl. rewrite F1. apply orb_true_r. }
  rewrite get_message_id_for_image_eq, HS, HD in HM, HQ.
  rewrite F1' in HM, HQ. simpl in HM, HQ.
  inversion HM; subst assoc. clear HM.
  rewrite HP in HQ. unfold detect_outcome in HQ.
  destruct (yolo_model w (str p) CONFIDENCE_THRESHOLD) as [results|];
    [|inversion HQ; subst; contradiction].
  destruct (for_results p (md5_hexdigest data) (fst (None, None))
              (snd (None, None)) results []) as [ds'|e] eqn:FR;
    [|inversion HQ; subst; contradiction].
  inversion HQ; subst ds' s1. clear HQ.
  apply for_results_ok in FR. destruct FR as (built & E & _ & HF).
  simpl in E. subst built.
  assert (HO : process_one p counts s =
    (if db_fault w (S (db_calls (snd (process_image p s))))
     then (Ok counts,
           logged (ErrProcessing (str p) DatabaseError)
             (mkState (image_detections s)
                      (S (S (db_calls (snd (process_image p s)))))
                      (ErrSave DatabaseError
                         :: trace (snd (process_image p s)))
                      (pending s) true))
     else (Ok (S (fst counts), (snd counts + List.length ds)%nat),
           mkState (image_detections s)
                   (S (S (db_calls (snd (process_image p s)))))
                   (ErrSave DatabaseError :: trace (snd (process_image p s)))
                   [] false))).
  { rewrite process_one_eq, HP. cbn [snd].
    destruct ds as [|d rest] eqn:E; [contradiction|]. rewrite <- E in *.
    rewrite save_detections_aborted; [|exact HN|reflexivity].
    cbn [logged image_detections db_calls trace pending ticked failed].
    destruct (db_fault w (S (S (S (db_calls s))))); reflexivity. }
  rewrite HP in HO. cbn [snd] in HO.
  assert (HT : image_detections (snd (process_one p counts s)) =
               image_detections s).
  { rewrite HO. match goal with |- context [if ?c then _ else _] =>
      destruct c end; reflexivity. }
  split.
  { eapply Forall_impl; [|exact HF]. intros d (_ & _ & H1 & H2). auto. }
  split; [reflexivity|]. split; [exact HO|]. split; [exact HT|].
  intros s2 HE. apply (absent_fingerprint_is_inferred p data s2 HR).
  now rewrite HE, HT.
Qed.

(** ** The second run reports nothing done *)

(** X22.  When no database round trip raises, the first on an idle
    connection included, the closing line of a second run over the
    unchanged, non-empty corpus reports no image processed and no
    detection. *)
Theorem second_run_reports_zero :
  no_db_faults ->
  forall entries s0,
    idle s0 ->
    images_dir w = Listing entries ->
    images_of entries <> [] ->
    exists rest,
      trace (snd (process_all_images (snd (process_all_images s0)))) =
      InfoComplete 0 (List.length (images_of entries)) 0 :: rest.
Proof.
  intros NF entries s0 HI0 D HN.
  destruct (nofault_process_all_images NF s0 HI0) as (HI1 & HS1 & _).
  set (s1 := snd (process_all_images s0)) in *.
  unfold corpus in HS1. rewrite D in HS1.
  unfold process_all_images at 1, find_images. rewrite D.
  fold (images_of entries). unfold_proc.
  destruct (images_of entries) as [|p rest] eqn:E; [contradiction|].
  rewrite <- E in *. clear E HN.
  set (n := List.length (images_of entries)).
  set (s1' := logged (InfoFoundImages n) s1).
  assert (HI1' : idle s1') by exact HI1.
  assert (HW1 : between_saves s1') by (intros _; exact (proj2 HI1)).
  destruct (nofault_for_images NF (images_of entries) (0%nat, 0%nat) s1' HI1')
    as (_ & HT & _).
  destruct (nofault_for_images_counts NF (images_of entries)
              (0%nat, 0%nat) s1' HI1') as (c & new & HR & HS & HC).
  destruct (for_images_counts (images_of entries) (0%nat, 0%nat) s1' HW1)
    as (c' & new' & HR' & _ & _ & _ & _ & H4 & _).
  rewrite HR in HR'. inversion HR'; subst c'. clear HR'.
  assert (new = []) as ->.
  { rewrite HS in HT. simpl in HT. rewrite HS1 in HT.
    rewrite store_run_idempotent in HT.
    rewrite <- (app_nil_r (store_run _ _)) in HT at 2.
    now apply app_inv_head in HT. }
  simpl in HC, H4.
  destruct (for_images (images_of entries) (0%nat, 0%nat) s1') as [r s2].
  simpl in HR. subst r. simpl.
  assert (fst c = 0%nat) as -> by lia. rewrite HC.
  eexists. reflexivity.
Qed.

(** ** Calls of the detector *)

Lemma inferences_app :
  forall l1 l2, inferences (l1 ++ l2) = (inferences l1 + inferences l2)%nat.
Proof.
  intros l1 l2. unfold inferences. now rewrite filter_app, length_app.
Qed.

Lemma inferences_none :
  forall l,
    (forall e, In e l -> is_inference e = false) -> inferences l = 0%nat.
Proof.
  unfold inferences. induction l as [|x l IH]; intros H; [reflexivity|].
  simpl. rewrite (H x (or_introl eq_refl)). apply IH.
  intros e HI. apply H. now right.
Qed.

Lemma detect_outcome_line :
  forall p h assoc s,
    exists e,
      snd (detect_outcome p h assoc s) = logged e s /\
      is_inference e = false.
Proof.
  intros p h assoc s. unfold detect_outcome.
  destruct (yolo_model w (str p) CONFIDENCE_THRESHOLD) as [results|].
  - destruct (for_results p h (fst assoc) (snd assoc) results []);
      eexists; split; reflexivity.
  - eexists; split; reflexivity.
Qed.

(** One image costs at most one call of the detector, made on its own
    path, with the configured threshold, and only if it could be read. *)
Lemma process_image_inferences :
  forall p s,
    exists ev,
      emitted s (snd (process_image p s)) ev /\
      (inferences ev <= 1)%nat /\
      forall q thr,
        In (Inference q thr) ev ->
        q = str p /\ thr = CONFIDENCE_THRESHOLD /\
        exists data, read_file w (str p) = Some data.
Proof.
  intros p s. destruct (read_file w (str p)) as [data|] eqn:R.
  2:{ rewrite (process_image_unreadable p s R).
      exists [ErrHash (str p) OSError]. split; [reflexivity|].
      split; [unfold inferences; simpl; lia|]. intros q thr [H|[]]. discriminate H. }
  destruct (is_image_processed_frame (md5_hexdigest data) s)
    as (b & ev1 & HB & _ & HE1 & HO1).
  assert (N1 : forall e, In e ev1 -> is_inference e = false)
    by (intros e HI; now rewrite (HO1 e HI)).
  destruct b.
  - rewrite (process_image_skipped p data s R HB).
    exists (InfoSkipping (name p) :: ev1). unfold emitted in *.
    split; [simpl; now rewrite HE1|]. split.
    + change (InfoSkipping (name p) :: ev1)
        with ([InfoSkipping (name p)] ++ ev1).
      rewrite inferences_app, (inferences_none ev1 N1).
      unfold inferences. simpl. lia.
    + intros q thr [H|H]; [discriminate H|].
      apply N1 in H. discriminate H.
  - destruct (process_image_inferred p data s R HB) as (assoc & _ & HP).
    simpl in HP. rewrite HP. clear HP.
    set (s1 := snd (is_image_processed (md5_hexdigest data) s)) in *.
    destruct (get_message_id_for_image_frame p s1)
      as (a & ev2 & _ & _ & HE2 & HO2).
    assert (N2 : forall e, In e ev2 -> is_inference e = false)
      by (intros e HI; now rewrite (HO2 e HI)).
    set (s2 := snd (get_message_id_for_image p s1)) in *.
    destruct (detect_outcome_line p (md5_hexdigest data) assoc
                (logged (Inference (str p) CONFIDENCE_THRESHOLD) s2))
      as (e & HD & NE).
    rewrite HD.
    exists ([e; Inference (str p) CONFIDENCE_THRESHOLD] ++ ev2 ++ ev1).
    unfold emitted in *.
    split; [simpl; now rewrite HE2, HE1, app_assoc|]. split.
    + rewrite !inferences_app, (inferences_none ev1 N1),
        (inferences_none ev2 N2). unfold inferences. simpl.
      rewrite NE. simpl. lia.
    + intros q thr HI. apply in_app_or in HI. destruct HI as [HI|HI].
      * destruct HI as [HI|[HI|[]]].
        -- subst e. discriminate NE.
        -- inversion HI; subst. repeat split. now exists data.
      * apply in_app_or in HI. destruct HI as [HI|HI];
          [apply N2 in HI|apply N1 in HI]; discriminate HI.
Qed.

Lemma process_one_inferences :
  forall p counts s,
    exists ev,
      emitted s (snd (process_one p counts s)) ev /\
      (inferences ev <= 1)%nat /\
      forall q thr,
        In (Inference q thr) ev ->
        q = str p /\ thr = CONFIDENCE_THRESHOLD /\
        exists data, read_file w (str p) = Some data.
Proof.
  intros p counts s. rewrite process_one_eq.
  destruct (process_image_inferences p s) as (ev & HE & HC & HI).
  destruct (process_image_result p s) as (ds & _ & HR & _).
  destruct (process_image p s) as [r s1]. simpl in *. subst r.
  destruct ds as [|d ds']; [now exists ev|].
  set (ds := d :: ds') in *.
  destruct (save_detections_frame ds s1) as (_ & ev2 & HE2 & HO2).
  assert (N2 : forall e, In e ev2 -> is_inference e = false).
  { intros e H. destruct (HO2 e H) as [->| ->]; reflexivity. }
  unfold emitted in *.
  destruct (save_detections ds s1) as [[u|e] s2]; simpl in *.
  - exists (ev2 ++ ev). split; [now rewrite HE2, HE, app_assoc|]. split.
    + rewrite inferences_app, (inferences_none ev2 N2). exact HC.
    + intros q thr H. apply in_app_or in H. destruct H as [H|H];
        [apply N2 in H; discriminate H|exact (HI q thr H)].
  - exists ((ErrProcessing (str p) e :: ev2) ++ ev).
    split; [simpl; now rewrite HE2, HE, app_assoc|]. split.
    + rewrite inferences_app.
      change (ErrProcessing (str p) e :: ev2)
        with ([ErrProcessing (str p) e] ++ ev2).
      rewrite inferences_app, (inferences_none ev2 N2).
      unfold inferences at 1. simpl. exact HC.
    + intros q thr H. apply in_app_or in H. destruct H as [[H|H]|H].
      * discriminate H.
      * apply N2 in H. discriminate H.
      * exact (HI q thr H).
Qed.

Lemma for_images_inferences :
  forall images counts s,
    exists ev,
      emitted s (snd (for_images images counts s)) ev /\
      (inferences ev <= List.length images)%nat /\
      forall q thr,
        In (Inference q thr) ev ->
        thr = CONFIDENCE_THRESHOLD /\
        exists p data,
          In p images /\ q = str p /\ read_file w (str p) = Some data.
Proof.
  induction images as [|p rest IH]; intros counts s; simpl.
  - exists []. split; [reflexivity|]. split; [unfold inferences; simpl; lia|]. intros q thr [].
  - unfold bind.
    destruct (process_one_inferences p counts s) as (ev1 & HE1 & HC1 & HI1).
    destruct (process_one_result p counts s) as (c1 & _ & _ & HR1 & _).
    destruct (process_one p counts s) as [r s1]. simpl in *. subst r.
    destruct (IH c1 s1) as (ev2 & HE2 & HC2 & HI2).
    exists (ev2 ++ ev1). unfold emitted in *.
    split; [now rewrite HE2, HE1, app_assoc|]. split.
    + rewrite inferences_app. lia.
    + intros q thr H. apply in_app_or in H. destruct H as [H|H].
      * destruct (HI2 q thr H) as (HT & p' & data & HP & HQ & HR).
        split; [exact HT|]. exists p', data. auto.
      * destruct (HI1 q thr H) as (HQ & HT & data & HR).
        split; [exact HT|]. exists p, data. auto.
Qed.

Lemma calls_on_app :
  forall q l1 l2, calls_on q (l1 ++ l2) = (calls_on q l1 + calls_on q l2)%nat.
Proof.
  intros q l1 l2. unfold calls_on. now rewrite filter_app, length_app.
Qed.

Lemma calls_on_inferences :
  forall q l, (calls_on q l <= inferences l)%nat.
Proof.
  intros q l. unfold calls_on, inferences.
  induction l as [|e l IH]; [simpl; lia|].
  destruct e; simpl; try exact IH.
  destruct (String.eqb path q); simpl; lia.
Qed.

Lemma calls_on_elsewhere :
  forall q path l,
    (forall q' thr, In (Inference q' thr) l -> q' = path) ->
    String.eqb path q = false ->
    calls_on q l = 0%nat.
Proof.
  intros q path l H NE. unfold calls_on.
  induction l as [|e l IH]; [reflexivity|].
  assert (IH' : List.length (filter (is_inference_on q) l) = 0%nat).
  { apply IH. intros q' thr HI. apply (H q' thr). now right. }
  destruct e; simpl; try exact IH'.
  rewrite (H path0 threshold (or_introl eq_refl)), NE. exact IH'.
Qed.

(** The calls one pass of the loop body makes on a path string: one at
    most, and none on the path string of another image. *)
Lemma process_one_calls_on :
  forall p counts s q,
    exists ev,
      emitted s (snd (process_one p counts s)) ev /\
      (calls_on q ev <= if String.eqb (str p) q then 1 else 0)%nat.
Proof.
  intros p counts s q.
  destruct (process_one_inferences p counts s) as (ev & HE & HC & HI).
  exists ev. split; [exact HE|].
  destruct (String.eqb (str p) q) eqn:E.
  - pose proof (calls_on_inferences q ev). lia.
  - rewrite (calls_on_elsewhere q (str p) ev); [lia| |exact E].
    intros q' thr H. exact (proj1 (HI q' thr H)).
Qed.

Lemma images_at_cons :
  forall q p rest,
    images_at q (p :: rest) =
    ((if String.eqb (str p) q then 1 else 0) + images_at q rest)%nat.
Proof.
  intros q p rest. unfold images_at. simpl.
  now destruct (String.eqb (str p) q).
Qed.

Lemma for_images_calls_on :
  forall images counts s q,
    exists ev,
      emitted s (snd (for_images images counts s)) ev /\
      (calls_on q ev <= images_at q images)%nat.
Proof.
  induction images as [|p rest IH]; intros counts s q.
  - exists []. split; [reflexivity|]. unfold calls_on, images_at. simpl. lia.
  - cbn [for_images]. unfold bind.
    destruct (process_one_calls_on p counts s q) as (ev1 & HE1 & HC1).
    destruct (process_one_result p counts s) as (c1 & _ & _ & HR1 & _).
    destruct (process_one p counts s) as [r s1]. simpl in HR1, HE1. subst r.
    destruct (IH c1 s1 q) as (ev2 & HE2 & HC2).
    exists (ev2 ++ ev1). unfold emitted in *.
    split; [now rewrite HE2, HE1, app_assoc|].
    rewrite calls_on_app, images_at_cons. lia.
Qed.

Lemma images_at_distinct :
  forall q images,
    NoDup (map str images) -> (images_at q images <= 1)%nat.
Proof.
  intros q images. induction images as [|p rest IH]; intros ND.
  - unfold images_at. simpl. lia.
  - rewrite images_at_cons. simpl in ND. inversion ND as [|? ? HX HN]; subst.
    specialize (IH HN). destruct (String.eqb (str p) q) eqn:E; [|lia].
    apply String.eqb_eq in E. subst q.
    assert (Z : images_at (str p) rest = 0%nat).
    { unfold images_at.
      destruct (filter (fun p0 => String.eqb (str p0) (str p)) rest)
        as [|a l] eqn:F; [reflexivity|].
      exfalso. apply HX.
      assert (HA : In a (filter (fun p0 => String.eqb (str p0) (str p)) rest))
        by (rewrite F; now left).
      apply filter_In in HA. destruct HA as [HA HB].
      apply String.eqb_eq in HB. rewrite <- HB. now apply in_map. }
    lia.
Qed.

(** X23.  Whatever fails, a run calls the detector at most once per image
    found: on each path string it is called at most as often as the walk
    over the corpus returned an image with that path string, so at most
    once where the walk returns no image twice.  Every call is made with
    the configured threshold of 0.3 and on an image of the corpus that
    could be read, and there are no more calls than images. *)
Theorem detector_is_called_at_most_once_per_image :
  forall s,
    exists ev,
      emitted s (snd (process_all_images s)) ev /\
      (forall q, (calls_on q ev <= images_at q corpus)%nat) /\
      (NoDup (map str corpus) -> forall q, (calls_on q ev <= 1)%nat) /\
      (inferences ev <= List.length corpus)%nat /\
      forall q thr,
        In (Inference q thr) ev ->
        thr = CONFIDENCE_THRESHOLD /\
        exists p data,
          In p corpus /\ q = str p /\ read_file w (str p) = Some data.
Proof.
  intros s.
  assert (HX : exists ev,
    emitted s (snd (process_all_images s)) ev /\
    (forall q, (calls_on q ev <= images_at q corpus)%nat) /\
    (inferences ev <= List.length corpus)%nat /\
    forall q thr,
      In (Inference q thr) ev ->
      thr = CONFIDENCE_THRESHOLD /\
      exists p data,
        In p corpus /\ q = str p /\ read_file w (str p) = Some data).
  { unfold corpus. destruct (images_dir w) as [| |entries] eqn:D.
    - rewrite (process_all_images_missing s D).
      exists [InfoNoImages; WarnDirNotFound]. split; [reflexivity|].
      split; [intros q; unfold calls_on; simpl; lia|].
      split; [unfold inferences; simpl; lia|].
      intros q thr [H|[H|[]]]; discriminate H.
    - rewrite (process_all_images_unreadable s D).
      exists []. split; [reflexivity|].
      split; [intros q; unfold calls_on; simpl; lia|].
      split; [unfold inferences; simpl; lia|]. intros q thr [].
    - unfold process_all_images, find_images. rewrite D.
      fold (images_of entries). unfold_proc.
      destruct (images_of entries) as [|p rest] eqn:E.
      { exists [InfoNoImages; InfoFoundImages 0]. split; [reflexivity|].
        split; [intros q; unfold calls_on; simpl; lia|].
        split; [unfold inferences; simpl; lia|].
        intros q thr [H|[H|[]]]; discriminate H. }
      rewrite <- E. clear E.
      set (n := List.length (images_of entries)).
      set (s0 := logged (InfoFoundImages n) s).
      destruct (for_images_inferences (images_of entries) (0%nat, 0%nat) s0)
        as (ev & HE & HC & HI).
      destruct (for_images_result (images_of entries) (0%nat, 0%nat) s0)
        as (c & _ & _ & HR & _).
      assert (HQ : forall q, (calls_on q ev <= images_at q (images_of entries))%nat).
      { intros q.
        destruct (for_images_calls_on (images_of entries) (0%nat, 0%nat) s0 q)
          as (ev' & HE' & HC').
        now rewrite (emitted_unique _ _ _ _ HE HE'). }
      destruct (for_images (images_of entries) (0%nat, 0%nat) s0) as [r s1].
      simpl in HR, HE. subst r. cbn [fst snd].
      exists ([InfoComplete (fst c) n (snd c)] ++ ev ++ [InfoFoundImages n]).
      unfold emitted in *.
      split; [simpl; rewrite HE, <- app_assoc; reflexivity|]. split; [|split].
      + intros q. rewrite !calls_on_app. specialize (HQ q).
        unfold calls_on at 1 3. simpl. lia.
      + rewrite !inferences_app. unfold inferences at 1 3. simpl. fold n. lia.
      + intros q thr H. apply in_app_or in H.
        destruct H as [[H|[]]|H]; [discriminate H|].
        apply in_app_or in H. destruct H as [H|[H|[]]]; [|discriminate H].
        exact (HI q thr H). }
  destruct HX as (ev & HE & HQ & HC & HI). exists ev.
  split; [exact HE|]. split; [exact HQ|]. split; [|split; [exact HC|exact HI]].
  intros ND q. pose proof (HQ q). pose proof (images_at_distinct q corpus ND).
  lia.
Qed.

End Processor.


(** * The example corpus: instances and counterexamples *)

Lemma pad_hex_length :
  forall n data, String.length (pad_hex n data) = (2 * n)%nat.
Proof.
  induction n as [|n IH]; intros data; [reflexivity|].
  destruct data as [|b rest]; simpl; rewrite IH; lia.
Qed.

Lemma example_digest_length :
  forall data, String.length (example_digest data) = 32%nat.
Proof.
  intros data. unfold example_digest. now rewrite pad_hex_length.
Qed.

Lemma example_yolo_honours_threshold :
  forall faults, honours_threshold (example_world faults).
Proof.
  intros faults path threshold results b H HI. simpl in H.
  unfold example_yolo in H.
  destruct (String.eqb path (str img_broken)); [discriminate H|].
  inversion H; subst results. clear H.
  unfold all_boxes in HI. simpl in HI. rewrite app_nil_r in HI.
  apply filter_In in HI. destruct HI as [_ HQ].
  now apply Qle_bool_iff.
Qed.

Lemma quiet_world_no_faults : no_db_faults quiet_world.
Proof.
  intros n. reflexivity.
Qed.

(** [img_gone] cannot be read: one error line, nothing else. *)
Lemma unreadable_image_witness :
  read_file quiet_world (str img_gone) = None /\
  process_one example_digest quiet_world img_gone (0%nat, 0%nat) s_fresh =
  (Ok (0%nat, 0%nat), logged (ErrHash (str img_gone) OSError) s_fresh).
Proof.
  split; [reflexivity|].
  exact (proj2 (proj2 (unreadable_image_is_logged_and_dropped
                         example_digest quiet_world img_gone
                         (0%nat, 0%nat) s_fresh eq_refl))).
Defined.

(** With a database that is down for good the run still returns normally
    and deals with all five images. *)
Lemma database_down_witness :
  fst (process_all_images example_digest down_world s_fresh) = Ok tt /\
  exists ev,
    emitted s_fresh (snd (process_all_images example_digest down_world s_fresh))
            ev /\
    forall p, In p (images_of example_entries) -> handled p ev.
Proof.
  exact (proj2 (proj2 (proj2 (only_the_corpus_root_is_fatal
                                example_digest example_digest_length
                                down_world s_fresh)))
               example_entries eq_refl).
Defined.

(** The run over the example corpus persists the row of [img_1001], with
    the message 1001 of its channel. *)
Lemma verified_message_ids_witness :
  between_saves s_fresh /\
  image_detections
    (snd (process_all_images example_digest quiet_world s_fresh)) =
  [row_1001] /\
  Forall (correlated quiet_world)
    (image_detections
       (snd (process_all_images example_digest quiet_world s_fresh))).
Proof.
  split; [intros _; reflexivity|]. split; [reflexivity|].
  apply (proj2 (persisted_message_ids_are_verified
                  example_digest example_digest_length quiet_world s_fresh
                  (fun _ => eq_refl))).
  constructor.
Defined.

(** The run over the example corpus persists the bottle of [img_1001],
    found with confidence 0.92; the person at 0.25 never leaves the
    detector. *)
Lemma confidence_floor_witness :
  honours_threshold quiet_world /\
  between_saves s_fresh /\
  image_detections
    (snd (process_all_images example_digest quiet_world s_fresh)) =
  [row_1001] /\
  Forall above_threshold
    (image_detections
       (snd (process_all_images example_digest quiet_world s_fresh))).
Proof.
  split; [exact (example_yolo_honours_threshold _)|].
  split; [intros _; reflexivity|]. split; [reflexivity|].
  apply (proj1 (proj2 (persisted_confidence_is_above_threshold
                         example_digest example_digest_length quiet_world
                         (example_yolo_honours_threshold _) s_fresh))
               (fun _ => eq_refl)).
  constructor.
Defined.

(** The second insert of a two-row save raises: the first row is pending
    when it does, the rollback drops it, and the table stays empty. *)
Lemma failed_save_witness :
  db_fault failing_world (db_calls s_fresh + 1) = true /\
  execute_inserts failing_world [row_1001; row_person] s_fresh =
  (Raise DatabaseError, mkState [] 2 [] [row_1001] true) /\
  save_detections failing_world [row_1001; row_person] s_fresh =
  (Ok tt, mkState [] 3 [ErrSave DatabaseError] [] false) /\
  image_detections
    (snd (save_detections failing_world [row_1001; row_person] s_fresh)) = [] /\
  idle (snd (save_detections failing_world [row_1001; row_person] s_fresh)).
Proof.
  split; [reflexivity|].
  pose proof (failed_save_is_rolled_back
                example_digest example_digest_length failing_world
                [row_1001; row_person] s_fresh 1%nat
                ltac:(discriminate) (le_S _ _ (le_n 1)) eq_refl
                (fun j (H : (j < 1)%nat) =>
                   match j return (j < 1)%nat ->
                                  db_fault failing_world (0 + j) = false with
                   | O => fun _ => eq_refl
                   | S j' => fun H' =>
                       match Nat.nlt_0_r j' (proj2 (Nat.succ_lt_mono j' 0) H')
                       with end
                   end H)
                eq_refl) as H.
  destruct H as (H1 & H2 & _ & _ & H5 & _).
  split; [exact (H1 (le_n 2))|]. split; [reflexivity|].
  split; [exact H2|exact (proj2 (H5 eq_refl))].
Defined.

(** The lookup for [img_1001] raises while its fingerprint has a row: the
    image is sent to the detector, the insert of what it finds raises in
    the failed transaction, and the fingerprint still has its one row,
    though the image is counted. *)
Lemma failed_check_witness :
  read_file flaky_world (str img_1001) = Some bytes_1001 /\
  refused flaky_world s_seen = true /\
  count_hash (example_digest bytes_1001) (image_detections s_seen) = 1%nat /\
  count_hash (example_digest bytes_1001)
    (image_detections
       (snd (process_one example_digest flaky_world img_1001
               (0%nat, 0%nat) s_seen))) = 1%nat /\
  fst (process_one example_digest flaky_world img_1001 (0%nat, 0%nat) s_seen)
  = Ok (1%nat, 1%nat).
Proof.
  split; [reflexivity|]. split; [reflexivity|]. split; [reflexivity|].
  pose proof (failed_dedup_check_reprocesses
                example_digest example_digest_length flaky_world img_1001
                bytes_1001 (0%nat, 0%nat) s_seen eq_refl eq_refl) as H.
  destruct H as (_ & _ & _ & _ & H5 & H6).
  split; [exact (H5 (example_digest bytes_1001))|].
  rewrite (H6 [row_orphan] _ eq_refl ltac:(discriminate)). reflexivity.
Defined.

(** [img_copy] has the bytes of [img_1001]: once [img_1001] has its row,
    the copy is skipped. *)
Lemma same_bytes_skipped_witness :
  let s1 := snd (process_one example_digest quiet_world img_1001
                   (0%nat, 0%nat) s_fresh) in
  image_detections s1 = [row_1001] /\
  process_one example_digest quiet_world img_copy (1%nat, 1%nat) s1 =
  (Ok (1%nat, 1%nat), logged (InfoSkipping "copy_7.png") (ticked s1)).
Proof.
  intros s1. split; [reflexivity|].
  refine (proj2 (known_fingerprint_is_skipped_before_inference
                   example_digest example_digest_length quiet_world img_copy
                   bytes_1001 (1%nat, 1%nat) s1 eq_refl _ eq_refl)).
  apply Nat.ltb_lt. reflexivity.
Defined.

(** [img_photo] has no box above the threshold: nothing is written. *)
Lemma zero_detection_witness :
  yolo_model quiet_world (str img_photo) CONFIDENCE_THRESHOLD =
  Some [mkResult (Some []) example_names] /\
  image_detections
    (snd (process_one example_digest quiet_world img_photo
            (0%nat, 0%nat) s_fresh)) = [] /\
  fst (is_image_processed quiet_world (example_digest bytes_photo)
         (snd (process_one example_digest quiet_world img_photo
                 (0%nat, 0%nat) s_fresh))) = Ok false.
Proof.
  split; [reflexivity|].
  pose proof (zero_detection_image_leaves_no_mark
                example_digest example_digest_length quiet_world img_photo
                bytes_photo [mkResult (Some []) example_names]
                (0%nat, 0%nat) s_fresh eq_refl eq_refl eq_refl) as H.
  destruct H as (_ & H1 & H2).
  split; [exact H1|exact (proj1 (H2 eq_refl))].
Defined.

Lemma second_run_witness :
  idle s_fresh /\
  image_detections
    (snd (process_all_images example_digest quiet_world
            (snd (process_all_images example_digest quiet_world s_fresh)))) =
  image_detections
    (snd (process_all_images example_digest quiet_world s_fresh)).
Proof.
  split; [split; reflexivity|].
  exact (proj1 (second_run_persists_nothing
                  example_digest example_digest_length quiet_world
                  quiet_world_no_faults s_fresh (conj eq_refl eq_refl))).
Defined.

(** C1 fails on [img_photo]: after it has been processed the dedup check
    still answers [False]. *)
Lemma zero_detection_image_not_marked :
  ~ zero_detection_image_is_marked example_digest quiet_world img_photo
      (0%nat, 0%nat) s_fresh.
Proof.
  intros H.
  specialize (H bytes_photo [mkResult (Some []) example_names]
                eq_refl eq_refl eq_refl).
  vm_compute in H. discriminate H.
Qed.

(** C2 fails when the lookup raises: [img_1001] already has a row, and
    the detector is called on it all the same. *)
Lemma known_fingerprint_reaches_detector :
  ~ detector_never_sees_known_fingerprint example_digest flaky_world
      img_1001 s_seen.
Proof.
  intros H.
  refine (H bytes_1001 eq_refl _
            (trace (snd (process_image example_digest flaky_world img_1001
                           s_seen))) _ _).
  - apply Nat.ltb_lt. reflexivity.
  - vm_compute. reflexivity.
  - vm_compute. right. now left.
Qed.

(** C3 fails on [img_photo]: it is readable, the first run finds nothing
    in it, and the second run sends it to the detector again. *)
Lemma second_run_infers_again :
  ~ second_run_skips_every_image example_digest quiet_world s_fresh.
Proof.
  intros [_ H].
  set (s1 := snd (process_all_images example_digest quiet_world s_fresh)) in H.
  set (s2 := snd (process_all_images example_digest quiet_world s1)) in H.
  specialize (H (firstn (List.length (trace s2) - List.length (trace s1))
                        (trace s2))).
  assert (E : emitted s1 s2
                (firstn (List.length (trace s2) - List.length (trace s1))
                        (trace s2))) by (vm_compute; reflexivity).
  specialize (H E img_photo).
  assert (HI : In img_photo (corpus quiet_world))
    by (vm_compute; right; right; now left).
  assert (HR : read_file quiet_world (str img_photo) <> None)
    by (vm_compute; discriminate).
  destruct (H HI HR) as [_ HN]. apply HN.
  vm_compute. do 5 right. now left.
Qed.

(** C4 fails on [img_1001] when the insert of its row raises and the
    rollback goes through: the save has logged its error, and the loop
    body counts the image as processed with one detection. *)
Lemma failed_save_is_counted_as_processed :
  ~ failed_save_is_reported example_digest late_fault_world img_1001
      (0%nat, 0%nat) s_fresh.
Proof.
  intros H.
  specialize (H [ErrSave DatabaseError; InfoFound 1 "1001.jpg";
                 Inference (str img_1001) CONFIDENCE_THRESHOLD]
                eq_refl (or_introl eq_refl)).
  vm_compute in H. discriminate H.
Qed.

(** C6 fails when the query of the message store raises: the reference
    algorithm gives [(1001, tikvahpharma)] for [img_1001], the correlator
    gives [(None, None)]. *)
Lemma correlator_differs_when_query_raises :
  ~ correlator_is_reference flaky_world img_1001 s_fresh.
Proof.
  unfold correlator_is_reference. vm_compute. discriminate.
Qed.

(** C7 fails on [img_gone]: the run over the corpus in which it cannot be
    read and the run over the corpus in which it can, and holds nothing,
    end with the same closing line, one image of five processed and one
    detection; no reading of that line tells the one read failure of the
    first run from the none of the second. *)
Lemma read_failures_are_not_counted :
  ~ exists failure_count,
      failures_are_counted example_digest quiet_world failure_count s_fresh /\
      failures_are_counted example_digest restored_world failure_count s_fresh.
Proof.
  intros (f & H1 & H2).
  specialize (H1 (1%nat, 5%nat, 1%nat)
                 (trace (snd (process_all_images example_digest quiet_world
                                s_fresh)))
                 eq_refl (eq_sym (app_nil_r _))).
  specialize (H2 (1%nat, 5%nat, 1%nat)
                 (trace (snd (process_all_images example_digest restored_world
                                s_fresh)))
                 eq_refl (eq_sym (app_nil_r _))).
  vm_compute in H1, H2. congruence.
Qed.

(** C10 fails on [img_1001]: its fingerprint has a row, the lookup raises
    and the detector finds the bottle again, but the fingerprint has no
    more rows afterwards than before. *)
Lemma failed_check_stores_no_duplicate :
  ~ failed_check_persists_duplicates example_digest flaky_world img_1001
      (0%nat, 0%nat) s_seen.
Proof.
  intros H.
  specialize (H bytes_1001 [row_orphan] eq_refl eq_refl eq_refl
                ltac:(discriminate)).
  vm_compute in H. lia.
Qed.

(** * Instances for the further properties *)

Lemma insert_by_count_permutes :
  forall x l, Permutation (x :: l) (insert_by_count x l).
Proof.
  intros x l. induction l as [|y rest IH]; simpl; [reflexivity|].
  destruct (snd y <? snd x)%nat; [reflexivity|].
  rewrite perm_swap. now constructor.
Qed.

Lemma example_order_permutes :
  forall l, Permutation l (example_order l).
Proof.
  induction l as [|x l IH]; simpl; [constructor|].
  rewrite <- insert_by_count_permutes. now constructor.
Qed.

Lemma insert_by_count_sorts :
  forall x l,
    Sorted by_count_desc l -> Sorted by_count_desc (insert_by_count x l).
Proof.
  intros x l H. induction H as [|y rest HS IH HR]; simpl.
  - repeat constructor.
  - destruct (snd y <? snd x)%nat eqn:C.
    + apply Nat.ltb_lt in C. constructor; [now constructor|].
      constructor. unfold by_count_desc. lia.
    + apply Nat.ltb_ge in C. constructor; [exact IH|].
      destruct rest as [|z rest]; simpl.
      * constructor. exact C.
      * inversion HR; subst.
        destruct (snd z <? snd x)%nat; constructor; assumption.
Qed.

Lemma example_order_sorts :
  forall l, Sorted by_count_desc (example_order l).
Proof.
  induction l as [|x l IH]; simpl; [constructor|].
  now apply insert_by_count_sorts.
Qed.

(** The walk over the example listing leaves out the directory and the
    text file and keeps the upper-case [.JPG]. *)
Lemma found_images_witness :
  images_dir quiet_world = Listing example_entries /\
  find_images quiet_world s_fresh =
  (Ok [img_1001; img_copy; img_photo; img_gone; img_broken],
   logged (InfoFoundImages 5) s_fresh).
Proof.
  split; [reflexivity|].
  exact (proj1 (find_images_keeps_files_with_image_suffix
                  quiet_world example_entries s_fresh eq_refl)).
Defined.

Lemma correlated_answer_witness :
  fst (get_message_id_for_image quiet_world img_1001 s_fresh) =
  Ok (Some 1001%Z, Some "tikvahpharma") /\
  In "tikvahpharma" known_channels /\
  (0 <= 1001)%Z.
Proof.
  split; [reflexivity|].
  pose proof (correlator_answers_are_well_formed
                quiet_world img_1001 s_fresh (Some 1001%Z)
                (Some "tikvahpharma") eq_refl) as [H1 H2].
  split; [exact (proj1 (H1 _ eq_refl))|exact (proj1 (H2 _ eq_refl))].
Defined.

Lemma unknown_directory_witness :
  get_message_id_for_image quiet_world img_photo s_fresh =
  (Ok (None, None), s_fresh).
Proof.
  apply (correlator_queries_at_most_once quiet_world img_photo s_fresh).
  intros c HI HK. simpl in HI, HK.
  repeat (destruct HI as [HI|HI]; [subst c|]);
    try (repeat (destruct HK as [HK|HK]; [discriminate HK|]); exact HK).
  exact HI.
Defined.

Lemma dedup_check_witness :
  fst (is_image_processed quiet_world (example_digest bytes_1001) s_seen) =
  Ok true.
Proof.
  apply (dedup_check_true_iff_row_found quiet_world
           (example_digest bytes_1001) s_seen).
  split; [reflexivity|]. exists row_1001. split; [now left|reflexivity].
Defined.

Lemma agreeing_detections_witness :
  fst (process_image example_digest quiet_world img_1001 s_fresh) =
  Ok [row_1001] /\
  exists data assoc,
    read_file quiet_world (str img_1001) = Some data /\
    verified quiet_world assoc /\
    Forall (fun d =>
              image_path d = str img_1001 /\
              image_hash d = example_digest data /\
              message_id d = fst assoc /\
              channel_name d = snd assoc) [row_1001].
Proof.
  split; [reflexivity|].
  apply (detections_of_one_image_agree
           example_digest example_digest_length quiet_world img_1001
           s_fresh [row_1001] eq_refl).
  discriminate.
Defined.

Lemma one_row_per_box_witness :
  fst (process_image example_digest quiet_world img_1001 s_fresh) =
  Ok [row_1001] /\
  exists results,
    yolo_model quiet_world (str img_1001) CONFIDENCE_THRESHOLD =
    Some results /\
    Forall2 row_matches_box [row_1001] (boxes_with_names results) /\
    List.length [row_1001] = List.length (all_boxes results).
Proof.
  split; [reflexivity|].
  apply (one_row_per_box
           example_digest example_digest_length quiet_world img_1001
           s_fresh [row_1001] eq_refl).
  discriminate.
Defined.

Lemma unknown_class_id_witness :
  exists s3,
    process_one example_digest nameless_world img_1001 (0%nat, 0%nat) s_fresh =
    (Ok (0%nat, 0%nat),
     logged (ErrProcessImage (str img_1001) KeyError) s3) /\
    image_detections s3 = [].
Proof.
  destruct (unknown_class_id_drops_the_image
              example_digest example_digest_length nameless_world img_1001
              bytes_1001 (0%nat, 0%nat) s_fresh
              [ mkResult
                  (Some [ mkBox 39 (92 # 100)
                            (10 # 1, 10 # 1, 50 # 1, 50 # 1);
                          mkBox 7 (80 # 100) (1 # 1, 1 # 1, 2 # 1, 2 # 1) ])
                  example_names ]
              (mkResult
                 (Some [ mkBox 39 (92 # 100)
                           (10 # 1, 10 # 1, 50 # 1, 50 # 1);
                         mkBox 7 (80 # 100) (1 # 1, 1 # 1, 2 # 1, 2 # 1) ])
                 example_names)
              [ mkBox 39 (92 # 100) (10 # 1, 10 # 1, 50 # 1, 50 # 1);
                mkBox 7 (80 # 100) (1 # 1, 1 # 1, 2 # 1, 2 # 1) ]
              (mkBox 7 (80 # 100) (1 # 1, 1 # 1, 2 # 1, 2 # 1))
              eq_refl eq_refl eq_refl (or_introl eq_refl) eq_refl
              (or_intror (or_introl eq_refl)) eq_refl)
    as (s3 & _ & H2 & H3).
  exists s3. split; [exact H2|exact H3].
Defined.

Lemma detector_failure_witness :
  yolo_model quiet_world (str img_broken) CONFIDENCE_THRESHOLD = None /\
  exists s3,
    process_one example_digest quiet_world img_broken (0%nat, 0%nat) s_fresh =
    (Ok (0%nat, 0%nat),
     logged (ErrProcessImage (str img_broken) ModelError) s3) /\
    image_detections s3 = [].
Proof.
  split; [reflexivity|].
  destruct (detector_failure_drops_the_image
              example_digest example_digest_length quiet_world img_broken
              bytes_broken (0%nat, 0%nat) s_fresh eq_refl eq_refl eq_refl)
    as (s3 & _ & H2 & H3 & _).
  exists s3. split; [exact H2|exact H3].
Defined.

Lemma saved_rows_witness :
  idle s_fresh /\
  save_detections quiet_world [row_1001; row_person] s_fresh =
  (Ok tt, mkState [row_1001; row_person] 3 [InfoSaved 2] [] false) /\
  fst (is_image_processed quiet_world (image_hash row_person)
         (snd (save_detections quiet_world [row_1001; row_person] s_fresh))) =
  Ok true.
Proof.
  split; [split; reflexivity|].
  pose proof (saved_rows_are_found_by_the_dedup_check
                quiet_world [row_1001; row_person] s_fresh
                ltac:(discriminate) (conj eq_refl eq_refl) (fun _ _ => eq_refl))
    as [H1 H2].
  split.
  - exact H1.
  - apply H2; [right; now left|reflexivity|reflexivity].
Defined.

(** The insert for [img_1001] raises and the rollback goes through: no
    row, and yet the image is counted with its one detection. *)
Lemma failed_save_counted_witness :
  process_one example_digest late_fault_world img_1001 (0%nat, 0%nat)
    s_fresh =
  (Ok (1%nat, 1%nat),
   mkState [] 4
     [ErrSave DatabaseError; InfoFound 1 "1001.jpg";
      Inference (str img_1001) CONFIDENCE_THRESHOLD] [] false).
Proof.
  rewrite (failed_save_is_counted_unless_rollback_raises
             example_digest example_digest_length late_fault_world img_1001
             (0%nat, 0%nat) s_fresh [row_1001]
             (snd (process_image example_digest late_fault_world img_1001
                     s_fresh))
             0%nat eq_refl ltac:(discriminate) (le_S _ _ (le_n 0)) eq_refl
             (fun j (H : (j < 0)%nat) =>
                match Nat.nlt_0_r j H with end)
             eq_refl).
  reflexivity.
Defined.

Lemma appended_rows_witness :
  between_saves s_fresh /\
  exists new,
    image_detections
      (snd (process_all_images example_digest quiet_world s_fresh)) =
    image_detections s_fresh ++ new /\
    forall d,
      In d new ->
      exists p data,
        In p (corpus quiet_world) /\
        read_file quiet_world (str p) = Some data /\
        image_path d = str p /\
        image_hash d = example_digest data.
Proof.
  split; [intros _; reflexivity|].
  exact (runs_only_append_rows_of_corpus_images
           example_digest example_digest_length quiet_world s_fresh
           (fun _ => eq_refl)).
Defined.

Lemma closing_counts_witness :
  between_saves s_fresh /\
  exists processed_count total_detections new rest,
    trace (snd (process_all_images example_digest quiet_world s_fresh)) =
    InfoComplete processed_count 5 total_detections :: rest /\
    image_detections
      (snd (process_all_images example_digest quiet_world s_fresh)) =
    image_detections s_fresh ++ new /\
    (processed_count <= 5)%nat /\
    (processed_count <= total_detections)%nat /\
    (List.length new <= total_detections)%nat /\
    (no_db_faults quiet_world -> aborted s_fresh = false ->
     total_detections = List.length new).
Proof.
  split; [intros _; reflexivity|].
  apply (closing_counts_bound_the_rows_written
           example_digest example_digest_length quiet_world
           example_entries s_fresh eq_refl).
  - discriminate.
  - intros _. reflexivity.
Defined.

Lemma one_image_per_fingerprint_witness :
  idle s_fresh /\
  exists new,
    image_detections
      (snd (process_all_images example_digest quiet_world s_fresh)) =
    image_detections s_fresh ++ new /\
    (forall d,
       In d new ->
       count_hash (image_hash d) (image_detections s_fresh) = 0%nat) /\
    (forall d1 d2,
       In d1 new -> In d2 new ->
       image_hash d1 = image_hash d2 -> image_path d1 = image_path d2).
Proof.
  split; [split; reflexivity|].
  exact (one_image_per_fingerprint_without_faults
           example_digest example_digest_length quiet_world
           quiet_world_no_faults s_fresh (conj eq_refl eq_refl)).
Defined.

Lemma summary_witness :
  journal (snd (get_detection_summary quiet_world example_order
                  connected_session)) =
  InfoSummary 4 [("bottle", 2%nat); ("person", 2%nat)]
              [("tikvahpharma", 2%nat); ("lobelia4cosmetics", 1%nat)]
    :: journal connected_session.
Proof.
  apply (summary_never_raises_nor_writes quiet_world example_order
           connected_session).
  - reflexivity.
  - intros k _. reflexivity.
Defined.

Lemma top_objects_witness :
  (List.length [("bottle", 2%nat); ("person", 2%nat)] <= 10)%nat /\
  NoDup (map fst [("bottle", 2%nat); ("person", 2%nat)]) /\
  forall k n,
    In (k, n) [("bottle", 2%nat); ("person", 2%nat)] ->
    n = count_class k example_table /\ (0 < n)%nat.
Proof.
  pose proof (summary_lists_the_most_frequent_classes
                quiet_world example_order example_order_permutes
                example_order_sorts connected_session 4%nat
                [("bottle", 2%nat); ("person", 2%nat)]
                [("tikvahpharma", 2%nat); ("lobelia4cosmetics", 1%nat)]
                eq_refl) as (_ & H1 & H2 & _ & H4 & _).
  split; [exact H1|]. split; [exact H2|exact H4].
Defined.

Lemma per_channel_witness :
  list_sum (map snd [("tikvahpharma", 2%nat); ("lobelia4cosmetics", 1%nat)]) =
  count_with_channel example_table /\
  (list_sum (map snd [("tikvahpharma", 2%nat); ("lobelia4cosmetics", 1%nat)])
   <= 4)%nat.
Proof.
  pose proof (summary_counts_rows_per_channel
                quiet_world example_order example_order_permutes
                example_order_sorts connected_session 4%nat
                [("bottle", 2%nat); ("person", 2%nat)]
                [("tikvahpharma", 2%nat); ("lobelia4cosmetics", 1%nat)]
                eq_refl) as (_ & _ & _ & H4 & H5).
  split; [exact H4|exact H5].
Defined.

(** Everything set up and the corpus listed: exit code 0, although one
    image cannot be read and the detector raises on another. *)
Lemma exit_code_witness :
  fst (main example_digest quiet_world ready_host example_order
         example_table) = 0%Z.
Proof.
  apply (main_exit_code example_digest example_digest_length quiet_world
           ready_host example_order example_table).
  repeat split; discriminate.
Defined.

Lemma closed_connection_witness :
  db_conn (snd (main example_digest down_world ready_host example_order
                  example_table)) = ClosedConnection /\
  hd_error (journal (snd (main example_digest down_world ready_host
                            example_order example_table))) =
  Some InfoClosed.
Proof.
  exact (proj1 (main_closes_the_connection_it_opened
                  example_digest example_digest_length down_world ready_host
                  example_order example_table) eq_refl).
Defined.

Lemma letter_case_witness :
  lower (name img_gone) = lower (name (images_root ++ ["other"; "Gone.jpg"])) /\
  is_image (img_gone, true) =
  is_image (images_root ++ ["other"; "Gone.jpg"], true).
Proof.
  split; [reflexivity|].
  exact (image_test_ignores_letter_case
           img_gone (images_root ++ ["other"; "Gone.jpg"]) true eq_refl).
Defined.

(** The query for [img_1001] raises: the row built for it has neither
    channel nor message identifier, its insert raises in the failed
    transaction, and the table stays empty although the image is
    counted. *)
Lemma lost_image_witness :
  scan_parts img_1001 = Some "tikvahpharma" /\
  db_fault failing_world (S (db_calls s_fresh)) = true /\
  fst (process_image example_digest failing_world img_1001 s_fresh) =
  Ok [row_orphan] /\
  channel_name row_orphan = None /\
  process_one example_digest failing_world img_1001 (0%nat, 0%nat) s_fresh =
  (Ok (1%nat, 1%nat),
   mkState [] 4
     [ErrSave DatabaseError; InfoFound 1 "1001.jpg";
      Inference (str img_1001) CONFIDENCE_THRESHOLD;
      ErrMessageId (str img_1001) DatabaseError] [] false).
Proof.
  split; [reflexivity|]. split; [reflexivity|]. split; [reflexivity|].
  split; [reflexivity|].
  rewrite (proj1 (proj2 (proj2 (failed_query_loses_the_image
                         example_digest example_digest_length failing_world
                         img_1001 bytes_1001 "tikvahpharma" "1001"
                         (0%nat, 0%nat) s_fresh [row_orphan]
                         (snd (process_image example_digest failing_world
                                 img_1001 s_fresh))
                         eq_refl eq_refl eq_refl eq_refl eq_refl eq_refl
                         eq_refl ltac:(discriminate))))).
  reflexivity.
Defined.

Lemma second_run_zero_witness :
  idle s_fresh /\
  exists rest,
    trace (snd (process_all_images example_digest quiet_world
                  (snd (process_all_images example_digest quiet_world
                          s_fresh)))) =
    InfoComplete 0 5 0 :: rest.
Proof.
  split; [split; reflexivity|].
  apply (second_run_reports_zero
           example_digest example_digest_length quiet_world
           quiet_world_no_faults example_entries s_fresh (conj eq_refl eq_refl)
           eq_refl).
  discriminate.
Defined.

(** The example walk returns no image twice: with the database down for
    good every readable image goes to the detector, each once. *)
Lemma detector_calls_witness :
  NoDup (map str (corpus down_world)) /\
  exists ev,
    emitted s_fresh
      (snd (process_all_images example_digest down_world s_fresh)) ev /\
    (forall q, (calls_on q ev <= 1)%nat) /\
    (inferences ev <= 5)%nat.
Proof.
  assert (ND : NoDup (map str (corpus down_world))).
  { vm_compute. repeat constructor; simpl; intuition discriminate. }
  split; [exact ND|].
  destruct (detector_is_called_at_most_once_per_image
              example_digest example_digest_length down_world s_fresh)
    as (ev & HE & _ & H1 & HC & _).
  exists ev. split; [exact HE|]. split; [exact (H1 ND)|exact HC].
Defined.
